(** * DiffUE: the resolution pipeline of [scripts/DiffUE.py]

    A shallow embedding of the script that finds the two revisions of an
    Unreal asset and launches the external diff tool, together with the
    properties of its directory search, its revision lookup and its two
    materialisation strategies.

    Conventions of the embedding.
    - A Python [str] is a [string]; one [ascii] is one character (code
      points above U+00FF are outside the model).  [bytes] are
      [list byte].
    - [os.path] is [posixpath]; its functions are transcribed from the
      CPython library, and [os.sep] is the slash.
    - The file system is a finite tree of named nodes without links.  A
      path is resolved from the root of the tree, one component after
      the other; [.] and [..] are not interpreted and a relative path is
      read from the root.  The run itself only opens absolute normalised
      paths: prefixes of [os.getcwd()], results of [os.path.abspath] and
      paths below the temporary and the media directory.
    - External programs (git, the Unreal editor) are oracles of the
      environment: a function from the working directory and the
      argument list to the captured output, or to nothing when the exit
      status is not zero.  They leave the modelled file system alone.
      Every call is recorded in a trace, and so is every attempt to
      create, write or unlink a file.
    - An exception is a value of [error]; the state reached when it is
      raised is kept, since nothing in the script catches it.
    - [print_verbose] only writes diagnostics and is left out, with the
      [is_verbose] flag. *)

From Stdlib Require Import String Ascii List ZArith Lia Bool Arith.
From Stdlib Require Import Strings.Byte.
Import ListNotations.
Open Scope string_scope.

Set Implicit Arguments.
Set Warnings "-register-all".

(** ** Python strings *)

Module Py.

(** Truth value of a [str]: the empty string is false. *)
Definition truthy (s : string) : bool :=
  match s with EmptyString => false | String _ _ => true end.

(** Truth value of an optional [str] ([None] is false). *)
Definition truthy_opt (o : option string) : bool :=
  match o with None => false | Some s => truthy s end.

Fixpoint str_rev (s : string) : string :=
  match s with
  | EmptyString => EmptyString
  | String c r => str_rev r ++ String c EmptyString
  end.

(** [s[:n]] for a natural [n]. *)
Fixpoint str_take (n : nat) (s : string) : string :=
  match n, s with
  | O, _ => EmptyString
  | S _, EmptyString => EmptyString
  | S m, String c r => String c (str_take m r)
  end.

(** [s[n:]] for a natural [n]. *)
Fixpoint str_drop (n : nat) (s : string) : string :=
  match n, s with
  | O, _ => s
  | S _, EmptyString => EmptyString
  | S m, String _ r => str_drop m r
  end.

(** [s[a:b]] for naturals [a] and [b]. *)
Definition slice (a b : nat) (s : string) : string :=
  str_take (b - a) (str_drop a s).

(** [s[0:j]] for an integer [j]; a negative [j] counts from the end. *)
Definition slice_to (s : string) (j : Z) : string :=
  if (j <? 0)%Z
  then str_take (Z.to_nat (Z.of_nat (String.length s) + j)) s
  else str_take (Z.to_nat j) s.

(** [s.index(sub)]: [None] stands for the [ValueError]. *)
Definition str_index (sub s : string) : option nat := String.index 0 sub s.

(** [sub in s]. *)
Definition contains (sub s : string) : bool :=
  match str_index sub s with Some _ => true | None => false end.

Definition startswith (s pre : string) : bool := String.prefix pre s.

Definition endswith (s suf : string) : bool :=
  String.prefix (str_rev suf) (str_rev s).

(** [s.replace(old, new)] for one-character [old] and [new]. *)
Fixpoint replace_char (old new : ascii) (s : string) : string :=
  match s with
  | EmptyString => EmptyString
  | String c r =>
      String (if Ascii.eqb c old then new else c) (replace_char old new r)
  end.

(** [s.rfind(c)] for a one-character [c]: the last position of [c], or -1. *)
Fixpoint rfind_from (c : ascii) (s : string) (i : Z) (acc : Z) : Z :=
  match s with
  | EmptyString => acc
  | String d r => rfind_from c r (i + 1) (if Ascii.eqb d c then i else acc)
  end.

Definition rfind (c : ascii) (s : string) : Z := rfind_from c s 0 (-1).

(** [s.split(c)] for a one-character separator: never empty. *)
Fixpoint split (c : ascii) (s : string) : list string :=
  match s with
  | EmptyString => [EmptyString]
  | String d r =>
      if Ascii.eqb d c then EmptyString :: split c r
      else match split c r with
           | [] => [String d EmptyString]
           | w :: ws => String d w :: ws
           end
  end.

(** The characters for which [str.isspace] holds, below U+0100. *)
Definition isspace (c : ascii) : bool :=
  let n := nat_of_ascii c in
  (((9 <=? n) && (n <=? 13)) || ((28 <=? n) && (n <=? 32))
   || (n =? 133) || (n =? 160))%nat.

Fixpoint lstrip (s : string) : string :=
  match s with
  | EmptyString => EmptyString
  | String c r => if isspace c then lstrip r else s
  end.

(** [s.strip()]. *)
Definition strip (s : string) : string :=
  str_rev (lstrip (str_rev (lstrip s))).

(** The line boundaries of [str.splitlines], below U+0100 (a carriage
    return followed by a line feed is one boundary). *)
Definition is_linebreak (c : ascii) : bool :=
  let n := nat_of_ascii c in
  (((10 <=? n) && (n <=? 13)) || ((28 <=? n) && (n <=? 30)) || (n =? 133))%nat.

Definition is_cr (c : ascii) : bool := (nat_of_ascii c =? 13)%nat.
Definition is_lf (c : ascii) : bool := (nat_of_ascii c =? 10)%nat.

(** [splitlines_acc cur s]: [cur] is the current line, reversed. *)
Fixpoint splitlines_acc (cur : string) (s : string) : list string :=
  match s with
  | EmptyString =>
      match cur with EmptyString => [] | _ => [str_rev cur] end
  | String c r =>
      if is_linebreak c then
        str_rev cur ::
          (if is_cr c
           then match r with
                | String d r' =>
                    if is_lf d then splitlines_acc EmptyString r'
                    else splitlines_acc EmptyString r
                | EmptyString => splitlines_acc EmptyString r
                end
           else splitlines_acc EmptyString r)
      else splitlines_acc (String c cur) r
  end.

(** [s.splitlines()]. *)
Definition splitlines (s : string) : list string :=
  splitlines_acc EmptyString s.

(** Does the character [c] occur in [s]? *)
Fixpoint has_char (c : ascii) (s : string) : bool :=
  match s with
  | EmptyString => false
  | String d r => Ascii.eqb d c || has_char c r
  end.

(** [x in l] for a list of strings. *)
Definition str_in (x : string) (l : list string) : bool :=
  existsb (String.eqb x) l.

End Py.

(** ** [os.path] (posixpath) *)

Module OsPath.

Definition sep : string := "/".
Definition sep_char : ascii := "/"%char.

(** [os.path.join(a, b)]. *)
Definition join (a b : string) : string :=
  if Py.startswith b sep then b
  else if negb (Py.truthy a) || Py.endswith a sep then a ++ b
  else a ++ sep ++ b.

(** [os.path.join(a, *p)]. *)
Definition join_all (a : string) (p : list string) : string :=
  fold_left join p a.

Definition isabs (s : string) : bool := Py.startswith s sep.

Definition is_nil {A : Type} (l : list A) : bool :=
  match l with [] => true | _ :: _ => false end.

(** One turn of the loop of [normpath] over the components. *)
Definition normpath_step (initial_slashes : nat) (new_comps : list string)
  (comp : string) : list string :=
  if String.eqb comp EmptyString || String.eqb comp "." then new_comps
  else if negb (String.eqb comp "..")
          || ((initial_slashes =? 0)%nat && is_nil new_comps)
          || (negb (is_nil new_comps)
              && String.eqb (last new_comps EmptyString) "..")
  then (new_comps ++ [comp])%list
  else if negb (is_nil new_comps) then removelast new_comps
  else new_comps.

Fixpoint str_repeat (s : string) (n : nat) : string :=
  match n with O => EmptyString | S m => s ++ str_repeat s m end.

(** [os.path.normpath(path)]. *)
Definition normpath (path : string) : string :=
  if String.eqb path EmptyString then "."
  else
    let initial_slashes :=
      if Py.startswith path sep then
        if Py.startswith path "//" && negb (Py.startswith path "///")
        then 2%nat else 1%nat
      else 0%nat in
    let comps :=
      fold_left (normpath_step initial_slashes) (Py.split sep_char path) [] in
    let p := str_repeat sep initial_slashes ++ String.concat sep comps in
    if Py.truthy p then p else ".".

(** [os.path.abspath(path)], with [os.getcwd()] passed as [cwd]. *)
Definition abspath (cwd path : string) : string :=
  normpath (if isabs path then path else join cwd path).

(** Length of the longest common prefix of two component lists
    ([len(commonprefix([l1, l2]))]). *)
Fixpoint common_len (l1 l2 : list string) : nat :=
  match l1, l2 with
  | a :: r1, b :: r2 => if String.eqb a b then S (common_len r1 r2) else O
  | _, _ => O
  end.

(** [os.path.relpath(path, start)]; [None] is the [ValueError] raised for
    an empty [path]. *)
Definition relpath (cwd path start : string) : option string :=
  if negb (Py.truthy path) then None
  else
    let start_list :=
      filter Py.truthy (Py.split sep_char (abspath cwd start)) in
    let path_list :=
      filter Py.truthy (Py.split sep_char (abspath cwd path)) in
    let i := common_len start_list path_list in
    let rel_list :=
      (repeat ".." (List.length start_list - i) ++ skipn i path_list)%list in
    match rel_list with
    | [] => Some "."
    | a :: p => Some (join_all a p)
    end.

(** [os.path.basename(p)]. *)
Definition basename (p : string) : string :=
  Py.str_drop (Z.to_nat (Py.rfind sep_char p + 1)) p.

(** The loop of [genericpath._splitext] that skips leading dots: is there
    a character other than the dot in [p[i:dot]]? *)
Fixpoint has_non_dot (p : string) (i : nat) (count : nat) : bool :=
  match count with
  | O => false
  | S k =>
      if negb (String.eqb (Py.slice i (S i) p) ".") then true
      else has_non_dot p (S i) k
  end.

(** [os.path.splitext(p)]. *)
Definition splitext (p : string) : string * string :=
  let sepIndex := Py.rfind sep_char p in
  let dotIndex := Py.rfind "."%char p in
  if (sepIndex <? dotIndex)%Z
     && has_non_dot p (Z.to_nat (sepIndex + 1))
          (Z.to_nat (dotIndex - (sepIndex + 1)))
  then (Py.str_take (Z.to_nat dotIndex) p, Py.str_drop (Z.to_nat dotIndex) p)
  else (p, EmptyString).

End OsPath.

(** ** Generic utilities of the script *)

(** [last_index(input, sep)]: the position of the last [sep] in [input],
    found through the reversed string; -1 when [index] raises. *)
Definition last_index (input sep : string) : Z :=
  match Py.str_index sep (Py.str_rev input) with
  | Some i => Z.of_nat (String.length input) - Z.of_nat i - 1
  | None => -1
  end.

(** ** The file system *)

Module FS.

(** A node of the tree: a regular file with its content, or a directory
    with its entries in listing order. *)
Inductive node : Type :=
| File (name : string) (data : list byte)
| Dir (name : string) (children : list node).

Definition node_name (e : node) : string :=
  match e with File n _ => n | Dir n _ => n end.

Definition is_dir (e : node) : bool :=
  match e with File _ _ => false | Dir _ _ => true end.

Definition children_of (e : node) : list node :=
  match e with File _ _ => [] | Dir _ cs => cs end.

(** A file system is the list of entries of its root directory. *)
Definition t : Type := list node.

Definition find_child (n : string) (cs : list node) : option node :=
  find (fun e => String.eqb (node_name e) n) cs.

Fixpoint walk (e : node) (comps : list string) : option node :=
  match comps with
  | [] => Some e
  | c :: rest =>
      match e with
      | File _ _ => None
      | Dir _ cs =>
          match find_child c cs with
          | Some e' => walk e' rest
          | None => None
          end
      end
  end.

(** The components of a path: the non-empty pieces between slashes. *)
Definition components (path : string) : list string :=
  filter Py.truthy (Py.split OsPath.sep_char path).

(** The node a path names; the empty path names nothing. *)
Definition resolve (fs : t) (path : string) : option node :=
  if Py.truthy path then walk (Dir EmptyString fs) (components path) else None.

Definition exists_ (fs : t) (path : string) : bool :=
  match resolve fs path with Some _ => true | None => false end.

(** [os.path.isfile(path)]. *)
Definition isfile (fs : t) (path : string) : bool :=
  match resolve fs path with Some (File _ _) => true | _ => false end.

Definition isdir (fs : t) (path : string) : bool :=
  match resolve fs path with Some (Dir _ _) => true | _ => false end.

(** The content read back from a regular file. *)
Definition read (fs : t) (path : string) : option (list byte) :=
  match resolve fs path with Some (File _ d) => Some d | _ => None end.

(** An [os.DirEntry]: what a predicate can ask of an entry. *)
Record DirEntry : Type := mkDirEntry {
  name : string;
  path : string;
  entry_is_dir : bool
}.

Definition dir_entry (dir : string) (e : node) : DirEntry :=
  mkDirEntry (node_name e) (OsPath.join dir (node_name e)) (is_dir e).

(** [os.scandir(dir)]: the entries in listing order, or [None] when the
    call raises (no such directory, not a directory). *)
Definition scandir (fs : t) (dir : string) : option (list DirEntry) :=
  match resolve fs dir with
  | Some (Dir _ cs) => Some (map (dir_entry dir) cs)
  | _ => None
  end.

(** *** Updates *)

(** Replaces the first child named [c] by what [g] makes of it. *)
Fixpoint replace_child (c : string) (g : node -> option node)
  (cs : list node) : option (list node) :=
  match cs with
  | [] => None
  | e :: r =>
      if String.eqb (node_name e) c
      then option_map (fun e' => e' :: r) (g e)
      else option_map (cons e) (replace_child c g r)
  end.

(** Applies [f] to the last component and the entries of its parent
    directory; fails when the parent is not an existing directory. *)
Fixpoint update (comps : list string)
  (f : string -> list node -> option (list node)) (cs : list node)
  : option (list node) :=
  match comps with
  | [] => None
  | c :: rest =>
      match rest with
      | [] => f c cs
      | _ :: _ =>
          replace_child c
            (fun e =>
               match e with
               | File _ _ => None
               | Dir n cs' => option_map (Dir n) (update rest f cs')
               end) cs
      end
  end.

Definition special_name (c : string) : bool :=
  String.eqb c "." || String.eqb c "..".

(** Creates or truncates the regular file [c] among [cs]. *)
Definition put_file (data : list byte) (c : string) (cs : list node)
  : option (list node) :=
  if special_name c then None
  else match find_child c cs with
       | None => Some (cs ++ [File c data])%list
       | Some (File _ _) => replace_child c (fun _ => Some (File c data)) cs
       | Some (Dir _ _) => None
       end.

(** Creates the empty directory [c] among [cs]; fails when [c] exists. *)
Definition make_dir (c : string) (cs : list node) : option (list node) :=
  if special_name c then None
  else match find_child c cs with
       | None => Some (cs ++ [Dir c []])%list
       | Some _ => None
       end.

Fixpoint remove_child (c : string) (cs : list node) : list node :=
  match cs with
  | [] => []
  | e :: r => if String.eqb (node_name e) c then r else e :: remove_child c r
  end.

(** Removes the regular file [c] from [cs]. *)
Definition remove_file (c : string) (cs : list node) : option (list node) :=
  match find_child c cs with
  | Some (File _ _) => Some (remove_child c cs)
  | _ => None
  end.

(** [open(path, "wb").write(data)]. *)
Definition write (fs : t) (path : string) (data : list byte) : option t :=
  update (components path) (put_file data) fs.

(** [os.mkdir(path)]. *)
Definition mkdir (fs : t) (path : string) : option t :=
  update (components path) make_dir fs.

(** [os.unlink(path)]. *)
Definition unlink (fs : t) (path : string) : option t :=
  update (components path) remove_file fs.

(** *** Well-formed trees *)

(** An entry name is not empty, is neither [.] nor [..], and holds no
    slash. *)
Definition valid_name (n : string) : bool :=
  Py.truthy n && negb (special_name n)
  && negb (Py.has_char OsPath.sep_char n).

Fixpoint nodup_names (l : list string) : bool :=
  match l with
  | [] => true
  | n :: r => negb (Py.str_in n r) && nodup_names r
  end.

(** Every name is valid and no directory lists a name twice. *)
Fixpoint wf_node (e : node) : bool :=
  valid_name (node_name e) &&
  match e with
  | File _ _ => true
  | Dir _ cs => nodup_names (map node_name cs) && forallb wf_node cs
  end.

Definition wf_children (cs : list node) : bool :=
  nodup_names (map node_name cs) && forallb wf_node cs.

Definition wf (fs : t) : bool := wf_children fs.

(** The number of nodes. *)
Fixpoint size (e : node) : nat :=
  match e with
  | File _ _ => 1
  | Dir _ cs => S (list_sum (map size cs))
  end.

End FS.

(** ** Outcomes *)

(** The failures of a run.  The script raises plain [Exception]s with a
    message; the kinds name the raise sites.  [OSError] stands for the
    exceptions of the file-system calls, [ValueError] for the one of
    [os.path.relpath].  [Diverges] is no exception: it marks a search that
    does not finish, which only an ill-formed tree can cause. *)
Inductive error : Type :=
| AnchorNotFound
| InvalidAsset
| NoHistory
| ToolInvocationFailed
| ConfigurationMissing
| ObjectIdMissing
| ObjectNotFound
| OSError
| ValueError
| Diverges.

Inductive result (A : Type) : Type :=
| Ok (a : A)
| Raise (e : error).

Arguments Ok {A} a.
Arguments Raise {A} e.

(** ** Directory search *)

Import FS.

Definition predicate : Type := DirEntry -> bool.

(** [list.pop()]: removes and returns the last item. *)
Definition pop {A : Type} (l : list A) : option (list A * A) :=
  match rev l with
  | [] => None
  | x :: r => Some (rev r, x)
  end.

Definition not_dot_git (entry : DirEntry) : bool :=
  negb (String.eqb (name entry) ".git").

(** The [while] loop of [find_entry_in_dir].  [scanned] records the
    directories handed to [os.scandir], in order.  [None]: the fuel ran
    out before the loop ended. *)
Fixpoint find_entry_in_dir_loop (fuel : nat) (fs : FS.t) (p : predicate)
  (dirs_to_check : list string) (entry_path : option string)
  (scanned : list string) : option (result (option string) * list string) :=
  if OsPath.is_nil dirs_to_check || Py.truthy_opt entry_path
  then Some (Ok entry_path, scanned)
  else
    match fuel with
    | O => None
    | S fuel' =>
        match pop dirs_to_check with
        | None => Some (Ok entry_path, scanned)
        | Some (rest, dir) =>
            match scandir fs dir with
            | None => Some (Raise OSError, scanned ++ [dir])%list
            | Some it =>
                let entries := filter not_dot_git it in
                let new_dirs := filter entry_is_dir entries in
                (* [os.path.join(dir, subdir)] takes the [DirEntry] through
                   [os.fspath], which is its [path] *)
                let dirs' :=
                  (rest ++
                   map (fun subdir => OsPath.join dir (path subdir)) new_dirs)%list in
                let matches := filter p entries in
                let entry_path' :=
                  match matches with
                  | m :: _ => Some (OsPath.join dir (name m))
                  | [] => entry_path
                  end in
                find_entry_in_dir_loop fuel' fs p dirs' entry_path'
                  (scanned ++ [dir])%list
            end
        end
    end.

(** One turn per node of the tree is enough on a well-formed tree. *)
Definition search_fuel (fs : FS.t) : nat := S (size (Dir EmptyString fs)).

(** [find_entry_in_dir(start_dir, predicate)], with the scanned
    directories. *)
Definition find_entry_in_dir_scan (fs : FS.t) (start_dir : string)
  (p : predicate) : result (option string) * list string :=
  match find_entry_in_dir_loop (search_fuel fs) fs p [start_dir] None [] with
  | Some r => r
  | None => (Raise Diverges, [])
  end.

Definition find_entry_in_dir (fs : FS.t) (start_dir : string) (p : predicate)
  : result (option string) :=
  fst (find_entry_in_dir_scan fs start_dir p).

(** The [while] loop of [find_entry_in_dir_up]. *)
Fixpoint find_entry_in_dir_up_loop (fuel : nat) (fs : FS.t) (p : predicate)
  (path : string) (entry_path : option string) (last_slash_index : Z)
  : option (result (option string)) :=
  if Py.truthy path && negb (Py.truthy_opt entry_path)
     && (0 <? last_slash_index)%Z
  then
    match fuel with
    | O => None
    | S fuel' =>
        match scandir fs path with
        | None => Some (Raise OSError)
        | Some it =>
            let entry_path' :=
              if existsb p it then Some path else entry_path in
            let last_slash_index' := last_index path OsPath.sep in
            find_entry_in_dir_up_loop fuel' fs p
              (Py.slice_to path last_slash_index') entry_path'
              last_slash_index'
        end
    end
  else Some (Ok entry_path).

(** [find_entry_in_dir_up(start_dir, predicate)]: every turn shortens
    [path], so its length bounds the number of turns. *)
Definition find_entry_in_dir_up (fs : FS.t) (start_dir : string)
  (p : predicate) : result (option string) :=
  match find_entry_in_dir_up_loop (S (String.length start_dir)) fs p
          start_dir None 1 with
  | Some r => r
  | None => Raise Diverges
  end.

(** ** The environment, the state and the monad of a run *)

(** What a run does to the outside, in order. *)
Inductive event : Type :=
| Run (cwd : string) (cmd_parts : list string)
| Capture (cwd : string) (cmd_parts : list string)
| CaptureBlob (cwd : string) (cmd_parts : list string)
| Mkdtemp
| OpenWrite (path : string)
| Unlink (path : string).

(** What a run reads and never changes.  The three [proc_] oracles stand
    for [subprocess.run] with [check=True]: no answer means a non-zero
    exit status.  [tmp_candidates] are the full paths [tempfile] tries, in
    order. *)
Record Env : Type := mkEnv {
  getcwd : string;
  environ : string -> option string;
  proc_text : string -> list string -> option string;
  proc_blob : string -> list string -> option (list byte);
  proc_run : string -> list string -> bool;
  tmp_candidates : list string
}.

Record State : Type := mkState {
  st_fs : FS.t;
  st_trace : list event
}.

(** A computation reads the environment, threads the state and either
    returns or raises; the state reached before a raise is kept. *)
Definition M (A : Type) : Type := Env -> State -> result A * State.

Definition ret {A : Type} (a : A) : M A := fun _ st => (Ok a, st).

Definition raise {A : Type} (e : error) : M A := fun _ st => (Raise e, st).

Definition bind {A B : Type} (m : M A) (k : A -> M B) : M B :=
  fun env st =>
    match m env st with
    | (Ok a, st') => k a env st'
    | (Raise e, st') => (Raise e, st')
    end.

Declare Scope run_scope.
Delimit Scope run_scope with run.
Notation "x <- m ;; k" := (bind m (fun x => k))
  (at level 61, m at next level, right associativity) : run_scope.
Notation "m ;;; k" := (bind m (fun _ => k))
  (at level 61, right associativity) : run_scope.
Open Scope run_scope.

Definition ask : M Env := fun env st => (Ok env, st).
Definition get_fs : M FS.t := fun _ st => (Ok (st_fs st), st).
Definition set_fs (fs : FS.t) : M unit :=
  fun _ st => (Ok tt, mkState fs (st_trace st)).
Definition log (ev : event) : M unit :=
  fun _ st => (Ok tt, mkState (st_fs st) (st_trace st ++ [ev])%list).

Definition lift_result {A : Type} (r : result A) : M A :=
  fun _ st => (r, st).

Definition lift_option {A : Type} (e : error) (o : option A) : M A :=
  match o with Some a => ret a | None => raise e end.

(** ** Path finders *)

(** The [while] loop of [find_git_root]. *)
Fixpoint find_git_root_loop (fuel : nat) (fs : FS.t) (path : string)
  (git_root : string) (last_slash_index : Z) : option (result string) :=
  if Py.truthy path && negb (Py.truthy git_root) && (0 <? last_slash_index)%Z
  then
    match fuel with
    | O => None
    | S fuel' =>
        match scandir fs path with
        | None => Some (Raise OSError)
        | Some it =>
            let git_root' :=
              if existsb (fun entry => String.eqb (name entry) ".git") it
              then path else git_root in
            let last_slash_index' := last_index path OsPath.sep in
            find_git_root_loop fuel' fs (Py.slice_to path last_slash_index')
              git_root' last_slash_index'
        end
    end
  else Some (Ok git_root).

Definition find_git_root : M string :=
  env <- ask ;;
  fs <- get_fs ;;
  match find_git_root_loop (S (String.length (getcwd env))) fs (getcwd env)
          EmptyString 1 with
  | None => raise Diverges
  | Some (Raise e) => raise e
  | Some (Ok git_root) =>
      if negb (Py.truthy git_root) then raise AnchorNotFound
      else ret git_root
  end.

Definition get_ue_bin_path : M string :=
  env <- ask ;;
  let path := environ env "UE_DIFF_BIN" in
  match path with
  | Some p => if Py.truthy p then ret p else raise ConfigurationMissing
  | None => raise ConfigurationMissing
  end.

Definition get_valid_asset_path (relative_asset_path : string) : M string :=
  env <- ask ;;
  fs <- get_fs ;;
  let asset_path :=
    OsPath.abspath (getcwd env)
      (OsPath.join (getcwd env) relative_asset_path) in
  if negb (isfile fs asset_path) then raise InvalidAsset
  else ret asset_path.

Definition uproject_predicate : predicate :=
  fun entry => Py.endswith (name entry) ".uproject".

Definition get_project_path (start_dir : string) : M string :=
  fs <- get_fs ;;
  path <- lift_result (find_entry_in_dir fs start_dir uproject_predicate) ;;
  path <- (if negb (Py.truthy_opt path)
           then lift_result
                  (find_entry_in_dir_up fs start_dir uproject_predicate)
           else ret path) ;;
  match path with
  | Some p => if Py.truthy p then ret p else raise AnchorNotFound
  | None => raise AnchorNotFound
  end.

(** [tempfile.mkdtemp()]: the first candidate that does not exist yet is
    created; [FileExistsError] when none is left. *)
Fixpoint mkdtemp_try (names : list string) (fs : FS.t)
  : result (string * FS.t) :=
  match names with
  | [] => Raise OSError
  | file :: rest =>
      if exists_ fs file then mkdtemp_try rest fs
      else match mkdir fs file with
           | Some fs' => Ok (file, fs')
           | None => Raise OSError
           end
  end.

Definition mkdtemp : M string :=
  env <- ask ;;
  fs <- get_fs ;;
  log Mkdtemp ;;;
  match mkdtemp_try (tmp_candidates env) fs with
  | Ok (d, fs') => set_fs fs' ;;; ret d
  | Raise e => raise e
  end.

Definition get_asset_temp_path (asset_path revision : string) : M string :=
  tmp_dir <- mkdtemp ;;
  let name_parts := OsPath.splitext asset_path in
  let asset_base_name := OsPath.basename (fst name_parts) in
  let new_name := asset_base_name ++ "_" ++ revision ++ snd name_parts in
  let new_path := OsPath.join tmp_dir new_name in
  ret new_path.

(** ** Command runners *)

Definition run_cmd (cwd : string) (cmd_parts : list string) : M unit :=
  env <- ask ;;
  log (Run cwd cmd_parts) ;;;
  if proc_run env cwd cmd_parts then ret tt else raise ToolInvocationFailed.

Definition run_cmd_capture (cwd : string) (cmd_parts : list string)
  : M string :=
  env <- ask ;;
  log (Capture cwd cmd_parts) ;;;
  lift_option ToolInvocationFailed (proc_text env cwd cmd_parts).

Definition run_cmd_capture_blob (cwd : string) (cmd_parts : list string)
  : M (list byte) :=
  env <- ask ;;
  log (CaptureBlob cwd cmd_parts) ;;;
  lift_option ToolInvocationFailed (proc_blob env cwd cmd_parts).

(** ** Git operations *)

Definition os_path_relpath (path start : string) : M string :=
  env <- ask ;;
  lift_option ValueError (OsPath.relpath (getcwd env) path start).

Definition get_git_relative_asset_path (git_root asset_path : string)
  : M string :=
  rel <- os_path_relpath asset_path git_root ;;
  ret (Py.replace_char "\"%char "/"%char rel).

Definition git_find_last_revision (git_root file_path : string) : M string :=
  revision <- run_cmd_capture git_root
                ["git"; "log"; "--format=%h"; "-n"; "1"; file_path] ;;
  let revision := Py.strip revision in
  if negb (Py.truthy revision) then raise NoHistory
  else ret revision.

Definition open_write (path : string) (data : list byte) : M unit :=
  fs <- get_fs ;;
  log (OpenWrite path) ;;;
  match FS.write fs path data with
  | Some fs' => set_fs fs'
  | None => raise OSError
  end.

Definition os_unlink (path : string) : M unit :=
  fs <- get_fs ;;
  log (Unlink path) ;;;
  match FS.unlink fs path with
  | Some fs' => set_fs fs'
  | None => raise OSError
  end.

Definition git_download_asset_revision
  (git_root asset_path revision tmp_path : string) : M unit :=
  git_asset_path <- get_git_relative_asset_path git_root asset_path ;;
  raw_contents <- run_cmd_capture_blob git_root
                    ["git"; "show"; revision ++ ":" ++ git_asset_path] ;;
  open_write tmp_path raw_contents.

Definition git_is_lfs (git_root asset_path : string) : M bool :=
  lfs_files_output <- run_cmd_capture git_root ["git"; "lfs"; "ls-files"] ;;
  let lfs_files := map (Py.str_drop 13) (Py.splitlines lfs_files_output) in
  git_asset_path <- get_git_relative_asset_path git_root asset_path ;;
  let is_lfs := Py.str_in git_asset_path lfs_files in
  ret is_lfs.

(** ** Diff operations *)

Definition create_diff_command_parts (ue_bin_path project_path asset_path
  : string) (second_asset_path : option string) : list string :=
  let args := [ue_bin_path; project_path; "-diff"; asset_path] in
  match second_asset_path with
  | Some s => if Py.truthy s then (args ++ [s])%list else args
  | None => args
  end.

Definition diff_lfs (git_root asset_path revision ue_bin_path project_path
  : string) : M unit :=
  git_asset_path <- get_git_relative_asset_path git_root asset_path ;;
  lfs_envs_output <- run_cmd_capture git_root ["git"; "lfs"; "env"] ;;
  let lfs_media_dir_matches :=
    map (Py.str_drop 14)
      (filter (Py.contains "LocalMediaDir=")
         (Py.splitlines lfs_envs_output)) in
  match lfs_media_dir_matches with
  | [] => raise ConfigurationMissing
  | lfs_media_dir :: _ =>
      oid_output <- run_cmd_capture git_root
                      ["git"; "cat-file"; "-p";
                       revision ++ ":" ++ git_asset_path] ;;
      let asset_oid_matches :=
        map (Py.str_drop 11)
          (filter (Py.contains "oid sha256:") (Py.splitlines oid_output)) in
      match asset_oid_matches with
      | [] => raise ObjectIdMissing
      | asset_oid :: _ =>
          let left_asset_path :=
            OsPath.join_all lfs_media_dir
              [Py.slice 0 2 asset_oid; Py.slice 2 4 asset_oid; asset_oid] in
          fs <- get_fs ;;
          if negb (isfile fs left_asset_path) then raise ObjectNotFound
          else
            let cmd_parts :=
              create_diff_command_parts ue_bin_path project_path
                left_asset_path (Some asset_path) in
            run_cmd git_root cmd_parts
      end
  end.

Definition diff_normal (git_root asset_path revision ue_bin_path project_path
  : string) : M unit :=
  tmp_path <- get_asset_temp_path asset_path revision ;;
  git_download_asset_revision git_root asset_path revision tmp_path ;;;
  let cmd_parts :=
    create_diff_command_parts ue_bin_path project_path tmp_path
      (Some asset_path) in
  run_cmd git_root cmd_parts ;;;
  os_unlink tmp_path.

(** ** Main *)

(** [main()] after argument parsing: [relative_asset_path] is
    [args.asset]. *)
Definition main (relative_asset_path : string) : M unit :=
  git_root <- find_git_root ;;
  asset_path <- get_valid_asset_path relative_asset_path ;;
  project_path <- get_project_path git_root ;;
  ue_bin_path <- get_ue_bin_path ;;
  git_relative_asset_path <- os_path_relpath asset_path git_root ;;
  revision <- git_find_last_revision git_root git_relative_asset_path ;;
  is_lfs <- git_is_lfs git_root asset_path ;;
  if is_lfs
  then diff_lfs git_root asset_path revision ue_bin_path project_path
  else diff_normal git_root asset_path revision ue_bin_path project_path.

(** ** Reference definitions for the directory search *)

(** Is the node a directory that the downward search enters? *)
Definition entered (c : node) : bool :=
  is_dir c && negb (String.eqb (node_name c) ".git").

(** The matching entries of one directory, in listing order, after the
    entries named [.git] are dropped. *)
Definition direct_matches (p : predicate) (dir : string) (cs : list node)
  : list DirEntry :=
  filter p (filter not_dot_git (map (dir_entry dir) cs)).

(** Depth-first search, the last listed subdirectory first: a directory's
    own first match, otherwise the first result among its subdirectories
    taken from the last one to the first one. *)
Fixpoint search_depth_first (p : predicate) (dir : string) (e : node)
  : option string :=
  match e with
  | File _ _ => None
  | Dir _ cs =>
      match direct_matches p dir cs with
      | m :: _ => Some (OsPath.join dir (name m))
      | [] =>
          (fix later_first (l : list node) : option string :=
             match l with
             | [] => None
             | c :: r =>
                 match later_first r with
                 | Some found => Some found
                 | None =>
                     if entered c
                     then search_depth_first p
                            (OsPath.join dir (node_name c)) c
                     else None
                 end
             end) cs
      end
  end.

(** The matches exactly [depth] levels below [dir] (1: its own entries),
    not counting what lies inside a [.git] directory. *)
Fixpoint matches_at (depth : nat) (p : predicate) (dir : string)
  (cs : list node) : list string :=
  match depth with
  | O => []
  | S k =>
      match k with
      | O => map (fun m => OsPath.join dir (name m)) (direct_matches p dir cs)
      | S _ =>
          flat_map
            (fun c =>
               matches_at k p (OsPath.join dir (node_name c)) (children_of c))
            (filter entered cs)
      end
  end.

(** The claim that the downward search prefers shallower matches: the
    entry it returns lies at a depth at which no shallower level has a
    match. *)
Definition shallowest_first : Prop :=
  forall (fs : FS.t) (start : string) (p : predicate) (n : string)
         (cs : list node) (found other : string) (d d' : nat),
    wf fs = true -> OsPath.isabs start = true ->
    resolve fs start = Some (Dir n cs) ->
    find_entry_in_dir fs start p = Ok (Some found) ->
    In found (matches_at d p start cs) ->
    In other (matches_at d' p start cs) ->
    (d <= d')%nat.

(** The entries of a directory [/r] in which the deepest match is found
    first: [a] is listed before [b]. *)
Definition two_branches : list node :=
  [Dir "a" [File "shallow.uproject" []];
   Dir "b" [Dir "c" [File "deep.uproject" []]]].

Definition fs_two_branches : FS.t := [Dir "r" two_branches].

(** A tree whose repository holds a file and a directory named [.git]. *)
Definition fs_dot_git_entries : FS.t :=
  [Dir "r" [Dir ".git" [File "HEAD" []];
            Dir "sub" [File ".git" []; File "Game.uproject" []]]].

(** ** The project lookup as the specification words it *)

(** Downward from the repository root, then upward from the current
    working directory. *)
Definition get_project_path_from_cwd (root : string) : M string :=
  env <- ask ;;
  fs <- get_fs ;;
  path <- lift_result (find_entry_in_dir fs root uproject_predicate) ;;
  path <- (if negb (Py.truthy_opt path)
           then lift_result
                  (find_entry_in_dir_up fs (getcwd env) uproject_predicate)
           else ret path) ;;
  match path with
  | Some p => if Py.truthy p then ret p else raise AnchorNotFound
  | None => raise AnchorNotFound
  end.

(** [path] lies at or below [start], and none of the components that
    lead from [start] to it is [.git]. *)
Definition below_avoiding_dot_git (start path : string) : Prop :=
  exists names : list string,
    components path = (components start ++ names)%list /\ ~ In ".git" names.

(** The directories still to visit, each with the node its path names;
    the last one is visited next. *)
Definition stack : Type := list (string * node).

Fixpoint search_stack (p : predicate) (s : stack) : option string :=
  match s with
  | [] => None
  | (d, e) :: r =>
      match search_stack p r with
      | Some found => Some found
      | None => search_depth_first p d e
      end
  end.

Definition children_stack (dir : string) (cs : list node) : stack :=
  map (fun c => (OsPath.join dir (node_name c), c)) (filter entered cs).

Definition stack_size (s : stack) : nat :=
  list_sum (map (fun x => size (snd x)) s).

Definition stack_item_ok (fs : FS.t) (x : string * node) : Prop :=
  OsPath.isabs (fst x) = true /\ resolve fs (fst x) = Some (snd x) /\
  exists n cs, snd x = Dir n cs /\ wf_children cs = true.

(** [path] is a [.git] entry below [start], or lies inside one. *)
Definition inside_dot_git (start path : string) : Prop :=
  exists pre post : list string,
    components path = (components start ++ pre ++ ".git" :: post)%list.

(** [found] is the first match of a directory at or below [dir], and no
    directory on the way from [dir] down to it has a match of its own. *)
Inductive found_under (p : predicate) : string -> node -> string -> Prop :=
| found_here (dir n : string) (cs : list node) (m : DirEntry)
    (ms : list DirEntry) :
    direct_matches p dir cs = m :: ms ->
    found_under p dir (Dir n cs) (OsPath.join dir (name m))
| found_deeper (dir n : string) (cs : list node) (c : node) (found : string) :
    direct_matches p dir cs = [] ->
    In c cs -> entered c = true ->
    found_under p (OsPath.join dir (node_name c)) c found ->
    found_under p dir (Dir n cs) found.

(** A step that keeps every directory entry of the directory it
    changes. *)
Definition keeps_dirs (f : string -> list node -> option (list node))
  : Prop :=
  forall c cs cs' x n1 cs1,
    f c cs = Some cs' -> find_child x cs = Some (Dir n1 cs1) ->
    find_child x cs' = Some (Dir n1 cs1).

(** ** Reasoning about computations *)

(** [m] leaves the state as it found it. *)
Definition reader {A : Type} (m : M A) : Prop :=
  forall env st, snd (m env st) = st.

(** Every error [m] raises satisfies [E]. *)
Definition may_raise {A : Type} (m : M A) (E : error -> Prop) : Prop :=
  forall env st e st', m env st = (Raise e, st') -> E e.

Definition is_run (ev : event) : bool :=
  match ev with Run _ _ => true | _ => false end.

(** No external tool is launched by [run_cmd] in [extra]. *)
Definition no_run (extra : list event) : Prop :=
  forallb (fun ev => negb (is_run ev)) extra = true.

(** From [st] to [st'] the file system is left alone and no tool is
    launched with [run_cmd]; the output of commands may be captured. *)
Definition quiet_from (st st' : State) : Prop :=
  st_fs st' = st_fs st /\
  exists extra, st_trace st' = (st_trace st ++ extra)%list /\ no_run extra.

(** [m] is quiet whatever its outcome. *)
Definition quiet {A : Type} (m : M A) : Prop :=
  forall env st, quiet_from st (snd (m env st)).

(** When [m] raises [ObjectNotFound] it has been quiet. *)
Definition stops_before_tool {A : Type} (m : M A) : Prop :=
  forall env st,
    fst (m env st) = Raise ObjectNotFound -> quiet_from st (snd (m env st)).

(** [m] never changes the file system. *)
Definition keeps_fs {A : Type} (m : M A) : Prop :=
  forall env st, st_fs (snd (m env st)) = st_fs st.

(** [g] is a prefix of the string [cwd], and the directory it names
    lists an entry named [.git]. *)
Definition holds_dot_git (fs : FS.t) (cwd g : string) : Prop :=
  (exists n, g = Py.str_take n cwd) /\
  exists it,
    scandir fs g = Some it /\
    existsb (fun entry => String.eqb (name entry) ".git") it = true.

(** The errors of the stages of [main] that come before the revision
    lookup. *)
Definition setup_error (e : error) : Prop :=
  e = AnchorNotFound \/ e = InvalidAsset \/ e = ConfigurationMissing \/
  e = OSError \/ e = ValueError \/ e = Diverges.

(** The errors of the stages that come after it, in storage
    classification and in inline mode. *)
Definition tool_error (e : error) : Prop :=
  e = ToolInvocationFailed \/ e = OSError \/ e = ValueError.

(** The errors of the large-file strategy. *)
Definition lfs_error (e : error) : Prop :=
  e = ToolInvocationFailed \/ e = ValueError \/ e = ConfigurationMissing \/
  e = ObjectIdMissing \/ e = ObjectNotFound.

(** The command line of the revision lookup. *)
Definition git_log_cmd (file_path : string) : list string :=
  ["git"; "log"; "--format=%h"; "-n"; "1"; file_path].

(** ** Sample runs *)

Definition ue_environ : string -> option string :=
  fun key => if String.eqb key "UE_DIFF_BIN" then Some "/ue/UnrealEditor-Cmd"
             else None.

Definition cmd_eqb (a b : list string) : bool :=
  if list_eq_dec string_dec a b then true else false.

(** A repository whose only project descriptor sits in the hooks
    directory of its [.git] directory. *)
Definition fs_hooks : FS.t :=
  [Dir "r" [Dir ".git" [Dir "hooks" [File "x.uproject" []]];
            Dir "Content" []]].

(** A run started from that hooks directory. *)
Definition env_hooks : Env :=
  mkEnv "/r/.git/hooks" ue_environ (fun _ _ => None) (fun _ _ => None)
    (fun _ _ => true) [].

Definition st_hooks : State := mkState fs_hooks [].

Definition LF : string := String (ascii_of_nat 10) EmptyString.

(** The scenario of the inline asset: [Content/Foo.uasset] in the
    repository [/r], whose last revision is [abc1234]. *)
Definition fs_inline : FS.t :=
  [Dir "r" [Dir ".git" [File "HEAD" []];
            Dir "Content" [File "Foo.uasset" [x01; x02]];
            File "Game.uproject" []];
   Dir "tmp" []].

(** The listing of [git lfs ls-files]: two tracked files, one of which
    has the asset's path as a prefix of its own. *)
Definition lfs_listing : string :=
  "4d7a214614 * Content/Bar.uasset" ++ LF ++
  "9f86d08188 - Content/Foo.uasset.bak" ++ LF.

Definition git_text (log_output : string) (cwd : string)
  (cmd : list string) : option string :=
  if cmd_eqb cmd (git_log_cmd "Content/Foo.uasset") then Some log_output
  else if cmd_eqb cmd ["git"; "lfs"; "ls-files"] then Some lfs_listing
  else None.

Definition git_blob (cwd : string) (cmd : list string)
  : option (list byte) :=
  if cmd_eqb cmd ["git"; "show"; "abc1234:Content/Foo.uasset"]
  then Some [x0a; x0b; x0c] else None.

(** The diff tool answers [tool_ok]. *)
Definition env_inline (tool_ok : bool) : Env :=
  mkEnv "/r" ue_environ (git_text ("abc1234" ++ LF)) git_blob
    (fun _ _ => tool_ok) ["/tmp/tmpk3x9"].

(** The same repository when the asset was never committed: the log is
    a blank line. *)
Definition env_no_history : Env :=
  mkEnv "/r" ue_environ (git_text LF) git_blob (fun _ _ => true)
    ["/tmp/tmpk3x9"].

Definition st_inline : State := mkState fs_inline [].

(** A run started from the [Content] directory of that repository. *)
Definition env_content : Env :=
  mkEnv "/r/Content" ue_environ (git_text ("abc1234" ++ LF)) git_blob
    (fun _ _ => true) ["/tmp/tmpk3x9"].

(** The scenario of the large-file asset: [Content/Bar.uasset], object
    [deadbeef...], local media directory [/lfs-cache]; the object file is
    present when [cached] holds. *)
Definition bar_oid : string :=
  "deadbeef00112233445566778899aabbccddeeff00112233445566778899aabb".

Definition fs_lfs (cached : bool) : FS.t :=
  [Dir "r" [Dir ".git" [File "HEAD" []];
            Dir "Content" [File "Bar.uasset" [x01]];
            File "Game.uproject" []];
   Dir "lfs-cache"
     (if cached then [Dir "de" [Dir "ad" [File bar_oid [x07]]]] else [])].

Definition git_text_lfs (cwd : string) (cmd : list string)
  : option string :=
  if cmd_eqb cmd (git_log_cmd "Content/Bar.uasset")
  then Some ("abc1234" ++ LF)
  else if cmd_eqb cmd ["git"; "lfs"; "ls-files"] then Some lfs_listing
  else if cmd_eqb cmd ["git"; "lfs"; "env"]
  then Some ("git-lfs/3.4.0" ++ LF ++ "LocalMediaDir=/lfs-cache" ++ LF ++
             "TempDir=/r/.git/lfs/tmp" ++ LF)
  else if cmd_eqb cmd ["git"; "cat-file"; "-p"; "abc1234:Content/Bar.uasset"]
  then Some ("version https://git-lfs.github.com/spec/v1" ++ LF ++
             "oid sha256:" ++ bar_oid ++ LF ++ "size 1" ++ LF)
  else None.

Definition env_lfs : Env :=
  mkEnv "/r" ue_environ git_text_lfs (fun _ _ => None) (fun _ _ => true)
    ["/tmp/tmpk3x9"].

Definition st_lfs (cached : bool) : State := mkState (fs_lfs cached) [].

(** A repository with an asset whose file name holds a backslash. *)
Definition fs_backslash : FS.t :=
  [Dir "r" [Dir ".git" [File "HEAD" []];
            Dir "Content" [File "Foo\Bar.uasset" [x01; x02]];
            File "Game.uproject" []];
   Dir "tmp" []].

Definition git_text_backslash (cwd : string) (cmd : list string)
  : option string :=
  if cmd_eqb cmd (git_log_cmd "Content/Foo\Bar.uasset")
  then Some ("abc1234" ++ LF)
  else if cmd_eqb cmd ["git"; "lfs"; "ls-files"] then Some lfs_listing
  else None.

Definition env_backslash : Env :=
  mkEnv "/r" ue_environ git_text_backslash (fun _ _ => Some [x0a])
    (fun _ _ => true) ["/tmp/tmpk3x9"].

Definition st_backslash : State := mkState fs_backslash [].

(** ** The upward search as a walk along the ancestors *)

(** [abs_path [c1; ...; cn]] is [/c1/.../cn]. *)
Fixpoint abs_path (cs : list string) : string :=
  match cs with
  | [] => EmptyString
  | c :: r => OsPath.sep ++ c ++ abs_path r
  end.

(** The directories [head/c1/.../ck] for [k] from [n] down to [0], the
    components being given last first; the empty string is left out. *)
Fixpoint ancestors_from (head : string) (rcs : list string) : list string :=
  match rcs with
  | [] => if Py.truthy head then [head] else []
  | c :: r => (head ++ abs_path (rev (c :: r))) :: ancestors_from head r
  end.

Definition ancestors (head : string) (cs : list string) : list string :=
  ancestors_from head (rev cs).

(** The first directory of a list that lists an entry satisfying the
    predicate; a directory that cannot be listed ends the walk. *)
Fixpoint first_with_match (fs : FS.t) (p : predicate) (dirs : list string)
  : result (option string) :=
  match dirs with
  | [] => Ok None
  | d :: r =>
      match scandir fs d with
      | None => Raise OSError
      | Some it =>
          if existsb p it then Ok (Some d) else first_with_match fs p r
      end
  end.

Definition no_sep (s : string) : Prop :=
  Py.has_char OsPath.sep_char s = false.

(** The predicate [find_git_root] tests entries with. *)
Definition is_dot_git : predicate :=
  fun entry => String.eqb (name entry) ".git".

(** What [find_git_root] makes of the outcome of an upward search. *)
Definition root_of_search (r : result (option string)) : result string :=
  match r with
  | Ok (Some d) => Ok d
  | Ok None => Raise AnchorNotFound
  | Raise e => Raise e
  end.

(** The value [find_git_root] keeps in [git_root] for the value the
    upward search keeps in [entry_path]. *)
Definition root_string (r : result (option string)) : result string :=
  match r with
  | Ok (Some d) => Ok d
  | Ok None => Ok EmptyString
  | Raise e => Raise e
  end.

(** A tree with markers at several levels. *)
Definition fs_nested : FS.t :=
  [Dir "r" [Dir ".git" [File "HEAD" []];
            Dir "a" [Dir "b" [File "Foo.uasset" [x01]]];
            File "Game.uproject" []];
   File "Top.uproject" []].

(** ** What a run adds to the trace *)





(** ** Updates leave the rest of the tree alone *)

(** [f] changes no entry but the one it is called for. *)
Definition keeps_others (f : string -> list node -> option (list node))
  : Prop :=
  forall c cs cs' x,
    f c cs = Some cs' -> x <> c -> find_child x cs' = find_child x cs.

(** The components [q] name nothing at or below the components [t]. *)
Definition outside (t q : list string) : Prop :=
  forall r, q <> (t ++ r)%list.

(** What [path] names in [fs] it still names in [fs']: a regular file
    keeps its content, a directory stays a directory. *)
Definition same_at (fs fs' : FS.t) (path : string) : Prop :=
  (forall d, FS.read fs path = Some d -> FS.read fs' path = Some d) /\
  (isdir fs path = true -> isdir fs' path = true).

(** [m] leaves alone every path outside [t]. *)
Definition keeps_outside {A : Type} (t : list string) (m : M A) : Prop :=
  forall env st path,
    outside t (components path) ->
    same_at (st_fs st) (st_fs (snd (m env st))) path.

(** [m] leaves alone everything that exists when it starts. *)
Definition keeps_existing {A : Type} (m : M A) : Prop :=
  forall env st path, same_at (st_fs st) (st_fs (snd (m env st))) path.

(** ** Surrounding whitespace *)

Fixpoint all_space (s : string) : bool :=
  match s with
  | EmptyString => true
  | String c r => Py.isspace c && all_space r
  end.

(** The first character, if there is one, is not whitespace. *)
Definition starts_clean (s : string) : bool :=
  match s with
  | EmptyString => true
  | String c _ => negb (Py.isspace c)
  end.


(** The outcome of a run that ended: a value or an exception, not the
    mark of a search that ran out of fuel. *)
Definition finished {A : Type} (r : result A) : bool :=
  match r with
  | Raise Diverges => false
  | _ => true
  end.

(** * Properties *)

(** ** Strings and paths *)

Section StringFacts.

Lemma append_empty_r (s : string) : s ++ EmptyString = s.
Proof. induction s as [|c r IH]; simpl; congruence. Qed.

Lemma append_assoc (a b c : string) : (a ++ b) ++ c = a ++ (b ++ c).
Proof. induction a as [|x r IH]; simpl; congruence. Qed.

Lemma str_rev_app (a b : string) :
  Py.str_rev (a ++ b) = Py.str_rev b ++ Py.str_rev a.
Proof.
  induction a as [|x r IH]; simpl.
  - now rewrite append_empty_r.
  - now rewrite IH, append_assoc.
Qed.

Lemma str_rev_involutive (s : string) : Py.str_rev (Py.str_rev s) = s.
Proof.
  induction s as [|c r IH]; simpl; [reflexivity|].
  now rewrite str_rev_app, IH.
Qed.

Lemma endswith_sep (d : string) :
  Py.endswith d OsPath.sep = true -> exists d', d = d' ++ OsPath.sep.
Proof.
  unfold Py.endswith, OsPath.sep. simpl.
  destruct (Py.str_rev d) as [|c r] eqn:E; [discriminate|].
  cbn [prefix].
  destruct (ascii_dec _ c) as [Hc|]; [|discriminate].
  intros _. exists (Py.str_rev r).
  rewrite <- (str_rev_involutive d), E, <- Hc. reflexivity.
Qed.

Lemma truthy_app_l (a b : string) : Py.truthy a = true -> Py.truthy (a ++ b) = true.
Proof. destruct a; simpl; congruence. Qed.

Lemma split_cons_nonempty (c : ascii) (s : string) : Py.split c s <> [].
Proof.
  destruct s as [|d r]; simpl; [discriminate|].
  destruct (Ascii.eqb d c); [discriminate|].
  destruct (Py.split c r); discriminate.
Qed.

Lemma split_app_sep (c : ascii) (a b : string) :
  Py.split c (a ++ String c b) = (Py.split c a ++ Py.split c b)%list.
Proof.
  induction a as [|d r IH]; simpl.
  - now rewrite Ascii.eqb_refl.
  - destruct (Ascii.eqb d c); rewrite IH; [reflexivity|].
    destruct (Py.split c r) eqn:E; [now apply split_cons_nonempty in E|].
    reflexivity.
Qed.

Lemma split_no_sep (c : ascii) (s : string) :
  Py.has_char c s = false -> Py.split c s = [s].
Proof.
  induction s as [|d r IH]; simpl; [reflexivity|].
  destruct (Ascii.eqb d c); simpl; [discriminate|].
  intros H. now rewrite (IH H).
Qed.

Lemma components_app_sep (a b : string) :
  components (a ++ OsPath.sep ++ b) = (components a ++ components b)%list.
Proof.
  unfold components, OsPath.sep. cbn [append].
  unfold OsPath.sep_char. now rewrite split_app_sep, filter_app.
Qed.

Lemma components_empty : components EmptyString = [].
Proof. reflexivity. Qed.

Lemma valid_name_parts (n : string) :
  valid_name n = true ->
  Py.truthy n = true /\ special_name n = false
  /\ Py.has_char OsPath.sep_char n = false.
Proof.
  unfold valid_name. intros H.
  apply andb_prop in H as [H H3]. apply andb_prop in H as [H1 H2].
  apply negb_true_iff in H2, H3. auto.
Qed.

Lemma components_name (n : string) :
  valid_name n = true -> components n = [n].
Proof.
  intros H. apply valid_name_parts in H as (Ht & _ & Hs).
  unfold components. rewrite (split_no_sep _ _ Hs). simpl. now rewrite Ht.
Qed.

Lemma startswith_sep_cons (a : ascii) (r : string) :
  Py.startswith (String a r) OsPath.sep = Ascii.eqb a OsPath.sep_char.
Proof.
  unfold Py.startswith, OsPath.sep, OsPath.sep_char. cbn [prefix].
  destruct (ascii_dec _ a) as [<-|Hne].
  - now destruct r.
  - symmetry. apply Ascii.eqb_neq. congruence.
Qed.

Lemma startswith_sep_false (n : string) :
  Py.has_char OsPath.sep_char n = false -> Py.startswith n OsPath.sep = false.
Proof.
  destruct n as [|a r]; [reflexivity|].
  rewrite startswith_sep_cons. simpl.
  now destruct (Ascii.eqb a OsPath.sep_char).
Qed.

Lemma components_join (d n : string) :
  valid_name n = true ->
  components (OsPath.join d n) = (components d ++ [n])%list.
Proof.
  intros Hn. pose proof (components_name _ Hn) as Hc.
  apply valid_name_parts in Hn as (_ & _ & Hs).
  unfold OsPath.join. rewrite (startswith_sep_false _ Hs).
  destruct (Py.truthy d) eqn:Ht; cbn [negb orb].
  - destruct (Py.endswith d OsPath.sep) eqn:He.
    + apply endswith_sep in He as [d' ->].
      rewrite append_assoc, components_app_sep, Hc.
      rewrite <- (append_empty_r (d' ++ OsPath.sep)), append_assoc.
      rewrite components_app_sep, components_empty, app_nil_r.
      reflexivity.
    + now rewrite components_app_sep, Hc.
  - destruct d; [|discriminate]. simpl. now rewrite Hc.
Qed.

Lemma join_abs_r (a b : string) : OsPath.isabs b = true -> OsPath.join a b = b.
Proof. unfold OsPath.isabs, OsPath.join. now intros ->. Qed.

Lemma isabs_truthy (d : string) : OsPath.isabs d = true -> Py.truthy d = true.
Proof. destruct d; [discriminate | reflexivity]. Qed.

Lemma isabs_app (d s : string) :
  OsPath.isabs d = true -> OsPath.isabs (d ++ s) = true.
Proof.
  unfold OsPath.isabs.
  destruct d as [|a r]; [discriminate|].
  cbn [append]. now rewrite !startswith_sep_cons.
Qed.

Lemma isabs_join (d n : string) :
  OsPath.isabs d = true -> OsPath.isabs (OsPath.join d n) = true.
Proof.
  intros Hd. unfold OsPath.join.
  destruct (Py.startswith n OsPath.sep) eqn:Hn; [exact Hn|].
  destruct (negb (Py.truthy d) || Py.endswith d OsPath.sep);
    now apply isabs_app.
Qed.

Lemma truthy_join (d n : string) :
  Py.truthy d = true -> Py.truthy (OsPath.join d n) = true.
Proof.
  intros Hd. unfold OsPath.join.
  destruct (Py.startswith n OsPath.sep) eqn:Hn.
  - now apply isabs_truthy.
  - destruct (negb (Py.truthy d) || Py.endswith d OsPath.sep);
      now apply truthy_app_l.
Qed.

Lemma rfind_from_no_char (c : ascii) (n : string) :
  Py.has_char c n = false ->
  forall i acc, Py.rfind_from c n i acc = acc.
Proof.
  induction n as [|d r IH]; simpl; [reflexivity|].
  intros H i acc. apply orb_false_elim in H as [Hd Hr].
  now rewrite Hd, IH.
Qed.

Lemma rfind_from_app_no_char (c : ascii) (a n : string) :
  Py.has_char c n = false ->
  forall i acc, Py.rfind_from c (a ++ n) i acc = Py.rfind_from c a i acc.
Proof.
  intros Hn. induction a as [|d r IH]; intros i acc; simpl.
  - now apply rfind_from_no_char.
  - apply IH.
Qed.

Lemma rfind_from_snoc (c : ascii) (a : string) :
  forall i acc,
    Py.rfind_from c (a ++ String c EmptyString) i acc
    = (i + Z.of_nat (String.length a))%Z.
Proof.
  induction a as [|d r IH]; intros i acc.
  - simpl. rewrite Ascii.eqb_refl. lia.
  - cbn [append Py.rfind_from String.length]. rewrite IH. lia.
Qed.

Lemma str_drop_app (a n : string) : Py.str_drop (String.length a) (a ++ n) = n.
Proof. induction a as [|d r IH]; simpl; [now destruct n | exact IH]. Qed.

Lemma length_app (a b : string) :
  String.length (a ++ b) = String.length a + String.length b.
Proof. induction a as [|d r IH]; simpl; congruence. Qed.

Lemma basename_after_sep (a n : string) :
  Py.has_char OsPath.sep_char n = false ->
  OsPath.basename ((a ++ OsPath.sep) ++ n) = n.
Proof.
  intros Hn. unfold OsPath.basename, Py.rfind.
  rewrite (@rfind_from_app_no_char _ _ _ Hn).
  unfold OsPath.sep. fold OsPath.sep_char. rewrite rfind_from_snoc.
  replace (Z.to_nat (0 + Z.of_nat (String.length a) + 1))
    with (String.length (a ++ String OsPath.sep_char EmptyString))
    by (rewrite length_app; simpl; lia).
  apply str_drop_app.
Qed.

Lemma basename_join (d n : string) :
  valid_name n = true -> OsPath.basename (OsPath.join d n) = n.
Proof.
  intros Hn. apply valid_name_parts in Hn as (_ & _ & Hs).
  unfold OsPath.join. rewrite (startswith_sep_false _ Hs).
  destruct (Py.truthy d) eqn:Ht; cbn [negb orb].
  - destruct (Py.endswith d OsPath.sep) eqn:He.
    + apply endswith_sep in He as [d' ->]. now apply basename_after_sep.
    + rewrite <- append_assoc. now apply basename_after_sep.
  - destruct d; [|discriminate]. cbn [append].
    unfold OsPath.basename, Py.rfind.
    rewrite (@rfind_from_no_char _ _ Hs). reflexivity.
Qed.

Lemma has_char_app (c : ascii) (a b : string) :
  Py.has_char c (a ++ b) = Py.has_char c a || Py.has_char c b.
Proof.
  induction a as [|d r IH]; simpl; [reflexivity|].
  now rewrite IH, orb_assoc.
Qed.

Lemma has_char_take (c : ascii) (n : nat) (s : string) :
  Py.has_char c s = false -> Py.has_char c (Py.str_take n s) = false.
Proof.
  revert s. induction n as [|n IH]; intros [|d r]; simpl; auto.
  intros H. apply orb_false_elim in H as [-> H]. now apply IH.
Qed.

Lemma has_char_drop (c : ascii) (n : nat) (s : string) :
  Py.has_char c s = false -> Py.has_char c (Py.str_drop n s) = false.
Proof.
  revert s. induction n as [|n IH]; intros [|d r]; simpl; auto.
  intros H. apply orb_false_elim in H as [_ H]. now apply IH.
Qed.

Lemma suffix_has_last (c : ascii) (x a s : string) :
  x ++ a = s ++ String c EmptyString -> Py.truthy a = true -> Py.has_char c a = true.
Proof.
  revert s. induction x as [|d r IH]; intros s H Ha.
  - cbn [append] in H. subst a. rewrite has_char_app. simpl.
    rewrite Ascii.eqb_refl. apply orb_true_r.
  - destruct s as [|d' s'].
    + cbn [append] in H. inversion H as [[Hd Hr]].
      destruct r; [|discriminate]. cbn [append] in Hr. subst a. discriminate.
    + cbn [append] in H. inversion H. eapply IH; eassumption.
Qed.

Lemma endswith_app_no_sep (x a : string) :
  Py.truthy a = true -> Py.has_char OsPath.sep_char a = false ->
  Py.endswith (x ++ a) OsPath.sep = false.
Proof.
  intros Ha Hs. destruct (Py.endswith (x ++ a) OsPath.sep) eqn:E;
    [|reflexivity].
  apply endswith_sep in E as [s E].
  apply suffix_has_last in E; [|assumption].
  unfold OsPath.sep_char in Hs. congruence.
Qed.

Lemma join_plain (d b : string) :
  Py.truthy d = true -> Py.endswith d OsPath.sep = false ->
  Py.has_char OsPath.sep_char b = false ->
  OsPath.join d b = d ++ OsPath.sep ++ b.
Proof.
  intros Hd He Hb. unfold OsPath.join.
  now rewrite (startswith_sep_false _ Hb), Hd, He.
Qed.

(** The two-level layout of the object store, for a media directory
    without a trailing slash and an object id without slashes. *)
Lemma fan_out_layout (media oid : string) :
  Py.truthy media = true -> Py.endswith media OsPath.sep = false ->
  Py.has_char OsPath.sep_char oid = false -> 4 <= String.length oid ->
  OsPath.join_all media [Py.slice 0 2 oid; Py.slice 2 4 oid; oid]
  = media ++ "/" ++ Py.slice 0 2 oid ++ "/" ++ Py.slice 2 4 oid
    ++ "/" ++ oid.
Proof.
  intros Hm He Hs Hl.
  assert (Py.truthy (Py.slice 0 2 oid) = true /\
          Py.truthy (Py.slice 2 4 oid) = true) as [Ha Hb].
  { destruct oid as [|c1 [|c2 [|c3 [|c4 r]]]]; simpl in Hl; try lia.
    now split. }
  assert (Py.has_char OsPath.sep_char (Py.slice 0 2 oid) = false) as Hsa
      by (unfold Py.slice; now apply has_char_take, has_char_drop).
  assert (Py.has_char OsPath.sep_char (Py.slice 2 4 oid) = false) as Hsb
      by (unfold Py.slice; now apply has_char_take, has_char_drop).
  unfold OsPath.join_all. cbn [fold_left].
  rewrite (join_plain media _ Hm He Hsa).
  rewrite (join_plain (media ++ OsPath.sep ++ Py.slice 0 2 oid)
             (Py.slice 2 4 oid));
    [|now apply truthy_app_l
     |rewrite <- append_assoc; now apply endswith_app_no_sep
     |assumption].
  rewrite join_plain;
    [|now apply truthy_app_l, truthy_app_l
     |rewrite <- append_assoc; now apply endswith_app_no_sep
     |assumption].
  unfold OsPath.sep. now rewrite !append_assoc.
Qed.

(** [rfind_from] either finds no [c], or points at the last one. *)
Lemma rfind_from_spec (c : ascii) (s : string) :
  forall i acc,
    (Py.has_char c s = false /\ Py.rfind_from c s i acc = acc)
    \/ (exists a b,
          s = a ++ String c b /\ Py.has_char c b = false /\
          Py.rfind_from c s i acc = (i + Z.of_nat (String.length a))%Z).
Proof.
  induction s as [|d r IH]; intros i acc; [now left|].
  cbn [Py.rfind_from Py.has_char].
  destruct (IH (i + 1)%Z (if Ascii.eqb d c then i else acc))
    as [[Hn Hr]|(a & b & Hs & Hb & Hr)].
  - destruct (Ascii.eqb d c) eqn:Ed.
    + right. exists EmptyString, r. apply Ascii.eqb_eq in Ed. subst d.
      repeat split; [assumption|]. rewrite Hr. simpl. lia.
    + left. now rewrite Hn.
  - right. exists (String d a), b. subst r. repeat split; [assumption|].
    rewrite Hr. cbn [String.length]. lia.
Qed.

Lemma str_drop_app_ge (n : nat) (a s : string) :
  String.length a <= n ->
  Py.str_drop n (a ++ s) = Py.str_drop (n - String.length a) s.
Proof.
  revert n. induction a as [|d r IH]; intros n Hn; cbn [append String.length].
  - now rewrite Nat.sub_0_r.
  - destruct n as [|n]; [simpl in Hn; lia|]. cbn [Py.str_drop].
    simpl in Hn. rewrite IH by lia. reflexivity.
Qed.

(** Nothing after the last slash holds a slash. *)
Lemma drop_after_last_sep (p : string) (n : nat) :
  (Py.rfind OsPath.sep_char p < Z.of_nat n)%Z ->
  Py.has_char OsPath.sep_char (Py.str_drop n p) = false.
Proof.
  unfold Py.rfind. intros Hn.
  destruct (rfind_from_spec OsPath.sep_char p 0 (-1))
    as [[Hnone _]|(a & b & -> & Hb & Hr)].
  - now apply has_char_drop.
  - rewrite Hr in Hn.
    rewrite str_drop_app_ge by lia.
    destruct (n - String.length a) as [|k] eqn:Ek; [lia|].
    cbn [Py.str_drop]. now apply has_char_drop.
Qed.

Lemma basename_no_sep (p : string) :
  Py.has_char OsPath.sep_char (OsPath.basename p) = false.
Proof.
  unfold OsPath.basename. apply drop_after_last_sep.
  assert (-1 <= Py.rfind OsPath.sep_char p)%Z; [|lia].
  unfold Py.rfind.
  destruct (rfind_from_spec OsPath.sep_char p 0 (-1))
    as [[_ ->]|(a & b & _ & _ & ->)]; lia.
Qed.

Lemma splitext_ext_no_sep (p : string) :
  Py.has_char OsPath.sep_char (snd (OsPath.splitext p)) = false.
Proof.
  unfold OsPath.splitext.
  destruct ((Py.rfind OsPath.sep_char p <? Py.rfind "." p)%Z
            && OsPath.has_non_dot p _ _) eqn:E; [|reflexivity].
  apply andb_prop in E as [E _]. apply Z.ltb_lt in E.
  cbn [snd]. apply drop_after_last_sep.
  assert (-1 <= Py.rfind OsPath.sep_char p)%Z.
  { unfold Py.rfind.
    destruct (rfind_from_spec OsPath.sep_char p 0 (-1))
      as [[_ ->]|(a & b & _ & _ & ->)]; lia. }
  lia.
Qed.

(** The name of the temporary file is a valid entry name as soon as the
    revision holds no slash. *)
Lemma temp_name_valid (asset_path revision : string) :
  Py.has_char OsPath.sep_char revision = false ->
  valid_name
    (OsPath.basename (fst (OsPath.splitext asset_path)) ++ "_" ++ revision
     ++ snd (OsPath.splitext asset_path)) = true.
Proof.
  intros Hrev.
  set (base := OsPath.basename (fst (OsPath.splitext asset_path))).
  set (ext := snd (OsPath.splitext asset_path)).
  assert (Py.has_char "_" (base ++ "_" ++ revision ++ ext) = true) as Hu.
  { rewrite has_char_app. cbn [append Py.has_char].
    rewrite Ascii.eqb_refl. apply orb_true_r. }
  unfold valid_name. rewrite !andb_true_iff. repeat split.
  - destruct (base ++ "_" ++ revision ++ ext); [discriminate | reflexivity].
  - apply negb_true_iff. unfold special_name. apply orb_false_intro;
      apply String.eqb_neq; intros He; rewrite He in Hu; discriminate.
  - apply negb_true_iff. rewrite !has_char_app.
    unfold base, ext. rewrite basename_no_sep, Hrev, splitext_ext_no_sep.
    reflexivity.
Qed.

End StringFacts.

(** ** The tree *)

Section TreeFacts.

Lemma str_in_true (x : string) (l : list string) :
  Py.str_in x l = true <-> In x l.
Proof.
  unfold Py.str_in. rewrite existsb_exists. split.
  - intros (y & Hy & He). apply String.eqb_eq in He. now subst.
  - intros H. exists x. split; [assumption | apply String.eqb_refl].
Qed.

Lemma find_child_some (n : string) (cs : list node) (e : node) :
  find_child n cs = Some e -> In e cs /\ node_name e = n.
Proof.
  unfold find_child. intros H. apply find_some in H as [Hin He].
  apply String.eqb_eq in He. auto.
Qed.

Lemma find_child_nodup (cs : list node) (e : node) :
  nodup_names (map node_name cs) = true -> In e cs ->
  find_child (node_name e) cs = Some e.
Proof.
  induction cs as [|a r IH]; simpl; [contradiction|].
  intros Hnd Hin. apply andb_prop in Hnd as [Hfresh Hnd].
  destruct Hin as [->|Hin].
  - now rewrite String.eqb_refl.
  - destruct (String.eqb (node_name a) (node_name e)) eqn:E.
    + apply String.eqb_eq in E. apply negb_true_iff in Hfresh.
      assert (Py.str_in (node_name a) (map node_name r) = true) as Hc.
      { apply str_in_true. rewrite E. now apply in_map. }
      congruence.
    + now apply IH.
Qed.

Lemma walk_app (e : node) (a b : list string) :
  walk e (a ++ b) =
  match walk e a with Some e' => walk e' b | None => None end.
Proof.
  revert e. induction a as [|c r IH]; intros e; simpl; [reflexivity|].
  destruct e as [|n cs]; [reflexivity|].
  destruct (find_child c cs); [apply IH | reflexivity].
Qed.

Lemma wf_children_in (cs : list node) (c : node) :
  wf_children cs = true -> In c cs -> wf_node c = true.
Proof.
  unfold wf_children. intros H Hin. apply andb_prop in H as [_ H].
  rewrite forallb_forall in H. now apply H.
Qed.

Lemma wf_children_nodup (cs : list node) :
  wf_children cs = true -> nodup_names (map node_name cs) = true.
Proof. unfold wf_children. intros H. now apply andb_prop in H as [H _]. Qed.

Lemma wf_node_dir (n : string) (cs : list node) :
  wf_node (Dir n cs) = true -> wf_children cs = true.
Proof. simpl. intros H. now apply andb_prop in H as [_ H]. Qed.

Lemma wf_node_valid (e : node) :
  wf_node e = true -> valid_name (node_name e) = true.
Proof. destruct e; simpl; intros H; now apply andb_prop in H as [H _]. Qed.

Lemma wf_walk (comps : list string) :
  forall (n0 : string) (cs0 : list node) (n : string) (cs : list node),
    wf_children cs0 = true ->
    walk (Dir n0 cs0) comps = Some (Dir n cs) ->
    wf_children cs = true.
Proof.
  induction comps as [|c r IH]; simpl; intros n0 cs0 n cs Hwf Hw.
  - now inversion Hw; subst.
  - destruct (find_child c cs0) as [e'|] eqn:E; [|discriminate].
    apply find_child_some in E as [Hin _].
    pose proof (wf_children_in _ _ Hwf Hin) as Hwe.
    destruct e' as [f d|n' cs'].
    + destruct r; simpl in Hw; discriminate.
    + apply (IH n' cs' n cs); [now apply wf_node_dir in Hwe | assumption].
Qed.

Lemma resolve_truthy (fs : FS.t) (d : string) (e : node) :
  resolve fs d = Some e -> Py.truthy d = true.
Proof. unfold resolve. now destruct (Py.truthy d). Qed.

Lemma resolve_wf (fs : FS.t) (d n : string) (cs : list node) :
  wf fs = true -> resolve fs d = Some (Dir n cs) -> wf_children cs = true.
Proof.
  unfold resolve, wf. intros Hwf H.
  destruct (Py.truthy d); [|discriminate].
  eapply wf_walk; eassumption.
Qed.

Lemma resolve_child (fs : FS.t) (d n : string) (cs : list node) (c : node) :
  resolve fs d = Some (Dir n cs) -> wf_children cs = true -> In c cs ->
  resolve fs (OsPath.join d (node_name c)) = Some c.
Proof.
  intros Hr Hwf Hin.
  pose proof (resolve_truthy _ _ Hr) as Ht.
  unfold resolve in *. rewrite Ht in Hr. rewrite (truthy_join _ _ Ht).
  rewrite components_join
    by (apply wf_node_valid; eapply wf_children_in; eassumption).
  rewrite walk_app, Hr. simpl.
  rewrite find_child_nodup; [reflexivity | | assumption].
  now apply wf_children_nodup.
Qed.

Lemma scandir_resolve (fs : FS.t) (d n : string) (cs : list node) :
  resolve fs d = Some (Dir n cs) ->
  scandir fs d = Some (map (dir_entry d) cs).
Proof. unfold scandir. now intros ->. Qed.

End TreeFacts.

(** ** The downward search *)

Section SearchDown.

Variable fs : FS.t.
Variable p : predicate.

Lemma pop_app (A : Type) (l : list A) (x : A) : pop (l ++ [x]) = Some (l, x).
Proof. unfold pop. rewrite rev_app_distr. simpl. now rewrite rev_involutive. Qed.

Lemma pop_some (A : Type) (l rest : list A) (x : A) :
  pop l = Some (rest, x) -> l = (rest ++ [x])%list.
Proof.
  unfold pop. destruct (rev l) as [|y r] eqn:E; [discriminate|].
  intros H. inversion H; subst.
  rewrite <- (rev_involutive l), E. reflexivity.
Qed.

Lemma scandir_some (d : string) (it : list DirEntry) :
  scandir fs d = Some it ->
  exists n cs, resolve fs d = Some (Dir n cs) /\ it = map (dir_entry d) cs.
Proof.
  unfold scandir. destruct (resolve fs d) as [[f x|n cs]|]; try discriminate.
  intros H. inversion H. eauto.
Qed.

Lemma kept_entry (d : string) (cs : list node) (q : DirEntry -> bool)
  (m : DirEntry) :
  In m (filter q (filter not_dot_git (map (dir_entry d) cs))) ->
  exists c, In c cs /\ m = dir_entry d c /\ name m <> ".git" /\ q m = true.
Proof.
  intros H. apply filter_In in H as [H Hq].
  apply filter_In in H as [H Hg]. apply in_map_iff in H as (c & <- & Hc).
  exists c. repeat split; try assumption.
  unfold not_dot_git in Hg. apply negb_true_iff in Hg.
  now apply String.eqb_neq in Hg.
Qed.

Lemma loop_found (fuel : nat) (dirs : list string) (x : string)
  (scanned : list string) :
  Py.truthy x = true ->
  find_entry_in_dir_loop fuel fs p dirs (Some x) scanned
  = Some (Ok (Some x), scanned).
Proof.
  intros Hx. destruct fuel; simpl; now rewrite Hx, orb_true_r.
Qed.

(** What the loop returns is an entry that a scanned directory lists,
    that is not named [.git] and that satisfies the predicate. *)
Lemma loop_returns_listed_entry :
  forall (fuel : nat) (dirs : list string) (ep : option string)
         (scanned : list string) (found : string) (log : list string),
    find_entry_in_dir_loop fuel fs p dirs ep scanned
      = Some (Ok (Some found), log) ->
    ep = Some found \/
    exists dir it entry,
      scandir fs dir = Some it /\ In entry it /\ name entry <> ".git" /\
      p entry = true /\ found = OsPath.join dir (name entry).
Proof.
  induction fuel as [|fuel IH]; intros dirs ep scanned found log; simpl.
  - destruct (OsPath.is_nil dirs || Py.truthy_opt ep); [|discriminate].
    intros H. inversion H. now left.
  - destruct (OsPath.is_nil dirs || Py.truthy_opt ep).
    { intros H. inversion H. now left. }
    destruct (pop dirs) as [[rest dir]|].
    2:{ intros H. inversion H. now left. }
    destruct (scandir fs dir) as [it|] eqn:Es; [|discriminate].
    intros H. apply IH in H as [H|H]; [|now right].
    destruct (filter p (filter not_dot_git it)) as [|m ms] eqn:Em;
      [now left|].
    right. inversion H; subst found.
    destruct (scandir_some _ Es) as (n & cs & _ & ->).
    assert (In m (filter p (filter not_dot_git (map (dir_entry dir) cs))))
      as Hin by (rewrite Em; now left).
    apply kept_entry in Hin as (c & Hc & -> & Hg & Hp).
    exists dir, (map (dir_entry dir) cs), (dir_entry dir c).
    repeat split; try assumption. now apply in_map.
Qed.

(** Two predicates that agree away from the entries named [.git] drive
    the loop the same way. *)
Lemma loop_predicate_ext (q : predicate) :
  (forall e, name e <> ".git" -> p e = q e) ->
  forall (fuel : nat) (dirs : list string) (ep : option string)
         (scanned : list string),
    find_entry_in_dir_loop fuel fs p dirs ep scanned
    = find_entry_in_dir_loop fuel fs q dirs ep scanned.
Proof.
  intros Hpq. induction fuel as [|fuel IH]; intros dirs ep scanned; simpl;
    [reflexivity|].
  destruct (OsPath.is_nil dirs || Py.truthy_opt ep); [reflexivity|].
  destruct (pop dirs) as [[rest dir]|]; [|reflexivity].
  destruct (scandir fs dir) as [it|]; [|reflexivity].
  assert (filter p (filter not_dot_git it) = filter q (filter not_dot_git it))
    as ->.
  { apply filter_ext_in. intros e He. apply filter_In in He as [_ He].
    apply Hpq. unfold not_dot_git in He. apply negb_true_iff in He.
    now apply String.eqb_neq in He. }
  apply IH.
Qed.

End SearchDown.

Section SearchDownWellFormed.

Variable fs : FS.t.
Variable p : predicate.
Hypothesis fs_wf : wf fs = true.

Lemma below_refl (start : string) : below_avoiding_dot_git start start.
Proof. exists []. rewrite app_nil_r. auto. Qed.

Lemma below_child (start d n nm : string) (cs : list node) (c : node) :
  resolve fs d = Some (Dir n cs) -> In c cs -> node_name c = nm ->
  nm <> ".git" ->
  below_avoiding_dot_git start d ->
  below_avoiding_dot_git start (OsPath.join d nm).
Proof.
  intros Hr Hc <- Hg (names & Hd & Hn).
  exists (names ++ [node_name c])%list. split.
  - rewrite components_join, Hd, app_assoc; [reflexivity|].
    apply wf_node_valid. eapply wf_children_in; [|eassumption].
    eapply resolve_wf; eassumption.
  - intros Hin. apply in_app_or in Hin as [Hin|[Hin|[]]]; auto.
Qed.

(** Every path the loop scans or returns lies below [start] along
    components other than [.git]. *)
Lemma loop_avoids_dot_git (start : string) :
  forall (fuel : nat) (dirs : list string) (ep : option string)
         (scanned : list string) (res : result (option string))
         (log : list string),
    Forall (fun d => OsPath.isabs d = true /\ below_avoiding_dot_git start d)
      dirs ->
    (forall x, ep = Some x -> below_avoiding_dot_git start x) ->
    Forall (below_avoiding_dot_git start) scanned ->
    find_entry_in_dir_loop fuel fs p dirs ep scanned = Some (res, log) ->
    Forall (below_avoiding_dot_git start) log /\
    (forall x, res = Ok (Some x) -> below_avoiding_dot_git start x).
Proof.
  induction fuel as [|fuel IH]; intros dirs ep scanned res log Hd He Hs;
    simpl.
  - destruct (OsPath.is_nil dirs || Py.truthy_opt ep); [|discriminate].
    intros H. inversion H; subst. split; [assumption|].
    intros x Hx. inversion Hx. now apply He.
  - destruct (OsPath.is_nil dirs || Py.truthy_opt ep).
    { intros H. inversion H; subst. split; [assumption|].
      intros x Hx. inversion Hx. now apply He. }
    destruct (pop dirs) as [[rest dir]|] eqn:Ep.
    2:{ intros H. inversion H; subst. split; [assumption|].
        intros x Hx. inversion Hx. now apply He. }
    apply pop_some in Ep. subst dirs.
    apply Forall_app in Hd as [Hrest Hdir].
    inversion Hdir as [|? ? [Habs Hbelow] _]; subst.
    assert (Forall (below_avoiding_dot_git start) (scanned ++ [dir])%list)
      as Hs' by (apply Forall_app; split; [assumption | now constructor]).
    destruct (scandir fs dir) as [it|] eqn:Es.
    2:{ intros H. inversion H; subst. split; [assumption | discriminate]. }
    destruct (scandir_some _ _ Es) as (n & cs & Hr & ->).
    apply IH; try assumption.
    + apply Forall_app. split; [assumption|].
      apply Forall_forall. intros d Hin.
      apply in_map_iff in Hin as (sub & <- & Hsub).
      apply kept_entry in Hsub as (c & Hc & -> & Hg & _).
      simpl in *. rewrite join_abs_r by now apply isabs_join.
      split; [now apply isabs_join|].
      eapply below_child; eauto.
    + intros x. destruct (filter p _) as [|m ms] eqn:Em; [apply He|].
      intros Hx. inversion Hx; subst x.
      assert (In m (filter p (filter not_dot_git (map (dir_entry dir) cs))))
        as Hin by (rewrite Em; now left).
      apply kept_entry in Hin as (c & Hc & -> & Hg & _).
      simpl in *. eapply below_child; eauto.
Qed.

(** *** The worklist against the recursive search *)

Lemma search_stack_app (s1 s2 : stack) :
  search_stack p (s1 ++ s2)%list =
  match search_stack p s2 with
  | Some found => Some found
  | None => search_stack p s1
  end.
Proof.
  induction s1 as [|[d e] r IH]; simpl.
  - now destruct (search_stack p s2).
  - rewrite IH. now destruct (search_stack p s2).
Qed.

Lemma search_depth_first_children (dir n : string) (cs : list node) :
  direct_matches p dir cs = [] ->
  search_depth_first p dir (Dir n cs) = search_stack p (children_stack dir cs).
Proof.
  intros Hm. cbn [search_depth_first]. rewrite Hm.
  unfold children_stack. clear Hm.
  induction cs as [|c r IH]; [reflexivity|].
  cbn [filter]. rewrite IH. destruct (entered c); cbn [map search_stack].
  - reflexivity.
  - now destruct (search_stack p _).
Qed.

Lemma stack_size_app (s1 s2 : stack) :
  stack_size (s1 ++ s2)%list = stack_size s1 + stack_size s2.
Proof. unfold stack_size. now rewrite map_app, list_sum_app. Qed.

Lemma children_stack_size (dir : string) (cs : list node) :
  stack_size (children_stack dir cs) <= list_sum (map size cs).
Proof.
  unfold stack_size, children_stack.
  induction cs as [|c r IH]; simpl; [lia|].
  destruct (entered c); simpl; lia.
Qed.

Lemma children_stack_paths (dir : string) (cs : list node) :
  OsPath.isabs dir = true ->
  map (fun subdir => OsPath.join dir (path subdir))
    (filter entry_is_dir (filter not_dot_git (map (dir_entry dir) cs)))
  = map fst (children_stack dir cs).
Proof.
  intros Habs. unfold children_stack.
  induction cs as [|c r IH]; [reflexivity|].
  cbn [map filter]. unfold entered at 1, not_dot_git at 1. cbn [name dir_entry].
  destruct (String.eqb (node_name c) ".git"); cbn [negb].
  - rewrite andb_false_r. apply IH.
  - rewrite andb_true_r. cbn [filter entry_is_dir dir_entry].
    destruct (is_dir c); [|apply IH].
    cbn [map fst path]. rewrite IH.
    now rewrite join_abs_r by now apply isabs_join.
Qed.

Lemma children_stack_ok (dir n : string) (cs : list node) :
  OsPath.isabs dir = true -> resolve fs dir = Some (Dir n cs) ->
  wf_children cs = true ->
  Forall (stack_item_ok fs) (children_stack dir cs).
Proof.
  intros Habs Hr Hwf. apply Forall_forall. intros [d e] Hin.
  unfold children_stack in Hin. apply in_map_iff in Hin as (c & Hc & Hin).
  inversion Hc; subst d e. apply filter_In in Hin as [Hin Hent].
  repeat split; cbn [fst snd].
  - now apply isabs_join.
  - eapply resolve_child; eassumption.
  - pose proof (wf_children_in _ _ Hwf Hin) as Hwc.
    unfold entered in Hent. apply andb_prop in Hent as [Hdir _].
    destruct c as [|n' cs']; [discriminate|].
    exists n', cs'. split; [reflexivity | now apply wf_node_dir in Hwc].
Qed.

(** With one unit of fuel per node of the pending directories the loop
    ends, and it returns what the recursive search returns. *)
Lemma loop_depth_first :
  forall (fuel : nat) (s : stack) (scanned : list string),
    Forall (stack_item_ok fs) s -> stack_size s < fuel ->
    exists log,
      find_entry_in_dir_loop fuel fs p (map fst s) None scanned
      = Some (Ok (search_stack p s), log).
Proof.
  induction fuel as [|fuel IH]; intros s scanned Hok Hsize; [lia|].
  destruct s as [|x s'] using rev_ind; [simpl; eauto|]. clear IHs'.
  destruct x as [d e].
  apply Forall_app in Hok as [Hrest Hlast].
  inversion Hlast as [|? ? (Habs & Hr & n & cs & He & Hwf) _]; subst.
  cbn [fst snd] in *. subst e.
  rewrite stack_size_app in Hsize. unfold stack_size at 2 in Hsize.
  simpl in Hsize.
  rewrite map_app. cbn [map fst find_entry_in_dir_loop].
  replace (OsPath.is_nil (map fst s' ++ [d])%list || Py.truthy_opt None)
    with false by now destruct (map fst s').
  rewrite pop_app, (scandir_resolve _ _ Hr).
  rewrite search_stack_app. cbn [search_stack].
  fold (direct_matches p d cs).
  destruct (direct_matches p d cs) as [|m ms] eqn:Em.
  - rewrite children_stack_paths by assumption.
    rewrite <- map_app.
    destruct (IH (s' ++ children_stack d cs)%list (scanned ++ [d])%list)
      as [log Hlog].
    + apply Forall_app. split; [assumption|].
      eapply children_stack_ok; eassumption.
    + rewrite stack_size_app.
      pose proof (children_stack_size d cs). lia.
    + exists log. rewrite Hlog, search_stack_app.
      now rewrite (search_depth_first_children _ _ _ Em).
  - cbn [search_depth_first]. rewrite Em.
    eexists. apply loop_found, truthy_join. now apply isabs_truthy.
Qed.

End SearchDownWellFormed.

(** ** Induction over the tree *)

Section NodeInduction.

Variable P : node -> Prop.
Hypothesis P_file : forall n d, P (File n d).
Hypothesis P_dir : forall n cs, Forall P cs -> P (Dir n cs).

Fixpoint node_induction (e : node) : P e :=
  match e with
  | File n d => P_file n d
  | Dir n cs =>
      P_dir n
        ((fix all (l : list node) : Forall P l :=
            match l with
            | [] => Forall_nil P
            | c :: r => Forall_cons c (node_induction c) (all r)
            end) cs)
  end.

End NodeInduction.

Section Reference.

Variable p : predicate.

Lemma search_stack_children_found (dir : string) (cs : list node)
  (found : string) :
  search_stack p (children_stack dir cs) = Some found ->
  exists c, In c cs /\ entered c = true /\
            search_depth_first p (OsPath.join dir (node_name c)) c
            = Some found.
Proof.
  unfold children_stack. induction cs as [|c r IH]; [discriminate|].
  cbn [filter]. destruct (entered c) eqn:Ec; cbn [map search_stack].
  - destruct (search_stack p _) as [f|] eqn:Es.
    + intros H. inversion H; subst f.
      destruct (IH eq_refl) as (c' & Hin & He & Hs).
      exists c'. auto using in_cons.
    + intros H. exists c. auto using in_eq.
  - intros H. destruct (IH H) as (c' & Hin & He & Hs).
    exists c'. auto using in_cons.
Qed.

Lemma search_depth_first_found (e : node) :
  forall dir found,
    search_depth_first p dir e = Some found -> found_under p dir e found.
Proof.
  induction e as [n d|n cs IH] using node_induction; intros dir found H.
  - discriminate.
  - destruct (direct_matches p dir cs) as [|m ms] eqn:Em.
    + rewrite (search_depth_first_children p _ n _ Em) in H.
      apply search_stack_children_found in H as (c & Hin & He & Hs).
      rewrite Forall_forall in IH.
      eapply found_deeper; eauto.
    + cbn [search_depth_first] in H. rewrite Em in H.
      inversion H. eapply found_here; eassumption.
Qed.

Lemma walk_size (comps : list string) :
  forall e e', walk e comps = Some e' -> size e' <= size e.
Proof.
  induction comps as [|c r IH]; intros e e' H; simpl in H.
  - inversion H. lia.
  - destruct e as [|n cs]; [discriminate|].
    destruct (find_child c cs) as [e1|] eqn:E; [|discriminate].
    apply find_child_some in E as [Hin _]. apply IH in H.
    assert (size e1 <= list_sum (map size cs)).
    { clear - Hin. induction cs as [|a l IHl]; [contradiction|].
      simpl. destruct Hin as [->|Hin]; [lia|]. specialize (IHl Hin). lia. }
    simpl. lia.
Qed.

End Reference.

(** ** Outcomes of the two searches *)

Section SearchOutcomes.

Variable fs : FS.t.
Variable p : predicate.

Lemma loop_raises_oserror :
  forall (fuel : nat) (dirs : list string) (ep : option string)
         (scanned log : list string) (e : error),
    find_entry_in_dir_loop fuel fs p dirs ep scanned = Some (Raise e, log) ->
    e = OSError.
Proof.
  induction fuel as [|fuel IH]; intros dirs ep scanned log e; simpl.
  - destruct (OsPath.is_nil dirs || Py.truthy_opt ep); discriminate.
  - destruct (OsPath.is_nil dirs || Py.truthy_opt ep); [discriminate|].
    destruct (pop dirs) as [[rest dir]|]; [|discriminate].
    destruct (scandir fs dir) as [it|].
    + apply IH.
    + intros H. now inversion H.
Qed.

Lemma find_entry_in_dir_raises (start : string) (e : error) :
  find_entry_in_dir fs start p = Raise e -> e = OSError \/ e = Diverges.
Proof.
  unfold find_entry_in_dir, find_entry_in_dir_scan.
  destruct (find_entry_in_dir_loop _ fs p [start] None []) as [[r log]|] eqn:E;
    cbn [fst].
  - intros ->. left. eapply loop_raises_oserror; eassumption.
  - intros H. inversion H. now right.
Qed.

Lemma find_entry_in_dir_truthy (start found : string) :
  find_entry_in_dir fs start p = Ok (Some found) -> Py.truthy found = true.
Proof.
  unfold find_entry_in_dir, find_entry_in_dir_scan.
  destruct (find_entry_in_dir_loop _ fs p [start] None []) as [[r log]|] eqn:E;
    cbn [fst]; [|discriminate].
  intros ->. apply loop_returns_listed_entry in E as [E|E]; [discriminate|].
  destruct E as (dir & it & entry & Hs & _ & _ & _ & ->).
  destruct (scandir_some _ _ Hs) as (n & cs & Hr & _).
  apply truthy_join. eapply resolve_truthy; eassumption.
Qed.

Lemma up_loop_outcome :
  forall (fuel : nat) (path : string) (ep : option string) (idx : Z)
         (r : result (option string)),
    find_entry_in_dir_up_loop fuel fs p path ep idx = Some r ->
    match r with
    | Ok (Some d) => ep = Some d \/ Py.truthy d = true
    | Ok None => ep = None
    | Raise e => e = OSError
    end.
Proof.
  induction fuel as [|fuel IH]; intros path ep idx r; simpl.
  - destruct (Py.truthy path && negb (Py.truthy_opt ep) && (0 <? idx)%Z);
      [discriminate|].
    intros H. inversion H. destruct ep; auto.
  - destruct (Py.truthy path && negb (Py.truthy_opt ep) && (0 <? idx)%Z)
      eqn:Eg.
    2:{ intros H. inversion H. destruct ep; auto. }
    apply andb_prop in Eg as [Eg _]. apply andb_prop in Eg as [Hpath Hep].
    destruct (scandir fs path) as [it|].
    2:{ intros H. now inversion H. }
    intros H. apply IH in H.
    destruct r as [[d|]|e]; try assumption.
    + destruct H as [H|H]; [|now right].
      destruct (existsb p it).
      * inversion H; subst. now right.
      * now left.
    + destruct (existsb p it); [discriminate | assumption].
Qed.

Lemma find_entry_in_dir_up_truthy (start d : string) :
  find_entry_in_dir_up fs start p = Ok (Some d) -> Py.truthy d = true.
Proof.
  unfold find_entry_in_dir_up.
  destruct (find_entry_in_dir_up_loop _ fs p start None 1) as [r|] eqn:E;
    [|discriminate].
  intros ->. apply up_loop_outcome in E as [E|E]; [discriminate | assumption].
Qed.

Lemma find_entry_in_dir_up_raises (start : string) (e : error) :
  find_entry_in_dir_up fs start p = Raise e -> e = OSError \/ e = Diverges.
Proof.
  unfold find_entry_in_dir_up.
  destruct (find_entry_in_dir_up_loop _ fs p start None 1) as [r|] eqn:E.
  - intros ->. apply up_loop_outcome in E. now left.
  - intros H. inversion H. now right.
Qed.

End SearchOutcomes.

(** ** Computations *)

Section Computations.

Context {A B : Type}.

Lemma bind_inv (m : M A) (k : A -> M B) (env : Env) (st st' : State)
  (r : result B) :
  bind m k env st = (r, st') ->
  (exists a st1, m env st = (Ok a, st1) /\ k a env st1 = (r, st'))
  \/ (exists e, m env st = (Raise e, st') /\ r = Raise e).
Proof.
  unfold bind. destruct (m env st) as [[a|e] st1]; intros H.
  - left. eauto.
  - right. inversion H. eauto.
Qed.

Lemma bind_reader_inv (m : M A) (k : A -> M B) (env : Env) (st st' : State)
  (r : result B) :
  reader m -> bind m k env st = (r, st') ->
  (exists a, m env st = (Ok a, st) /\ k a env st = (r, st'))
  \/ (exists e, m env st = (Raise e, st) /\ r = Raise e /\ st' = st).
Proof.
  intros Hm H. specialize (Hm env st).
  apply bind_inv in H as [(a & st1 & H1 & H2)|(e & H1 & H2)];
    rewrite H1 in Hm; cbn [snd] in Hm; subst.
  - left. eauto.
  - right. eauto.
Qed.

Lemma reader_bind (m : M A) (k : A -> M B) :
  reader m -> (forall a, reader (k a)) -> reader (bind m k).
Proof.
  intros Hm Hk env st. unfold bind. specialize (Hm env st).
  destruct (m env st) as [[a|e] st1]; cbn [snd] in Hm; subst.
  - apply Hk.
  - reflexivity.
Qed.

Lemma may_raise_bind (m : M A) (k : A -> M B) (E : error -> Prop) :
  may_raise m E -> (forall a, may_raise (k a) E) -> may_raise (bind m k) E.
Proof.
  intros Hm Hk env st e st' H.
  apply bind_inv in H as [(a & st1 & H1 & H2)|(e' & H1 & H2)].
  - eapply Hk; eassumption.
  - inversion H2; subst. eapply Hm; eassumption.
Qed.

Lemma may_raise_weaken (m : M A) (E E' : error -> Prop) :
  (forall e, E e -> E' e) -> may_raise m E -> may_raise m E'.
Proof. intros HE Hm env st e st' H. eapply HE, Hm; eassumption. Qed.

Lemma reader_ret (a : A) : reader (ret a).
Proof. now intros env st. Qed.

Lemma reader_raise (e : error) : reader (@raise A e).
Proof. now intros env st. Qed.

Lemma reader_lift_result (r : result A) : reader (lift_result r).
Proof. now intros env st. Qed.

Lemma reader_lift_option (e : error) (o : option A) :
  reader (lift_option e o).
Proof. now destruct o; intros env st. Qed.

Lemma may_raise_ret (a : A) (E : error -> Prop) : may_raise (ret a) E.
Proof. intros env st e st' H. discriminate. Qed.

Lemma may_raise_raise (e : error) (E : error -> Prop) :
  E e -> may_raise (@raise A e) E.
Proof. intros He env st e' st' H. inversion H. now subst. Qed.

Lemma may_raise_lift_option (e : error) (o : option A) (E : error -> Prop) :
  E e -> may_raise (lift_option e o) E.
Proof.
  intros He. destruct o; [apply may_raise_ret | now apply may_raise_raise].
Qed.

End Computations.

Lemma reader_ask : reader ask.
Proof. now intros env st. Qed.

Lemma reader_get_fs : reader get_fs.
Proof. now intros env st. Qed.

Lemma may_raise_ask (E : error -> Prop) : may_raise ask E.
Proof. intros env st e st' H. discriminate. Qed.

Lemma may_raise_get_fs (E : error -> Prop) : may_raise get_fs E.
Proof. intros env st e st' H. discriminate. Qed.

Lemma may_raise_set_fs (fs : FS.t) (E : error -> Prop) :
  may_raise (set_fs fs) E.
Proof. intros env st e st' H. discriminate. Qed.

Lemma may_raise_log (ev : event) (E : error -> Prop) : may_raise (log ev) E.
Proof. intros env st e st' H. discriminate. Qed.

(** Structural steps for [reader] and [may_raise] goals. *)
Ltac step_reader :=
  repeat first
    [ apply reader_ret | apply reader_raise | apply reader_ask
    | apply reader_get_fs | apply reader_lift_result
    | apply reader_lift_option
    | apply reader_bind; [|intros ?]
    | match goal with
      | |- reader (match ?x with _ => _ end) => destruct x
      end ].

Ltac step_raise :=
  repeat first
    [ apply may_raise_ret | apply may_raise_ask | apply may_raise_get_fs
    | apply may_raise_set_fs | apply may_raise_log
    | apply may_raise_raise; solve [auto 8 | discriminate]
    | apply may_raise_lift_option; solve [auto 8 | discriminate]
    | apply may_raise_bind; [|intros ?]
    | match goal with
      | |- may_raise (match ?x with _ => _ end) _ => destruct x
      end ].

(** ** The stages of [main] *)

Lemma find_git_root_reader : reader find_git_root.
Proof. unfold find_git_root. step_reader. Qed.

Lemma get_valid_asset_path_reader (rel : string) :
  reader (get_valid_asset_path rel).
Proof. unfold get_valid_asset_path. step_reader. Qed.

Lemma get_project_path_reader (start_dir : string) :
  reader (get_project_path start_dir).
Proof. unfold get_project_path. step_reader. Qed.

Lemma get_ue_bin_path_reader : reader get_ue_bin_path.
Proof. unfold get_ue_bin_path. step_reader. Qed.

Lemma os_path_relpath_reader (path start : string) :
  reader (os_path_relpath path start).
Proof. unfold os_path_relpath. step_reader. Qed.

Lemma get_git_relative_asset_path_reader (git_root asset_path : string) :
  reader (get_git_relative_asset_path git_root asset_path).
Proof.
  unfold get_git_relative_asset_path.
  apply reader_bind; [apply os_path_relpath_reader | intros; step_reader].
Qed.

Lemma may_raise_lift_result (A : Type) (r : result A) (E : error -> Prop) :
  (forall e, r = Raise e -> E e) -> may_raise (lift_result r) E.
Proof.
  intros Hr env st e st' H. unfold lift_result in H. inversion H. auto.
Qed.

Lemma find_git_root_loop_raises (fs : FS.t) :
  forall (fuel : nat) (path git_root : string) (idx : Z) (e : error),
    find_git_root_loop fuel fs path git_root idx = Some (Raise e) ->
    e = OSError.
Proof.
  induction fuel as [|fuel IH]; intros path git_root idx e; simpl.
  - destruct (Py.truthy path && negb (Py.truthy git_root) && (0 <? idx)%Z);
      discriminate.
  - destruct (Py.truthy path && negb (Py.truthy git_root) && (0 <? idx)%Z);
      [|discriminate].
    destruct (scandir fs path) as [it|].
    + apply IH.
    + intros H. now inversion H.
Qed.

Lemma find_git_root_raises : may_raise find_git_root setup_error.
Proof.
  unfold find_git_root, setup_error.
  apply may_raise_bind; [apply may_raise_ask | intros env].
  apply may_raise_bind; [apply may_raise_get_fs | intros fs].
  destruct (find_git_root_loop _ fs (getcwd env) EmptyString 1) as [[g|e]|] eqn:E.
  - step_raise.
  - apply find_git_root_loop_raises in E. subst e. step_raise.
  - step_raise.
Qed.

Lemma get_valid_asset_path_raises (rel : string) :
  may_raise (get_valid_asset_path rel) setup_error.
Proof. unfold get_valid_asset_path, setup_error. step_raise. Qed.

Lemma get_project_path_raises (start_dir : string) :
  may_raise (get_project_path start_dir) setup_error.
Proof.
  unfold get_project_path, setup_error.
  apply may_raise_bind; [apply may_raise_get_fs | intros fs].
  apply may_raise_bind.
  { apply may_raise_lift_result. intros e He.
    apply find_entry_in_dir_raises in He as [->| ->]; auto 8. }
  intros path. apply may_raise_bind; [|intros; step_raise].
  destruct (negb (Py.truthy_opt path)); [|step_raise].
  apply may_raise_lift_result. intros e He.
  apply find_entry_in_dir_up_raises in He as [->| ->]; auto 8.
Qed.

Lemma get_ue_bin_path_raises : may_raise get_ue_bin_path setup_error.
Proof. unfold get_ue_bin_path, setup_error. step_raise. Qed.

Lemma os_path_relpath_raises (path start : string) :
  may_raise (os_path_relpath path start) (fun e => e = ValueError).
Proof. unfold os_path_relpath. step_raise. Qed.

Lemma get_git_relative_asset_path_raises (git_root asset_path : string) :
  may_raise (get_git_relative_asset_path git_root asset_path)
    (fun e => e = ValueError).
Proof.
  unfold get_git_relative_asset_path.
  apply may_raise_bind; [apply os_path_relpath_raises | intros; step_raise].
Qed.

Lemma run_cmd_capture_raises (cwd : string) (cmd : list string) :
  may_raise (run_cmd_capture cwd cmd) (fun e => e = ToolInvocationFailed).
Proof. unfold run_cmd_capture. step_raise. Qed.

Lemma run_cmd_capture_blob_raises (cwd : string) (cmd : list string) :
  may_raise (run_cmd_capture_blob cwd cmd)
    (fun e => e = ToolInvocationFailed).
Proof. unfold run_cmd_capture_blob. step_raise. Qed.

Lemma run_cmd_raises (cwd : string) (cmd : list string) :
  may_raise (run_cmd cwd cmd) (fun e => e = ToolInvocationFailed).
Proof. unfold run_cmd. step_raise. Qed.

Lemma git_is_lfs_raises (git_root asset_path : string) :
  may_raise (git_is_lfs git_root asset_path) tool_error.
Proof.
  unfold git_is_lfs, tool_error.
  apply may_raise_bind.
  { eapply may_raise_weaken; [|apply run_cmd_capture_raises]. auto. }
  intros out. apply may_raise_bind; [|intros; step_raise].
  eapply may_raise_weaken; [|apply get_git_relative_asset_path_raises]. auto.
Qed.

Lemma mkdtemp_raises : may_raise mkdtemp tool_error.
Proof.
  unfold mkdtemp, tool_error.
  apply may_raise_bind; [apply may_raise_ask | intros env].
  apply may_raise_bind; [apply may_raise_get_fs | intros fs].
  apply may_raise_bind; [apply may_raise_log | intros _].
  destruct (mkdtemp_try (tmp_candidates env) fs) as [[d fs']|e] eqn:E.
  - step_raise.
  - assert (e = OSError) as ->; [|step_raise].
    revert E. induction (tmp_candidates env) as [|f r IH]; simpl.
    + intros H. now inversion H.
    + destruct (exists_ fs f); [exact IH|].
      destruct (mkdir fs f); [discriminate|]. intros H. now inversion H.
Qed.

Lemma diff_normal_raises (git_root asset_path revision ue project : string) :
  may_raise (diff_normal git_root asset_path revision ue project) tool_error.
Proof.
  unfold diff_normal, get_asset_temp_path, git_download_asset_revision,
    open_write, os_unlink.
  apply may_raise_bind.
  { apply may_raise_bind; [apply mkdtemp_raises | intros; step_raise]. }
  intros tmp_path. apply may_raise_bind.
  { apply may_raise_bind.
    { eapply may_raise_weaken; [|apply get_git_relative_asset_path_raises].
      unfold tool_error. auto. }
    intros rel. apply may_raise_bind.
    { eapply may_raise_weaken; [|apply run_cmd_capture_blob_raises].
      unfold tool_error. auto. }
    intros raw. unfold tool_error. step_raise. }
  intros _. apply may_raise_bind.
  { eapply may_raise_weaken; [|apply run_cmd_raises]. unfold tool_error. auto. }
  intros _. unfold tool_error. step_raise.
Qed.

Lemma diff_lfs_raises (git_root asset_path revision ue project : string) :
  may_raise (diff_lfs git_root asset_path revision ue project) lfs_error.
Proof.
  unfold diff_lfs.
  apply may_raise_bind.
  { eapply may_raise_weaken; [|apply get_git_relative_asset_path_raises].
    unfold lfs_error. auto. }
  intros rel. apply may_raise_bind.
  { eapply may_raise_weaken; [|apply run_cmd_capture_raises].
    unfold lfs_error. auto. }
  intros env_out.
  destruct (map _ (filter _ (Py.splitlines env_out))) as [|media ms];
    [unfold lfs_error; step_raise|].
  apply may_raise_bind.
  { eapply may_raise_weaken; [|apply run_cmd_capture_raises].
    unfold lfs_error. auto. }
  intros oid_out.
  destruct (map _ (filter _ (Py.splitlines oid_out))) as [|oid os];
    [unfold lfs_error; step_raise|].
  apply may_raise_bind; [apply may_raise_get_fs | intros fs].
  destruct (negb (isfile fs _)); [unfold lfs_error; step_raise|].
  eapply may_raise_weaken; [|apply run_cmd_raises]. unfold lfs_error. auto.
Qed.

(** ** Quiet computations *)

Lemma quiet_from_refl (st : State) : quiet_from st st.
Proof. split; [reflexivity|]. exists []. now rewrite app_nil_r. Qed.

Lemma quiet_from_trans (st1 st2 st3 : State) :
  quiet_from st1 st2 -> quiet_from st2 st3 -> quiet_from st1 st3.
Proof.
  intros [Hf1 (x1 & Ht1 & Hn1)] [Hf2 (x2 & Ht2 & Hn2)]. split; [congruence|].
  exists (x1 ++ x2)%list. split.
  - now rewrite Ht2, Ht1, app_assoc.
  - unfold no_run in *. rewrite forallb_app. now rewrite Hn1, Hn2.
Qed.

Lemma quiet_reader (A : Type) (m : M A) : reader m -> quiet m.
Proof. intros Hm env st. rewrite Hm. apply quiet_from_refl. Qed.

Lemma quiet_bind (A B : Type) (m : M A) (k : A -> M B) :
  quiet m -> (forall a, quiet (k a)) -> quiet (bind m k).
Proof.
  intros Hm Hk env st. unfold bind. specialize (Hm env st).
  destruct (m env st) as [[a|e] st1]; cbn [snd] in *; [|assumption].
  eapply quiet_from_trans; [eassumption | apply Hk].
Qed.

Lemma quiet_log (ev : event) : is_run ev = false -> quiet (log ev).
Proof.
  intros Hev env st. split; [reflexivity|]. exists [ev]. split; [reflexivity|].
  unfold no_run. simpl. now rewrite Hev.
Qed.

Lemma quiet_run_cmd_capture (cwd : string) (cmd : list string) :
  quiet (run_cmd_capture cwd cmd).
Proof.
  unfold run_cmd_capture.
  apply quiet_bind; [apply quiet_reader, reader_ask | intros env].
  apply quiet_bind; [now apply quiet_log | intros _].
  apply quiet_reader, reader_lift_option.
Qed.

Lemma quiet_git_find_last_revision (git_root file_path : string) :
  quiet (git_find_last_revision git_root file_path).
Proof.
  unfold git_find_last_revision.
  apply quiet_bind; [apply quiet_run_cmd_capture | intros out].
  apply quiet_reader. step_reader.
Qed.

Lemma quiet_git_is_lfs (git_root asset_path : string) :
  quiet (git_is_lfs git_root asset_path).
Proof.
  unfold git_is_lfs.
  apply quiet_bind; [apply quiet_run_cmd_capture | intros out].
  apply quiet_bind;
    [apply quiet_reader, get_git_relative_asset_path_reader | intros rel].
  apply quiet_reader, reader_ret.
Qed.

Lemma stops_before_tool_bind (A B : Type) (m : M A) (k : A -> M B) :
  quiet m -> (forall a, stops_before_tool (k a)) ->
  stops_before_tool (bind m k).
Proof.
  intros Hm Hk env st. unfold bind. specialize (Hm env st).
  destruct (m env st) as [[a|e] st1]; cbn [fst snd] in *.
  - intros H. eapply quiet_from_trans; [eassumption | now apply Hk].
  - intros _. assumption.
Qed.

Lemma stops_before_tool_never (A : Type) (m : M A) (E : error -> Prop) :
  may_raise m E -> ~ E ObjectNotFound -> stops_before_tool m.
Proof.
  intros Hm HE env st H. exfalso. apply HE.
  destruct (m env st) as [r st'] eqn:Em. cbn [fst] in H. subst r.
  eapply Hm; eassumption.
Qed.

Lemma stops_before_tool_quiet (A : Type) (m : M A) :
  quiet m -> stops_before_tool m.
Proof. intros Hm env st _. apply Hm. Qed.

Lemma stops_before_tool_diff_lfs
  (git_root asset_path revision ue project : string) :
  stops_before_tool (diff_lfs git_root asset_path revision ue project).
Proof.
  unfold diff_lfs.
  apply stops_before_tool_bind;
    [apply quiet_reader, get_git_relative_asset_path_reader | intros rel].
  apply stops_before_tool_bind; [apply quiet_run_cmd_capture | intros out].
  destruct (map _ (filter _ (Py.splitlines out))) as [|media ms].
  { apply stops_before_tool_quiet, quiet_reader, reader_raise. }
  apply stops_before_tool_bind; [apply quiet_run_cmd_capture | intros oid_out].
  destruct (map _ (filter _ (Py.splitlines oid_out))) as [|oid os].
  { apply stops_before_tool_quiet, quiet_reader, reader_raise. }
  apply stops_before_tool_bind; [apply quiet_reader, reader_get_fs | intros fs].
  destruct (negb (isfile fs _)).
  - apply stops_before_tool_quiet, quiet_reader, reader_raise.
  - eapply stops_before_tool_never; [apply run_cmd_raises | discriminate].
Qed.

Lemma stops_before_tool_main (relative_asset_path : string) :
  stops_before_tool (main relative_asset_path).
Proof.
  unfold main.
  apply stops_before_tool_bind;
    [apply quiet_reader, find_git_root_reader | intros git_root].
  apply stops_before_tool_bind;
    [apply quiet_reader, get_valid_asset_path_reader | intros asset_path].
  apply stops_before_tool_bind;
    [apply quiet_reader, get_project_path_reader | intros project_path].
  apply stops_before_tool_bind;
    [apply quiet_reader, get_ue_bin_path_reader | intros ue].
  apply stops_before_tool_bind;
    [apply quiet_reader, os_path_relpath_reader | intros rel].
  apply stops_before_tool_bind;
    [apply quiet_git_find_last_revision | intros revision].
  apply stops_before_tool_bind; [apply quiet_git_is_lfs | intros is_lfs].
  destruct is_lfs.
  - apply stops_before_tool_diff_lfs.
  - eapply stops_before_tool_never; [apply diff_normal_raises|].
    unfold tool_error. intuition discriminate.
Qed.

(** ** Equations of the primitive steps *)

Lemma bind_ok (A B : Type) (m : M A) (k : A -> M B) (env : Env)
  (st st' : State) (a : A) :
  m env st = (Ok a, st') -> bind m k env st = k a env st'.
Proof. unfold bind. now intros ->. Qed.

Lemma bind_raise (A B : Type) (m : M A) (k : A -> M B) (env : Env)
  (st st' : State) (e : error) :
  m env st = (Raise e, st') -> bind m k env st = (Raise e, st').
Proof. unfold bind. now intros ->. Qed.

Lemma run_cmd_capture_eq (env : Env) (st : State) (cwd : string)
  (cmd : list string) :
  run_cmd_capture cwd cmd env st
  = (match proc_text env cwd cmd with
     | Some out => Ok out
     | None => Raise ToolInvocationFailed
     end,
     mkState (st_fs st) (st_trace st ++ [Capture cwd cmd])).
Proof.
  unfold run_cmd_capture, bind, ask, log, lift_option, ret, raise. cbn.
  now destruct (proc_text env cwd cmd).
Qed.

Lemma run_cmd_capture_blob_eq (env : Env) (st : State) (cwd : string)
  (cmd : list string) :
  run_cmd_capture_blob cwd cmd env st
  = (match proc_blob env cwd cmd with
     | Some out => Ok out
     | None => Raise ToolInvocationFailed
     end,
     mkState (st_fs st) (st_trace st ++ [CaptureBlob cwd cmd])).
Proof.
  unfold run_cmd_capture_blob, bind, ask, log, lift_option, ret, raise. cbn.
  now destruct (proc_blob env cwd cmd).
Qed.

Lemma run_cmd_eq (env : Env) (st : State) (cwd : string)
  (cmd : list string) :
  run_cmd cwd cmd env st
  = (if proc_run env cwd cmd then Ok tt else Raise ToolInvocationFailed,
     mkState (st_fs st) (st_trace st ++ [Run cwd cmd])).
Proof.
  unfold run_cmd, bind, ask, log, ret, raise. cbn.
  now destruct (proc_run env cwd cmd).
Qed.

Lemma get_git_relative_asset_path_eq (env : Env) (st : State)
  (git_root asset_path : string) :
  get_git_relative_asset_path git_root asset_path env st
  = (match OsPath.relpath (getcwd env) asset_path git_root with
     | Some rel => Ok (Py.replace_char "\"%char "/"%char rel)
     | None => Raise ValueError
     end, st).
Proof.
  unfold get_git_relative_asset_path, os_path_relpath, bind, ask,
    lift_option, ret, raise. cbn.
  now destruct (OsPath.relpath (getcwd env) asset_path git_root).
Qed.

Lemma open_write_eq (env : Env) (st : State) (path : string)
  (data : list byte) :
  open_write path data env st
  = match FS.write (st_fs st) path data with
    | Some fs' => (Ok tt, mkState fs' (st_trace st ++ [OpenWrite path]))
    | None =>
        (Raise OSError, mkState (st_fs st) (st_trace st ++ [OpenWrite path]))
    end.
Proof.
  unfold open_write, bind, get_fs, log, set_fs, raise. cbn.
  now destruct (FS.write (st_fs st) path data).
Qed.

Lemma os_unlink_eq (env : Env) (st : State) (path : string) :
  os_unlink path env st
  = match FS.unlink (st_fs st) path with
    | Some fs' => (Ok tt, mkState fs' (st_trace st ++ [Unlink path]))
    | None =>
        (Raise OSError, mkState (st_fs st) (st_trace st ++ [Unlink path]))
    end.
Proof.
  unfold os_unlink, bind, get_fs, log, set_fs, raise. cbn.
  now destruct (FS.unlink (st_fs st) path).
Qed.

Lemma mkdtemp_eq (env : Env) (st : State) :
  mkdtemp env st
  = match mkdtemp_try (tmp_candidates env) (st_fs st) with
    | Ok (d, fs') => (Ok d, mkState fs' (st_trace st ++ [Mkdtemp]))
    | Raise e => (Raise e, mkState (st_fs st) (st_trace st ++ [Mkdtemp]))
    end.
Proof.
  unfold mkdtemp, bind, ask, get_fs, log, set_fs, ret, raise. cbn.
  now destruct (mkdtemp_try (tmp_candidates env) (st_fs st)) as [[d fs']|e].
Qed.

(** ** Updates of the tree *)

Section Updates.

Lemma find_child_app_fresh (c : string) (cs : list node) (e : node) :
  find_child c cs = None -> node_name e = c ->
  find_child c (cs ++ [e]) = Some e.
Proof.
  unfold find_child. intros Hn He. induction cs as [|a r IH]; simpl in *.
  - now rewrite He, String.eqb_refl.
  - destruct (String.eqb (node_name a) c); [discriminate | now apply IH].
Qed.

Lemma replace_child_inv (c : string) (g : node -> option node)
  (cs cs' : list node) :
  replace_child c g cs = Some cs' ->
  exists e e',
    find_child c cs = Some e /\ g e = Some e' /\
    (node_name e' = c -> find_child c cs' = Some e').
Proof.
  revert cs'. induction cs as [|a r IH]; intros cs'; simpl; [discriminate|].
  unfold find_child. simpl.
  destruct (String.eqb (node_name a) c) eqn:Ea.
  - destruct (g a) as [e'|] eqn:Eg; [|discriminate].
    intros H. inversion H; subst. exists a, e'. repeat split; try assumption.
    intros He. simpl. now rewrite He, String.eqb_refl.
  - destruct (replace_child c g r) as [r'|] eqn:Er; [|discriminate].
    intros H. inversion H; subst.
    destruct (IH r' eq_refl) as (e & e' & Hf & Hg & Hn).
    exists e, e'. repeat split; try assumption.
    intros He. simpl. rewrite Ea. now apply Hn.
Qed.

Lemma replace_child_some (c : string) (g : node -> option node)
  (cs : list node) (e e' : node) :
  find_child c cs = Some e -> g e = Some e' ->
  exists cs', replace_child c g cs = Some cs'.
Proof.
  unfold find_child. induction cs as [|a r IH]; simpl; [discriminate|].
  destruct (String.eqb (node_name a) c).
  - intros H Hg. inversion H; subst. rewrite Hg. simpl. eauto.
  - intros H Hg. destruct (IH H Hg) as [r' ->]. simpl. eauto.
Qed.

Lemma update_cons2 (c c2 : string) (rest : list string)
  (f : string -> list node -> option (list node)) (cs : list node) :
  update (c :: c2 :: rest) f cs
  = replace_child c
      (fun e =>
         match e with
         | File _ _ => None
         | Dir n cs' => option_map (Dir n) (update (c2 :: rest) f cs')
         end) cs.
Proof. reflexivity. Qed.

(** After an update that puts [mk c] under the name [c], the path of the
    update names that node. *)
Lemma update_walk (f : string -> list node -> option (list node))
  (mk : string -> node) :
  (forall c cs cs', f c cs = Some cs' -> find_child c cs' = Some (mk c)) ->
  forall (comps : list string) (n : string) (cs cs' : list node),
    update comps f cs = Some cs' ->
    walk (Dir n cs') comps = Some (mk (last comps EmptyString)).
Proof.
  intros Hf. induction comps as [|c rest IH]; intros n cs cs'; [discriminate|].
  destruct rest as [|c2 rest].
  - cbn [update walk last]. intros H. now rewrite (Hf _ _ _ H).
  - rewrite update_cons2. intros H.
    apply replace_child_inv in H as (e & e' & Hfind & Hg & Hn).
    destruct e as [|n0 cs0]; cbn beta iota in Hg; [discriminate Hg|].
    destruct (update (c2 :: rest) f cs0) as [cs0'|] eqn:Eu;
      [|discriminate Hg].
    cbn [option_map] in Hg. inversion Hg; subst e'.
    apply find_child_some in Hfind as [_ Hname]. cbn [node_name] in Hname.
    cbn [walk]. rewrite (Hn Hname).
    change (last (c :: c2 :: rest) EmptyString) with (last (c2 :: rest) EmptyString).
    exact (IH n0 _ _ Eu).
Qed.

(** An update below an existing directory succeeds when its last step
    does. *)
Lemma update_below (f : string -> list node -> option (list node))
  (c : string) :
  forall (comps : list string) (n m : string) (cs cs0 cs0' : list node),
    walk (Dir n cs) comps = Some (Dir m cs0) ->
    f c cs0 = Some cs0' ->
    exists cs', update (comps ++ [c]) f cs = Some cs'.
Proof.
  induction comps as [|x r IH]; intros n m cs cs0 cs0' Hw Hf.
  - cbn in Hw. inversion Hw; subst. cbn. eauto.
  - cbn [walk] in Hw.
    destruct (find_child x cs) as [e|] eqn:Ef; [|discriminate].
    destruct e as [fn fd|n' cs1].
    { destruct r; cbn in Hw; discriminate. }
    destruct (IH _ _ _ _ _ Hw Hf) as [cs1' Hu].
    cbn [app]. destruct (r ++ [c])%list as [|y l] eqn:El.
    { now destruct r. }
    rewrite update_cons2.
    eapply replace_child_some; [eassumption|].
    cbn beta iota. rewrite Hu. reflexivity.
Qed.

Lemma put_file_find (data : list byte) (c : string) (cs cs' : list node) :
  put_file data c cs = Some cs' -> find_child c cs' = Some (File c data).
Proof.
  unfold put_file. destruct (special_name c); [discriminate|].
  destruct (find_child c cs) as [[fn fd|dn dcs]|] eqn:Ef.
  - intros H. apply replace_child_inv in H as (e & e' & _ & Hg & Hn).
    inversion Hg; subst e'. now apply Hn.
  - discriminate.
  - intros H. inversion H. now apply find_child_app_fresh.
Qed.

Lemma make_dir_find (c : string) (cs cs' : list node) :
  make_dir c cs = Some cs' -> find_child c cs' = Some (Dir c []).
Proof.
  unfold make_dir. destruct (special_name c); [discriminate|].
  destruct (find_child c cs) eqn:Ef; [discriminate|].
  intros H. inversion H. now apply find_child_app_fresh.
Qed.

Lemma update_truthy (f : string -> list node -> option (list node))
  (path : string) (fs fs' : FS.t) :
  update (components path) f fs = Some fs' -> Py.truthy path = true.
Proof. destruct path; [discriminate | reflexivity]. Qed.

(** Reading back what was written. *)
Lemma write_read (fs fs' : FS.t) (path : string) (data : list byte) :
  FS.write fs path data = Some fs' -> FS.read fs' path = Some data.
Proof.
  unfold FS.write, FS.read, resolve. intros H.
  rewrite (update_truthy _ _ _ H).
  now rewrite (update_walk (put_file data) (fun c => File c data)
                 (put_file_find data) _ EmptyString _ H).
Qed.

(** A directory just made is there and empty. *)
Lemma mkdir_scandir (fs fs' : FS.t) (path : string) :
  FS.mkdir fs path = Some fs' -> scandir fs' path = Some [].
Proof.
  unfold FS.mkdir, scandir, resolve. intros H.
  rewrite (update_truthy _ _ _ H).
  now rewrite (update_walk make_dir (fun c => Dir c []) make_dir_find
                 _ EmptyString _ H).
Qed.

Lemma mkdtemp_try_ok (names : list string) (fs fs' : FS.t) (d : string) :
  mkdtemp_try names fs = Ok (d, fs') ->
  In d names /\ exists_ fs d = false /\ FS.mkdir fs d = Some fs'.
Proof.
  induction names as [|f r IH]; simpl; [discriminate|].
  destruct (exists_ fs f) eqn:Ee.
  - intros H. destruct (IH H) as (Hin & Hx & Hm). auto.
  - destruct (mkdir fs f) as [fs1|] eqn:Em; [|discriminate].
    intros H. inversion H; subst. auto.
Qed.

(** Writing a new, validly named file into an empty directory
    succeeds. *)
Lemma write_into_empty_dir (fs : FS.t) (dir new_name : string)
  (data : list byte) :
  scandir fs dir = Some [] -> valid_name new_name = true ->
  exists fs', FS.write fs (OsPath.join dir new_name) data = Some fs'.
Proof.
  intros Hs Hv. unfold FS.write. rewrite (@components_join _ _ Hv).
  unfold scandir in Hs.
  destruct (resolve fs dir) as [[fn fd|n cs]|] eqn:Er; try discriminate.
  destruct cs; [|discriminate].
  unfold resolve in Er. destruct (Py.truthy dir); [|discriminate].
  eapply update_below; [eassumption|].
  unfold put_file. apply valid_name_parts in Hv as (_ & -> & _).
  reflexivity.
Qed.

(** *** Directories survive the updates of the run *)

Lemma find_child_app_l (x : string) (cs extra : list node) (e : node) :
  find_child x cs = Some e -> find_child x (cs ++ extra) = Some e.
Proof.
  unfold find_child. induction cs as [|a r IH]; simpl; [discriminate|].
  destruct (String.eqb (node_name a) x); [auto | exact IH].
Qed.

Lemma replace_child_other (c x : string) (g : node -> option node)
  (cs cs' : list node) :
  (forall e e', node_name e = c -> g e = Some e' -> node_name e' = c) ->
  replace_child c g cs = Some cs' -> x <> c ->
  find_child x cs' = find_child x cs.
Proof.
  intros Hg. revert cs'.
  induction cs as [|a r IH]; intros cs'; simpl; [discriminate|].
  unfold find_child. destruct (String.eqb (node_name a) c) eqn:Ea.
  - destruct (g a) as [e'|] eqn:Eg; [|discriminate].
    intros H Hx. inversion H; subst. simpl.
    apply String.eqb_eq in Ea. rewrite (Hg _ _ Ea Eg), Ea.
    assert (String.eqb c x = false) as ->
        by (apply String.eqb_neq; congruence).
    reflexivity.
  - destruct (replace_child c g r) as [r'|] eqn:Er; [|discriminate].
    intros H Hx. inversion H; subst. simpl.
    destruct (String.eqb (node_name a) x); [reflexivity|].
    now apply IH.
Qed.

Lemma remove_child_other (c x : string) (cs : list node) :
  x <> c -> find_child x (remove_child c cs) = find_child x cs.
Proof.
  intros Hx. unfold find_child.
  induction cs as [|a r IH]; simpl; [reflexivity|].
  destruct (String.eqb (node_name a) c) eqn:Ea.
  - apply String.eqb_eq in Ea.
    assert (String.eqb (node_name a) x = false) as ->
        by (apply String.eqb_neq; congruence).
    reflexivity.
  - simpl. destruct (String.eqb (node_name a) x); [reflexivity | exact IH].
Qed.

Lemma put_file_keeps_dirs (data : list byte) : keeps_dirs (put_file data).
Proof.
  intros c cs cs' x n1 cs1. unfold put_file.
  destruct (special_name c); [discriminate|].
  destruct (find_child c cs) as [[fn fd|dn dcs]|] eqn:Ec.
  - intros H Hx.
    assert (find_child x cs' = find_child x cs) as ->; [|assumption].
    eapply replace_child_other; [|eassumption|congruence].
    intros e e' _ He. now inversion He.
  - discriminate.
  - intros H Hx. inversion H. now apply find_child_app_l.
Qed.

Lemma remove_file_keeps_dirs : keeps_dirs remove_file.
Proof.
  intros c cs cs' x n1 cs1. unfold remove_file.
  destruct (find_child c cs) as [[fn fd|dn dcs]|] eqn:Ec; try discriminate.
  intros H Hx. inversion H. rewrite remove_child_other; [assumption|].
  congruence.
Qed.

Lemma walk_from_file (fn : string) (fd : list byte) (q : list string)
  (m : string) (cs : list node) :
  walk (File fn fd) q <> Some (Dir m cs).
Proof. destruct q; simpl; discriminate. Qed.

(** An update that keeps directory entries keeps every directory of the
    tree a directory. *)
Lemma update_keeps_dir (f : string -> list node -> option (list node)) :
  keeps_dirs f ->
  forall (comps q : list string) (n : string) (cs cs' : list node)
         (m : string) (cs2 : list node),
    update comps f cs = Some cs' ->
    walk (Dir n cs) q = Some (Dir m cs2) ->
    exists cs2', walk (Dir n cs') q = Some (Dir m cs2').
Proof.
  intros Hf. induction comps as [|c rest IH];
    intros q n cs cs' m cs2 Hu Hw; [discriminate|].
  destruct q as [|x q'].
  { cbn in Hw. inversion Hw; subst. cbn. eauto. }
  cbn [walk] in Hw.
  destruct (find_child x cs) as [e|] eqn:Ex; [|discriminate].
  destruct e as [fn fd|n1 cs1]; [now apply walk_from_file in Hw|].
  destruct rest as [|c2 rest].
  - cbn [update] in Hu. cbn [walk].
    rewrite (Hf _ _ _ _ _ _ Hu Ex). eauto.
  - rewrite update_cons2 in Hu. cbn [walk].
    destruct (String.eqb x c) eqn:Exc.
    + apply String.eqb_eq in Exc. subst x.
      apply replace_child_inv in Hu as (e & e' & Hfind & Hg & Hn).
      rewrite Ex in Hfind. inversion Hfind; subst e. cbn beta iota in Hg.
      destruct (update (c2 :: rest) f cs1) as [cs1'|] eqn:Eu;
        [|discriminate Hg].
      cbn [option_map] in Hg. inversion Hg; subst e'.
      apply find_child_some in Ex as [_ Hname]. cbn [node_name] in Hname.
      rewrite (Hn Hname). exact (IH q' n1 _ _ m cs2 Eu Hw).
    + apply String.eqb_neq in Exc.
      assert (find_child x cs' = find_child x cs) as ->.
      { eapply replace_child_other; [|eassumption|assumption].
        intros e e' He Hg. destruct e as [|dn dcs]; [discriminate Hg|].
        destruct (update (c2 :: rest) f dcs); [|discriminate Hg].
        cbn in Hg. inversion Hg. exact He. }
      rewrite Ex. eauto.
Qed.

Lemma write_keeps_isdir (fs fs' : FS.t) (path dir : string)
  (data : list byte) :
  FS.write fs path data = Some fs' -> isdir fs dir = true ->
  isdir fs' dir = true.
Proof.
  unfold FS.write, isdir, resolve. intros Hu.
  destruct (Py.truthy dir); [|discriminate].
  destruct (walk (Dir EmptyString fs) (components dir)) as [[fn fd|m cs2]|] eqn:Ew;
    try discriminate.
  intros _.
  destruct (@update_keeps_dir _ (put_file_keeps_dirs data) _ _ EmptyString _ _ _ _
              Hu Ew) as [cs2' ->].
  reflexivity.
Qed.

Lemma unlink_keeps_isdir (fs fs' : FS.t) (path dir : string) :
  FS.unlink fs path = Some fs' -> isdir fs dir = true ->
  isdir fs' dir = true.
Proof.
  unfold FS.unlink, isdir, resolve. intros Hu.
  destruct (Py.truthy dir); [|discriminate].
  destruct (walk (Dir EmptyString fs) (components dir)) as [[fn fd|m cs2]|] eqn:Ew;
    try discriminate.
  intros _.
  destruct (@update_keeps_dir _ remove_file_keeps_dirs _ _ EmptyString _ _ _ _
              Hu Ew) as [cs2' ->].
  reflexivity.
Qed.

End Updates.

Lemma os_path_relpath_eq (env : Env) (st : State) (path start : string) :
  os_path_relpath path start env st
  = (match OsPath.relpath (getcwd env) path start with
     | Some rel => Ok rel
     | None => Raise ValueError
     end, st).
Proof.
  unfold os_path_relpath, bind, ask, lift_option, ret, raise. cbn.
  now destruct (OsPath.relpath (getcwd env) path start).
Qed.

Lemma git_find_last_revision_eq (env : Env) (st : State)
  (git_root file_path : string) :
  git_find_last_revision git_root file_path env st
  = (match proc_text env git_root (git_log_cmd file_path) with
     | Some out =>
         if Py.truthy (Py.strip out) then Ok (Py.strip out)
         else Raise NoHistory
     | None => Raise ToolInvocationFailed
     end,
     mkState (st_fs st)
       (st_trace st ++ [Capture git_root (git_log_cmd file_path)])).
Proof.
  unfold git_find_last_revision, bind.
  fold (git_log_cmd file_path). rewrite run_cmd_capture_eq.
  destruct (proc_text env git_root (git_log_cmd file_path)) as [out|];
    [|reflexivity].
  unfold raise, ret. now destruct (Py.truthy (Py.strip out)).
Qed.

(** ** Termination of the searches *)

Section Termination.

Variable fs : FS.t.

Lemma str_take_length (n : nat) (s : string) :
  String.length (Py.str_take n s) <= n.
Proof.
  revert s. induction n as [|n IH]; intros [|c r]; simpl; try lia.
  specialize (IH r). lia.
Qed.

Lemma last_index_bound (input sep : string) :
  (last_index input sep <= Z.of_nat (String.length input) - 1)%Z.
Proof.
  unfold last_index. destruct (Py.str_index sep (Py.str_rev input)); lia.
Qed.

(** Stripping the last segment shortens a non-empty path. *)
Lemma slice_to_shorter (path sep : string) :
  Py.truthy path = true ->
  String.length (Py.slice_to path (last_index path sep))
  < String.length path.
Proof.
  intros Ht. pose proof (last_index_bound path sep) as Hb.
  assert (1 <= String.length path) as Hl
      by (destruct path; [discriminate | simpl; lia]).
  unfold Py.slice_to.
  destruct (last_index path sep <? 0)%Z eqn:E;
    [apply Z.ltb_lt in E | apply Z.ltb_ge in E];
    match goal with
    | |- String.length (Py.str_take ?n _) < _ =>
        pose proof (str_take_length n path)
    end; lia.
Qed.

Lemma up_loop_terminates (p : predicate) :
  forall (fuel : nat) (path : string) (ep : option string) (idx : Z),
    String.length path < fuel ->
    find_entry_in_dir_up_loop fuel fs p path ep idx <> None.
Proof.
  induction fuel as [|fuel IH]; intros path ep idx Hl; [lia|].
  cbn [find_entry_in_dir_up_loop].
  destruct (Py.truthy path && negb (Py.truthy_opt ep) && (0 <? idx)%Z)
    eqn:Eg; [|discriminate].
  apply andb_prop in Eg as [Eg _]. apply andb_prop in Eg as [Ht _].
  destruct (scandir fs path); [|discriminate].
  apply IH. pose proof (@slice_to_shorter path OsPath.sep Ht). lia.
Qed.

Lemma find_entry_in_dir_up_total (p : predicate) (start : string) :
  find_entry_in_dir_up fs start p <> Raise Diverges.
Proof.
  unfold find_entry_in_dir_up.
  destruct (find_entry_in_dir_up_loop _ fs p start None 1) as [r|] eqn:E.
  - intros ->. apply up_loop_outcome in E. discriminate.
  - exfalso. revert E. apply up_loop_terminates. lia.
Qed.

Lemma find_git_root_loop_terminates :
  forall (fuel : nat) (path git_root : string) (idx : Z),
    String.length path < fuel ->
    find_git_root_loop fuel fs path git_root idx <> None.
Proof.
  induction fuel as [|fuel IH]; intros path git_root idx Hl; [lia|].
  cbn [find_git_root_loop].
  destruct (Py.truthy path && negb (Py.truthy git_root) && (0 <? idx)%Z)
    eqn:Eg; [|discriminate].
  apply andb_prop in Eg as [Eg _]. apply andb_prop in Eg as [Ht _].
  destruct (scandir fs path); [|discriminate].
  apply IH. pose proof (@slice_to_shorter path OsPath.sep Ht). lia.
Qed.

(** On a well-formed tree the downward search from an absolute path
    ends. *)
Lemma find_entry_in_dir_total (p : predicate) (start : string) :
  wf fs = true -> OsPath.isabs start = true ->
  find_entry_in_dir fs start p <> Raise Diverges.
Proof.
  intros Hwf Habs. unfold find_entry_in_dir, find_entry_in_dir_scan.
  destruct (resolve fs start) as [[fn fd|n cs]|] eqn:Er.
  - unfold search_fuel. cbn [find_entry_in_dir_loop size].
    cbn [OsPath.is_nil Py.truthy_opt orb pop rev app].
    unfold scandir. rewrite Er. discriminate.
  - destruct (@loop_depth_first fs p (search_fuel fs) [(start, Dir n cs)] [])
      as [log Hlog].
    + constructor; [|constructor]. repeat split; cbn [fst snd]; try assumption.
      exists n, cs. split; [reflexivity|]. eapply resolve_wf; eassumption.
    + unfold stack_size, search_fuel. cbn [map snd list_sum fold_right].
      unfold resolve in Er. destruct (Py.truthy start); [|discriminate].
      apply walk_size in Er. lia.
    + cbn [map fst] in Hlog. rewrite Hlog. discriminate.
  - unfold search_fuel. cbn [find_entry_in_dir_loop size].
    cbn [OsPath.is_nil Py.truthy_opt orb pop rev app].
    unfold scandir. rewrite Er. discriminate.
Qed.

End Termination.

(** ** Computations that keep the file system *)

Lemma keeps_fs_bind (A B : Type) (m : M A) (k : A -> M B) :
  keeps_fs m -> (forall a, keeps_fs (k a)) -> keeps_fs (bind m k).
Proof.
  intros Hm Hk env st. unfold bind. specialize (Hm env st).
  destruct (m env st) as [[a|e] st1]; cbn [snd] in *; [|assumption].
  now rewrite Hk.
Qed.

Lemma keeps_fs_quiet (A : Type) (m : M A) : quiet m -> keeps_fs m.
Proof. intros Hm env st. apply Hm. Qed.

Lemma keeps_fs_run_cmd (cwd : string) (cmd : list string) :
  keeps_fs (run_cmd cwd cmd).
Proof. intros env st. now rewrite run_cmd_eq. Qed.

Lemma keeps_fs_diff_lfs
  (git_root asset_path revision ue project : string) :
  keeps_fs (diff_lfs git_root asset_path revision ue project).
Proof.
  unfold diff_lfs.
  apply keeps_fs_bind;
    [apply keeps_fs_quiet, quiet_reader, get_git_relative_asset_path_reader
    |intros rel].
  apply keeps_fs_bind;
    [apply keeps_fs_quiet, quiet_run_cmd_capture | intros out].
  destruct (map _ (filter _ (Py.splitlines out))) as [|media ms].
  { apply keeps_fs_quiet, quiet_reader, reader_raise. }
  apply keeps_fs_bind;
    [apply keeps_fs_quiet, quiet_run_cmd_capture | intros oid_out].
  destruct (map _ (filter _ (Py.splitlines oid_out))) as [|oid os].
  { apply keeps_fs_quiet, quiet_reader, reader_raise. }
  apply keeps_fs_bind;
    [apply keeps_fs_quiet, quiet_reader, reader_get_fs | intros fs].
  destruct (negb (isfile fs _)).
  - apply keeps_fs_quiet, quiet_reader, reader_raise.
  - apply keeps_fs_run_cmd.
Qed.

(** ** The repository root *)

Lemma str_take_take (m n : nat) (s : string) :
  Py.str_take m (Py.str_take n s) = Py.str_take (Nat.min m n) s.
Proof.
  revert n s. induction m as [|m IH]; intros [|n] [|c r]; simpl;
    try reflexivity.
  now rewrite IH.
Qed.

Lemma slice_to_take (s : string) (j : Z) :
  exists k, Py.slice_to s j = Py.str_take k s.
Proof. unfold Py.slice_to. destruct (j <? 0)%Z; eauto. Qed.

Lemma find_git_root_loop_holds (fs : FS.t) (cwd : string) :
  forall (fuel : nat) (path git_root : string) (idx : Z) (g : string),
    (exists n, path = Py.str_take n cwd) ->
    (git_root = EmptyString \/ holds_dot_git fs cwd git_root) ->
    find_git_root_loop fuel fs path git_root idx = Some (Ok g) ->
    g = EmptyString \/ holds_dot_git fs cwd g.
Proof.
  induction fuel as [|fuel IH]; intros path git_root idx g Hp Hg;
    cbn [find_git_root_loop].
  - destruct (Py.truthy path && negb (Py.truthy git_root) && (0 <? idx)%Z);
      [discriminate|].
    intros H. now inversion H; subst.
  - destruct (Py.truthy path && negb (Py.truthy git_root) && (0 <? idx)%Z).
    2:{ intros H. now inversion H; subst. }
    destruct (scandir fs path) as [it|] eqn:Es; [|discriminate].
    apply IH.
    + destruct Hp as [n ->].
      destruct (slice_to_take (Py.str_take n cwd)
                  (last_index (Py.str_take n cwd) OsPath.sep)) as [k ->].
      rewrite str_take_take. eauto.
    + destruct (existsb _ it) eqn:Ee; [|assumption].
      right. split; [assumption|]. eauto.
Qed.

(** ** [last_index] *)

Section LastIndex.

Lemma prefix_char_cons (c b : ascii) (r : string) :
  prefix (String c EmptyString) (String b r) = Ascii.eqb b c.
Proof.
  cbn [prefix]. destruct (ascii_dec c b) as [<-|Hne].
  - rewrite Ascii.eqb_refl. now destruct r.
  - symmetry. apply Ascii.eqb_neq. congruence.
Qed.

Lemma index_char_cons (c b : ascii) (r : string) :
  String.index 0 (String c EmptyString) (String b r)
  = if Ascii.eqb b c then Some 0
    else match String.index 0 (String c EmptyString) r with
         | Some n => Some (S n)
         | None => None
         end.
Proof.
  cbn [String.index]. now rewrite prefix_char_cons.
Qed.

Lemma index_char_absent (c : ascii) (x : string) :
  Py.has_char c x = false ->
  String.index 0 (String c EmptyString) x = None.
Proof.
  induction x as [|b r IH]; [reflexivity|].
  cbn [Py.has_char]. intros H. apply orb_false_elim in H as [Hb Hr].
  now rewrite index_char_cons, Hb, IH.
Qed.

Lemma index_char_first (c : ascii) (x y : string) :
  Py.has_char c x = false ->
  String.index 0 (String c EmptyString) (x ++ String c y)
  = Some (String.length x).
Proof.
  induction x as [|b r IH]; cbn [append Py.has_char String.length].
  - intros _. now rewrite index_char_cons, Ascii.eqb_refl.
  - intros H. apply orb_false_elim in H as [Hb Hr].
    now rewrite index_char_cons, Hb, IH.
Qed.

Lemma has_char_rev (c : ascii) (s : string) :
  Py.has_char c (Py.str_rev s) = Py.has_char c s.
Proof.
  induction s as [|b r IH]; [reflexivity|].
  cbn [Py.str_rev]. rewrite has_char_app, IH. cbn [Py.has_char].
  rewrite orb_false_r. apply orb_comm.
Qed.

Lemma length_rev (s : string) :
  String.length (Py.str_rev s) = String.length s.
Proof.
  induction s as [|b r IH]; [reflexivity|].
  cbn [Py.str_rev]. rewrite length_app, IH. simpl. lia.
Qed.

Lemma str_take_app (a b : string) :
  Py.str_take (String.length a) (a ++ b) = a.
Proof. induction a as [|d r IH]; simpl; [now destruct b | now rewrite IH]. Qed.

Lemma last_index_absent (c : ascii) (input : string) :
  Py.has_char c input = false ->
  last_index input (String c EmptyString) = (-1)%Z.
Proof.
  intros H. unfold last_index, Py.str_index.
  now rewrite index_char_absent by now rewrite has_char_rev.
Qed.

Lemma last_index_last (c : ascii) (a b : string) :
  Py.has_char c b = false ->
  last_index (a ++ String c b) (String c EmptyString)
  = Z.of_nat (String.length a).
Proof.
  intros H. unfold last_index, Py.str_index.
  rewrite str_rev_app. cbn [Py.str_rev].
  rewrite append_assoc. cbn [append].
  rewrite index_char_first by now rewrite has_char_rev.
  rewrite length_rev, length_app. cbn [String.length]. lia.
Qed.

Lemma slice_to_length (a b : string) :
  Py.slice_to (a ++ b) (Z.of_nat (String.length a)) = a.
Proof.
  unfold Py.slice_to.
  destruct (Z.of_nat (String.length a) <? 0)%Z eqn:E;
    [apply Z.ltb_lt in E; lia|].
  rewrite Nat2Z.id. apply str_take_app.
Qed.

End LastIndex.

(** ** The upward searches along the ancestors *)

Section SearchUp.

Variable fs : FS.t.
Variable p : predicate.

Lemma abs_path_snoc (cs : list string) (c : string) :
  abs_path (cs ++ [c])%list = abs_path cs ++ OsPath.sep ++ c.
Proof.
  induction cs as [|d r IH]; cbn [abs_path app].
  - now rewrite append_empty_r.
  - rewrite IH. unfold OsPath.sep. cbn [append].
    now rewrite append_assoc.
Qed.

Lemma up_loop_done (fuel : nat) (path d : string) (idx : Z) :
  Py.truthy d = true ->
  find_entry_in_dir_up_loop fuel fs p path (Some d) idx = Some (Ok (Some d)).
Proof.
  intros Hd. destruct fuel; cbn [find_entry_in_dir_up_loop Py.truthy_opt];
    rewrite Hd; cbn [negb]; now rewrite andb_false_r.
Qed.

Lemma up_loop_stop (fuel : nat) (path : string) (ep : option string)
  (idx : Z) :
  (idx <= 0)%Z ->
  find_entry_in_dir_up_loop fuel fs p path ep idx = Some (Ok ep).
Proof.
  intros Hi. assert ((0 <? idx)%Z = false) as E by (apply Z.ltb_ge; lia).
  destruct fuel; cbn [find_entry_in_dir_up_loop]; rewrite E;
    now rewrite andb_false_r.
Qed.

Lemma up_loop_empty (fuel : nat) (ep : option string) (idx : Z) :
  find_entry_in_dir_up_loop fuel fs p EmptyString ep idx = Some (Ok ep).
Proof. now destruct fuel. Qed.

Lemma up_loop_step (fuel : nat) (path : string) (idx : Z) :
  Py.truthy path = true -> (0 < idx)%Z ->
  find_entry_in_dir_up_loop (S fuel) fs p path None idx
  = match scandir fs path with
    | None => Some (Raise OSError)
    | Some it =>
        find_entry_in_dir_up_loop fuel fs p
          (Py.slice_to path (last_index path OsPath.sep))
          (if existsb p it then Some path else None)
          (last_index path OsPath.sep)
    end.
Proof.
  intros Hp Hi. cbn [find_entry_in_dir_up_loop Py.truthy_opt negb].
  rewrite Hp. replace (0 <? idx)%Z with true by (symmetry; apply Z.ltb_lt; lia).
  reflexivity.
Qed.

Lemma abs_path_nil (cs : list string) :
  abs_path cs = EmptyString -> cs = [].
Proof. destruct cs; [reflexivity | discriminate]. Qed.

Lemma append_nil (a b : string) :
  a ++ b = EmptyString -> a = EmptyString /\ b = EmptyString.
Proof. destruct a; [now cbn | discriminate]. Qed.

Lemma length_zero (s : string) : String.length s = 0 -> s = EmptyString.
Proof. destruct s; [reflexivity | discriminate]. Qed.

Lemma up_loop_ancestors :
  forall (rcs : list string) (head : string) (fuel : nat) (idx : Z),
    no_sep head -> Forall no_sep rcs -> (0 < idx)%Z ->
    String.length (head ++ abs_path (rev rcs)) < fuel ->
    find_entry_in_dir_up_loop fuel fs p (head ++ abs_path (rev rcs)) None idx
    = Some (first_with_match fs p (ancestors_from head rcs)).
Proof.
  induction rcs as [|c r IH]; intros head fuel idx Hh Hcs Hi Hfuel.
  - cbn [rev abs_path ancestors_from] in *. rewrite append_empty_r in *.
    destruct (Py.truthy head) eqn:Et.
    2:{ destruct head; [|discriminate]. apply up_loop_empty. }
    destruct fuel as [|fuel]; [lia|].
    rewrite up_loop_step by assumption. cbn [first_with_match].
    destruct (scandir fs head) as [it|]; [|reflexivity].
    destruct (existsb p it).
    + now apply up_loop_done.
    + apply up_loop_stop. unfold OsPath.sep.
      rewrite last_index_absent by exact Hh. lia.
  - inversion Hcs as [|? ? Hc Hr]; subst.
    cbn [ancestors_from first_with_match].
    cbn [rev] in *. rewrite abs_path_snoc in *.
    set (parent := head ++ abs_path (rev r)) in *.
    assert (head ++ abs_path (rev r) ++ OsPath.sep ++ c
            = parent ++ String OsPath.sep_char c) as Epath.
    { unfold parent. now rewrite append_assoc. }
    rewrite Epath in *.
    assert (Py.truthy (parent ++ String OsPath.sep_char c) = true) as Ht.
    { now destruct parent. }
    destruct fuel as [|fuel]; [lia|].
    rewrite up_loop_step by assumption.
    destruct (scandir fs (parent ++ String OsPath.sep_char c)) as [it|];
      [|reflexivity].
    destruct (existsb p it); [now apply up_loop_done|].
    unfold OsPath.sep. rewrite last_index_last by exact Hc.
    rewrite slice_to_length.
    rewrite length_app in Hfuel. cbn [String.length] in Hfuel.
    destruct (String.length parent) as [|n] eqn:El.
    + apply length_zero in El. rewrite El.
      unfold parent in El. apply append_nil in El as [-> El].
      apply abs_path_nil in El.
      assert (r = []) as -> by (destruct r; [reflexivity|];
        cbn [rev] in El; now destruct (rev r)).
      cbn. apply up_loop_empty.
    + unfold parent. apply IH; try assumption; try lia.
      fold parent. lia.
Qed.

Lemma find_entry_in_dir_up_ancestors (head : string) (cs : list string) :
  no_sep head -> Forall no_sep cs ->
  find_entry_in_dir_up fs (head ++ abs_path cs) p
  = first_with_match fs p (ancestors head cs).
Proof.
  intros Hh Hcs. unfold find_entry_in_dir_up, ancestors.
  rewrite <- (rev_involutive cs) at 1 2.
  rewrite up_loop_ancestors; try assumption; try lia.
  - reflexivity.
  - now apply Forall_rev.
Qed.

End SearchUp.

Section GitRoot.

Variable fs : FS.t.

Lemma find_git_root_loop_up :
  forall (fuel : nat) (path git_root : string) (ep : option string) (idx : Z),
    (git_root = EmptyString /\ ep = None
     \/ Py.truthy git_root = true /\ ep = Some git_root) ->
    find_git_root_loop fuel fs path git_root idx
    = option_map root_string
        (find_entry_in_dir_up_loop fuel fs is_dot_git path ep idx).
Proof.
  induction fuel as [|fuel IH]; intros path g ep idx Hrel;
    cbn [find_git_root_loop find_entry_in_dir_up_loop].
  - destruct Hrel as [[-> ->]|[Hg ->]]; cbn [Py.truthy_opt Py.truthy];
      [|rewrite Hg];
      destruct (Py.truthy path && _ && (0 <? idx)%Z); reflexivity.
  - assert (Py.truthy_opt ep = Py.truthy g) as E.
    { destruct Hrel as [[-> ->]|[Hg ->]]; reflexivity. }
    rewrite E.
    destruct (Py.truthy path && negb (Py.truthy g) && (0 <? idx)%Z) eqn:Eg.
    2:{ destruct Hrel as [[-> ->]|[Hg ->]]; reflexivity. }
    apply andb_prop in Eg as [Eg _]. apply andb_prop in Eg as [Hpath Hg].
    apply negb_true_iff in Hg.
    destruct Hrel as [[-> ->]|[Hg' _]]; [|congruence].
    destruct (scandir fs path) as [it|]; [|reflexivity].
    unfold is_dot_git at 1.
    apply IH. destruct (existsb _ it); auto.
Qed.

End GitRoot.

Lemma ancestors_from_not_root (rcs : list string) (d : string) :
  Forall (fun c => Py.truthy c = true) rcs ->
  In d (ancestors_from EmptyString rcs) -> d <> OsPath.sep.
Proof.
  induction rcs as [|c r IH]; intros Hcs; cbn [ancestors_from Py.truthy In].
  - tauto.
  - inversion Hcs as [|? ? Hc Hr]; subst. intros [<-|Hin]; [|now apply IH].
    cbn [append].
    assert (Forall (fun c => Py.truthy c = true) (rev (c :: r))) as Hrev
      by now apply Forall_rev.
    destruct (rev (c :: r)) as [|c1 l] eqn:Er.
    { cbn [rev] in Er. now destruct (rev r). }
    inversion Hrev as [|? ? Hc1 _]; subst.
    destruct c1; [discriminate|]. discriminate.
Qed.

(** ** What the stages add to the trace *)

Section Emits.






Variable root : string.













Variables ue project asset : string.







Hypothesis asset_truthy : Py.truthy asset = true.




End Emits.


Lemma get_valid_asset_path_isfile (rel : string) (env : Env)
  (st st' : State) (asset : string) :
  get_valid_asset_path rel env st = (Ok asset, st') ->
  isfile (st_fs st) asset = true.
Proof.
  unfold get_valid_asset_path, bind, ask, get_fs, ret, raise.
  destruct (isfile (st_fs st) _) eqn:E; cbn [negb]; intros H;
    inversion H; subst. exact E.
Qed.




(** ** Existing files and directories survive a run *)

Section Frame.

Lemma find_child_app_other (x : string) (cs : list node) (e : node) :
  node_name e <> x -> find_child x (cs ++ [e]) = find_child x cs.
Proof.
  intros Hx. unfold find_child.
  induction cs as [|a r IH]; cbn [app find].
  - now apply String.eqb_neq in Hx as ->.
  - destruct (String.eqb (node_name a) x); [reflexivity | exact IH].
Qed.

Lemma put_file_keeps_others (data : list byte) :
  keeps_others (put_file data).
Proof.
  intros c cs cs' x. unfold put_file.
  destruct (special_name c); [discriminate|].
  destruct (find_child c cs) as [[fn fd|dn dcs]|] eqn:Ec.
  - intros H Hx. eapply replace_child_other; [|eassumption|assumption].
    intros e e' _ He. now inversion He.
  - discriminate.
  - intros H Hx. inversion H. apply find_child_app_other. cbn. congruence.
Qed.

Lemma make_dir_keeps_others : keeps_others make_dir.
Proof.
  intros c cs cs' x. unfold make_dir.
  destruct (special_name c); [discriminate|].
  destruct (find_child c cs) as [e|] eqn:Ec; [discriminate|].
  intros H Hx. inversion H. apply find_child_app_other. cbn. congruence.
Qed.

Lemma remove_file_keeps_others : keeps_others remove_file.
Proof.
  intros c cs cs' x. unfold remove_file.
  destruct (find_child c cs) as [[fn fd|dn dcs]|] eqn:Ec; try discriminate.
  intros H Hx. inversion H. now apply remove_child_other.
Qed.

Lemma make_dir_keeps_dirs : keeps_dirs make_dir.
Proof.
  intros c cs cs' x n1 cs1. unfold make_dir.
  destruct (special_name c); [discriminate|].
  destruct (find_child c cs) as [e|] eqn:Ec; [discriminate|].
  intros H Hx. inversion H. now apply find_child_app_l.
Qed.

Lemma walk_from_file_cons (fn : string) (fd : list byte) (x : string)
  (q : list string) :
  walk (File fn fd) (x :: q) = None.
Proof. reflexivity. Qed.

(** An update leaves alone every regular file that does not lie at or
    below its path. *)
Lemma update_keeps_file (f : string -> list node -> option (list node)) :
  keeps_others f ->
  forall (comps q : list string) (n : string) (cs cs' : list node)
         (fn : string) (fd : list byte),
    update comps f cs = Some cs' -> outside comps q ->
    walk (Dir n cs) q = Some (File fn fd) ->
    walk (Dir n cs') q = Some (File fn fd).
Proof.
  intros Hf. induction comps as [|c rest IH];
    intros q n cs cs' fn fd Hu Hout Hw; [discriminate|].
  destruct q as [|x q']; [discriminate|].
  cbn [walk] in Hw |- *.
  destruct rest as [|c2 rest].
  - cbn [update] in Hu.
    assert (x <> c) as Hx.
    { intros ->. now apply (Hout q'). }
    now rewrite (Hf _ _ _ _ Hu Hx).
  - rewrite update_cons2 in Hu.
    destruct (String.eqb x c) eqn:Exc.
    + apply String.eqb_eq in Exc. subst x.
      apply replace_child_inv in Hu as (e & e' & Hfind & Hg & Hn).
      rewrite Hfind in Hw.
      destruct e as [en ed|n1 cs1]; [discriminate Hg|].
      destruct (update (c2 :: rest) f cs1) as [cs1'|] eqn:Eu;
        [|discriminate Hg].
      cbn [option_map] in Hg. inversion Hg; subst e'.
      apply find_child_some in Hfind as [_ Hname]. cbn [node_name] in Hname.
      rewrite (Hn Hname). apply (IH q' n1 cs1 cs1' fn fd Eu); [|exact Hw].
      intros r Hr. apply (Hout r). cbn [app]. now rewrite Hr.
    + apply String.eqb_neq in Exc.
      assert (find_child x cs' = find_child x cs) as ->; [|exact Hw].
      eapply replace_child_other; [|eassumption|assumption].
      intros e e' He Hg. destruct e as [|dn dcs]; [discriminate Hg|].
      destruct (update (c2 :: rest) f dcs); [|discriminate Hg].
      cbn in Hg. inversion Hg. exact He.
Qed.

Lemma update_same_at (f : string -> list node -> option (list node))
  (fs fs' : FS.t) (comps : list string) (path : string) :
  keeps_others f -> keeps_dirs f ->
  update comps f fs = Some fs' -> outside comps (components path) ->
  same_at fs fs' path.
Proof.
  intros Ho Hd Hu Hout. unfold same_at, FS.read, isdir, resolve.
  destruct (Py.truthy path); [|split; discriminate].
  destruct (walk (Dir EmptyString fs) (components path))
    as [[fn fd|m cs2]|] eqn:Ew; split; try discriminate.
  - intros d Hdata.
    now rewrite (@update_keeps_file f Ho comps _ EmptyString fs fs' fn fd
                   Hu Hout Ew).
  - intros _.
    destruct (@update_keeps_dir f Hd comps _ EmptyString fs fs' m cs2 Hu Ew)
      as [cs2' ->].
    reflexivity.
Qed.

Lemma same_at_refl (fs : FS.t) (path : string) : same_at fs fs path.
Proof. split; auto. Qed.

Lemma same_at_trans (fs1 fs2 fs3 : FS.t) (path : string) :
  same_at fs1 fs2 path -> same_at fs2 fs3 path -> same_at fs1 fs3 path.
Proof. intros [H1 H2] [H3 H4]. split; auto. Qed.

Lemma outside_app (t n q : list string) :
  outside t q -> outside (t ++ n) q.
Proof. intros H r Hr. apply (H (n ++ r)%list). now rewrite app_assoc. Qed.

Lemma keeps_outside_bind (A B : Type) (t : list string) (m : M A)
  (k : A -> M B) :
  keeps_outside t m -> (forall a, keeps_outside t (k a)) ->
  keeps_outside t (bind m k).
Proof.
  intros Hm Hk env st path Hout. unfold bind.
  specialize (Hm env st path Hout).
  destruct (m env st) as [[a|e] st1]; cbn [snd] in *; [|assumption].
  eapply same_at_trans; [eassumption | now apply Hk].
Qed.

Lemma keeps_outside_keeps_fs (A : Type) (t : list string) (m : M A) :
  keeps_fs m -> keeps_outside t m.
Proof. intros Hm env st path _. rewrite Hm. apply same_at_refl. Qed.

Lemma keeps_fs_reader (A : Type) (m : M A) : reader m -> keeps_fs m.
Proof. intros Hm env st. now rewrite Hm. Qed.

Lemma keeps_fs_run_cmd_capture_blob (cwd : string) (cmd : list string) :
  keeps_fs (run_cmd_capture_blob cwd cmd).
Proof. intros env st. now rewrite run_cmd_capture_blob_eq. Qed.

Lemma keeps_outside_open_write (t n : list string) (path : string)
  (data : list byte) :
  components path = (t ++ n)%list ->
  keeps_outside t (open_write path data).
Proof.
  intros Hp env st q Hout. rewrite open_write_eq.
  destruct (FS.write (st_fs st) path data) as [fs'|] eqn:Ew; cbn [snd st_fs];
    [|apply same_at_refl].
  eapply update_same_at;
    [apply put_file_keeps_others | apply put_file_keeps_dirs
    | exact Ew | rewrite Hp; now apply outside_app].
Qed.

Lemma keeps_outside_os_unlink (t n : list string) (path : string) :
  components path = (t ++ n)%list ->
  keeps_outside t (os_unlink path).
Proof.
  intros Hp env st q Hout. rewrite os_unlink_eq.
  destruct (FS.unlink (st_fs st) path) as [fs'|] eqn:Ew; cbn [snd st_fs];
    [|apply same_at_refl].
  eapply update_same_at;
    [apply remove_file_keeps_others | apply remove_file_keeps_dirs
    | exact Ew | rewrite Hp; now apply outside_app].
Qed.

(** A path that names something lies outside every path that names
    nothing. *)
Lemma outside_fresh (fs : FS.t) (t q : list string) :
  walk (Dir EmptyString fs) t = None ->
  walk (Dir EmptyString fs) q <> None ->
  outside t q.
Proof.
  intros Ht Hq r ->. apply Hq. now rewrite walk_app, Ht.
Qed.

Lemma components_join_rel (d n : string) :
  Py.truthy d = true -> Py.startswith n OsPath.sep = false ->
  components (OsPath.join d n) = (components d ++ components n)%list.
Proof.
  intros Ht Hs. unfold OsPath.join. rewrite Hs, Ht. cbn [negb orb].
  destruct (Py.endswith d OsPath.sep) eqn:He.
  - apply endswith_sep in He as [d' ->].
    rewrite append_assoc, components_app_sep.
    rewrite <- (append_empty_r (d' ++ OsPath.sep)), append_assoc.
    rewrite components_app_sep, components_empty, app_nil_r.
    reflexivity.
  - now rewrite components_app_sep.
Qed.

Lemma temp_name_relative (asset_path revision : string) :
  Py.startswith
    (OsPath.basename (fst (OsPath.splitext asset_path)) ++ "_" ++ revision
     ++ snd (OsPath.splitext asset_path)) OsPath.sep = false.
Proof.
  pose proof (basename_no_sep (fst (OsPath.splitext asset_path))) as Hb.
  destruct (OsPath.basename (fst (OsPath.splitext asset_path)))
    as [|a r]; [reflexivity|].
  cbn [append]. rewrite startswith_sep_cons.
  cbn [Py.has_char] in Hb. now apply orb_false_elim in Hb as [-> _].
Qed.

Lemma mkdtemp_try_fresh (names : list string) (fs fs' : FS.t) (d : string) :
  mkdtemp_try names fs = Ok (d, fs') ->
  Py.truthy d = true /\
  walk (Dir EmptyString fs) (components d) = None /\
  FS.mkdir fs d = Some fs'.
Proof.
  intros H. apply mkdtemp_try_ok in H as (_ & Hx & Hm).
  unfold exists_, resolve in Hx.
  destruct (Py.truthy d) eqn:Et.
  - repeat split; [|exact Hm].
    now destruct (walk (Dir EmptyString fs) (components d)).
  - destruct d; [|discriminate]. discriminate Hm.
Qed.

Lemma resolve_walk (fs : FS.t) (path : string) :
  resolve fs path <> None ->
  walk (Dir EmptyString fs) (components path) <> None.
Proof. unfold resolve. now destruct (Py.truthy path). Qed.

Lemma same_at_named (fs fs' : FS.t) (path : string) :
  (resolve fs path <> None -> same_at fs fs' path) -> same_at fs fs' path.
Proof.
  intros H. split.
  - intros d Hd. apply H; [|exact Hd].
    unfold FS.read in Hd. now destruct (resolve fs path).
  - intros Hd. apply H; [|exact Hd].
    unfold isdir in Hd. now destruct (resolve fs path).
Qed.

Lemma get_asset_temp_path_eq (asset_path revision : string) (env : Env)
  (st : State) :
  get_asset_temp_path asset_path revision env st
  = match mkdtemp_try (tmp_candidates env) (st_fs st) with
    | Ok (d, fs') =>
        (Ok (OsPath.join d
               (OsPath.basename (fst (OsPath.splitext asset_path)) ++ "_"
                ++ revision ++ snd (OsPath.splitext asset_path))),
         mkState fs' (st_trace st ++ [Mkdtemp]))
    | Raise e => (Raise e, mkState (st_fs st) (st_trace st ++ [Mkdtemp]))
    end.
Proof.
  unfold get_asset_temp_path, bind. rewrite mkdtemp_eq.
  now destruct (mkdtemp_try (tmp_candidates env) (st_fs st)) as [[d fs']|e].
Qed.

Lemma diff_normal_after_mkdtemp
  (git_root asset_path revision ue project d : string) :
  Py.truthy d = true ->
  keeps_outside (components d)
    (let tmp_path :=
       OsPath.join d
         (OsPath.basename (fst (OsPath.splitext asset_path)) ++ "_"
          ++ revision ++ snd (OsPath.splitext asset_path)) in
     git_download_asset_revision git_root asset_path revision tmp_path ;;;
     run_cmd git_root
       (create_diff_command_parts ue project tmp_path (Some asset_path)) ;;;
     os_unlink tmp_path).
Proof.
  intros Ht. cbv zeta.
  set (tmp_path := OsPath.join d _).
  assert (components tmp_path
          = (components d ++ components
               (OsPath.basename (fst (OsPath.splitext asset_path)) ++ "_"
                ++ revision ++ snd (OsPath.splitext asset_path)))%list)
    as Hc.
  { unfold tmp_path. apply components_join_rel; [exact Ht|].
    apply temp_name_relative. }
  apply keeps_outside_bind.
  - unfold git_download_asset_revision.
    apply keeps_outside_bind.
    { apply keeps_outside_keeps_fs, keeps_fs_reader,
        get_git_relative_asset_path_reader. }
    intros rel. apply keeps_outside_bind.
    { apply keeps_outside_keeps_fs, keeps_fs_run_cmd_capture_blob. }
    intros raw. eapply keeps_outside_open_write. exact Hc.
  - intros _. apply keeps_outside_bind.
    { apply keeps_outside_keeps_fs, keeps_fs_run_cmd. }
    intros _. eapply keeps_outside_os_unlink. exact Hc.
Qed.

Lemma diff_normal_same_at
  (git_root asset_path revision ue project : string) (env : Env)
  (st : State) (path : string) :
  same_at (st_fs st)
    (st_fs (snd (diff_normal git_root asset_path revision ue project
                   env st))) path.
Proof.
  apply same_at_named. intros Hnamed. apply resolve_walk in Hnamed.
  unfold diff_normal.
  pose proof (get_asset_temp_path_eq asset_path revision env st) as Eg.
  destruct (mkdtemp_try (tmp_candidates env) (st_fs st)) as [[d fs1]|e]
    eqn:Em.
  2:{ erewrite bind_raise by exact Eg. apply same_at_refl. }
  erewrite bind_ok by exact Eg.
  apply mkdtemp_try_fresh in Em as (Ht & Hfresh & Hmk).
  pose proof (@outside_fresh _ _ _ Hfresh Hnamed) as Hout.
  eapply same_at_trans.
  { eapply update_same_at;
      [apply make_dir_keeps_others | apply make_dir_keeps_dirs
      | exact Hmk | exact Hout]. }
  exact (@diff_normal_after_mkdtemp git_root asset_path revision ue project
           d Ht env (mkState fs1 (st_trace st ++ [Mkdtemp])) path Hout).
Qed.

End Frame.

Lemma keeps_existing_bind (A B : Type) (m : M A) (k : A -> M B) :
  keeps_existing m -> (forall a, keeps_existing (k a)) ->
  keeps_existing (bind m k).
Proof.
  intros Hm Hk env st path. unfold bind. specialize (Hm env st path).
  destruct (m env st) as [[a|e] st1]; cbn [snd] in *; [|assumption].
  eapply same_at_trans; [eassumption | apply Hk].
Qed.

Lemma keeps_existing_keeps_fs (A : Type) (m : M A) :
  keeps_fs m -> keeps_existing m.
Proof. intros Hm env st path. rewrite Hm. apply same_at_refl. Qed.

Lemma keeps_existing_main (relative_asset_path : string) :
  keeps_existing (main relative_asset_path).
Proof.
  unfold main.
  apply keeps_existing_bind;
    [apply keeps_existing_keeps_fs, keeps_fs_reader, find_git_root_reader
    | intros git_root].
  apply keeps_existing_bind;
    [apply keeps_existing_keeps_fs, keeps_fs_reader,
       get_valid_asset_path_reader
    | intros asset_path].
  apply keeps_existing_bind;
    [apply keeps_existing_keeps_fs, keeps_fs_reader, get_project_path_reader
    | intros project_path].
  apply keeps_existing_bind;
    [apply keeps_existing_keeps_fs, keeps_fs_reader, get_ue_bin_path_reader
    | intros ue].
  apply keeps_existing_bind;
    [apply keeps_existing_keeps_fs, keeps_fs_reader, os_path_relpath_reader
    | intros rel].
  apply keeps_existing_bind;
    [apply keeps_existing_keeps_fs, keeps_fs_quiet,
       quiet_git_find_last_revision
    | intros revision].
  apply keeps_existing_bind;
    [apply keeps_existing_keeps_fs, keeps_fs_quiet, quiet_git_is_lfs
    | intros is_lfs].
  destruct is_lfs.
  - apply keeps_existing_keeps_fs, keeps_fs_diff_lfs.
  - intros env st path. apply diff_normal_same_at.
Qed.

(** ** The name of the temporary file *)

Section TempName.

Lemma str_take_drop (n : nat) (s : string) :
  Py.str_take n s ++ Py.str_drop n s = s.
Proof.
  revert s. induction n as [|n IH]; intros [|c r]; cbn; try reflexivity.
  now rewrite IH.
Qed.

Lemma str_take_app_ge (n : nat) (a s : string) :
  String.length a <= n ->
  Py.str_take n (a ++ s) = a ++ Py.str_take (n - String.length a) s.
Proof.
  revert n. induction a as [|d r IH]; intros n Hn; cbn [append String.length].
  - now rewrite Nat.sub_0_r.
  - destruct n as [|n]; [simpl in Hn; lia|]. cbn [Py.str_take].
    simpl in Hn. rewrite IH by lia. reflexivity.
Qed.

Lemma rfind_lower (c : ascii) (s : string) : (-1 <= Py.rfind c s)%Z.
Proof.
  unfold Py.rfind.
  destruct (rfind_from_spec c s 0 (-1)) as [[_ ->]|(a & b & _ & _ & ->)];
    lia.
Qed.

Lemma basename_plain (s : string) :
  Py.has_char OsPath.sep_char s = false -> OsPath.basename s = s.
Proof.
  intros H. unfold OsPath.basename, Py.rfind.
  now rewrite rfind_from_no_char by exact H.
Qed.

(** The base name of the root and the extension make up the base name of
    the path. *)
Lemma basename_splitext (p : string) :
  OsPath.basename (fst (OsPath.splitext p)) ++ snd (OsPath.splitext p)
  = OsPath.basename p.
Proof.
  unfold OsPath.splitext.
  destruct ((Py.rfind OsPath.sep_char p <? Py.rfind "." p)%Z
            && OsPath.has_non_dot p _ _) eqn:E; cbn [fst snd].
  2:{ apply append_empty_r. }
  apply andb_prop in E as [E _]. apply Z.ltb_lt in E.
  set (n := Z.to_nat (Py.rfind "." p)).
  unfold Py.rfind in E at 1.
  destruct (rfind_from_spec OsPath.sep_char p 0 (-1))
    as [[Hn Hr]|(a & b & Hp & Hb & Hr)].
  - rewrite (basename_plain _ Hn).
    rewrite basename_plain by now apply has_char_take.
    apply str_take_drop.
  - rewrite Hr in E.
    assert (p = (a ++ OsPath.sep) ++ b) as Hp'.
    { rewrite Hp, append_assoc. reflexivity. }
    assert (String.length (a ++ OsPath.sep) <= n) as Hlen.
    { rewrite length_app. cbn [OsPath.sep String.length]. unfold n. lia. }
    rewrite Hp' at 1 2 3.
    rewrite str_take_app_ge, str_drop_app_ge by exact Hlen.
    rewrite !basename_after_sep;
      [apply str_take_drop | exact Hb | now apply has_char_take].
Qed.

(** The extension is empty, or a dot followed by characters other than
    the dot. *)
Lemma splitext_ext_shape (p : string) :
  snd (OsPath.splitext p) = EmptyString
  \/ exists e,
       snd (OsPath.splitext p) = String "." e /\ Py.has_char "." e = false.
Proof.
  unfold OsPath.splitext.
  destruct ((Py.rfind OsPath.sep_char p <? Py.rfind "." p)%Z
            && OsPath.has_non_dot p _ _) eqn:E; cbn [snd]; [|now left].
  right. apply andb_prop in E as [E _]. apply Z.ltb_lt in E.
  pose proof (rfind_lower OsPath.sep_char p) as Hlow.
  unfold Py.rfind in E at 2. unfold Py.rfind at 1.
  destruct (rfind_from_spec "." p 0 (-1))
    as [[_ Hr]|(a & b & Hp & Hb & Hr)]; rewrite Hr in *; [lia|].
  exists b. split; [|exact Hb].
  rewrite Hp. replace (Z.to_nat (0 + Z.of_nat (String.length a)))
    with (String.length a) by lia.
  apply str_drop_app.
Qed.

End TempName.

(** ** [str.strip] *)

Section Strip.

Lemma lstrip_split (s : string) :
  exists pre,
    s = pre ++ Py.lstrip s /\ all_space pre = true
    /\ starts_clean (Py.lstrip s) = true.
Proof.
  induction s as [|c r (pre & Hs & Hp & Hc)]; [now exists EmptyString|].
  cbn [Py.lstrip]. destruct (Py.isspace c) eqn:Ec.
  - exists (String c pre). cbn [append all_space]. rewrite Ec, Hp.
    now rewrite <- Hs.
  - exists EmptyString. cbn. now rewrite Ec.
Qed.

Lemma all_space_app (a b : string) :
  all_space (a ++ b) = all_space a && all_space b.
Proof.
  induction a as [|c r IH]; cbn; [reflexivity|].
  now rewrite IH, andb_assoc.
Qed.

Lemma all_space_rev (s : string) : all_space (Py.str_rev s) = all_space s.
Proof.
  induction s as [|c r IH]; [reflexivity|].
  cbn [Py.str_rev all_space]. rewrite all_space_app, IH. cbn.
  rewrite andb_true_r. apply andb_comm.
Qed.

Lemma starts_clean_prefix (a b : string) :
  starts_clean (a ++ b) = true -> Py.truthy a = true ->
  starts_clean a = true.
Proof. destruct a; [discriminate | now cbn]. Qed.

(** [strip] returns what stands between the leading and the trailing
    whitespace. *)
Lemma strip_split (s : string) :
  exists pre post,
    s = pre ++ Py.strip s ++ post
    /\ all_space pre = true /\ all_space post = true
    /\ starts_clean (Py.strip s) = true
    /\ starts_clean (Py.str_rev (Py.strip s)) = true.
Proof.
  unfold Py.strip.
  destruct (lstrip_split s) as (pre & Hs & Hpre & Hc).
  destruct (lstrip_split (Py.str_rev (Py.lstrip s))) as (w & Hr & Hw & Hu).
  set (u := Py.lstrip (Py.str_rev (Py.lstrip s))) in *.
  assert (Py.lstrip s = Py.str_rev u ++ Py.str_rev w) as Ht.
  { rewrite <- (str_rev_involutive (Py.lstrip s)), Hr. apply str_rev_app. }
  exists pre, (Py.str_rev w). repeat split.
  - now rewrite <- Ht.
  - exact Hpre.
  - now rewrite all_space_rev.
  - rewrite Ht in Hc. destruct (Py.str_rev u) eqn:Eu; [reflexivity|].
    exact Hc.
  - now rewrite str_rev_involutive.
Qed.

End Strip.

(** ** [os.path.normpath] of an absolute path *)

Section Normpath.

Lemma split_pieces_no_sep (c : ascii) (s : string) :
  Forall (fun w => Py.has_char c w = false) (Py.split c s).
Proof.
  induction s as [|d r IH]; cbn [Py.split].
  - now repeat constructor.
  - destruct (Ascii.eqb d c) eqn:Ed.
    + now constructor.
    + destruct (Py.split c r) as [|w ws].
      * repeat constructor. cbn. now rewrite Ed.
      * inversion IH as [|? ? Hw Hws]; subst. constructor; [|assumption].
        cbn. now rewrite Ed.
Qed.

Lemma Forall_removelast (A : Type) (P : A -> Prop) (l : list A) :
  Forall P l -> Forall P (removelast l).
Proof.
  induction l as [|a r IH]; [auto|]. intros H.
  inversion H as [|? ? Ha Hr]; subst. cbn [removelast].
  destruct r; [constructor|]. constructor; auto.
Qed.

Lemma last_in (l : list string) (d : string) :
  OsPath.is_nil l = false -> In (last l d) l.
Proof.
  induction l as [|a r IH]; [discriminate|]. intros _.
  destruct r as [|b r']; [now left|]. right. now apply IH.
Qed.

Lemma normpath_step_valid (k : nat) (acc : list string) (comp : string) :
  k <> 0 ->
  Forall (fun c => valid_name c = true) acc ->
  Py.has_char OsPath.sep_char comp = false ->
  Forall (fun c => valid_name c = true) (OsPath.normpath_step k acc comp).
Proof.
  intros Hk Hacc Hsep. unfold OsPath.normpath_step.
  destruct (String.eqb comp EmptyString) eqn:E0; [assumption|].
  destruct (String.eqb comp ".") eqn:E1; [assumption|].
  cbn [orb].
  destruct (String.eqb comp "..") eqn:E2; cbn [negb orb].
  - assert ((k =? 0)%nat = false) as -> by now apply Nat.eqb_neq.
    cbn [andb orb].
    destruct (OsPath.is_nil acc) eqn:En; cbn [negb andb]; [assumption|].
    destruct (String.eqb (last acc EmptyString) "..") eqn:El.
    + apply String.eqb_eq in El.
      pose proof (@last_in acc EmptyString En) as Hin. rewrite El in Hin.
      rewrite Forall_forall in Hacc. now apply Hacc in Hin.
    + now apply Forall_removelast.
  - apply Forall_app. split; [assumption|]. repeat constructor.
    unfold valid_name, special_name. rewrite E1, E2, Hsep.
    destruct comp; [discriminate | reflexivity].
Qed.

Lemma fold_normpath_valid (k : nat) (pieces acc : list string) :
  k <> 0 ->
  Forall (fun w => Py.has_char OsPath.sep_char w = false) pieces ->
  Forall (fun c => valid_name c = true) acc ->
  Forall (fun c => valid_name c = true)
    (fold_left (OsPath.normpath_step k) pieces acc).
Proof.
  intros Hk. revert acc.
  induction pieces as [|w ws IH]; intros acc Hp Hacc; [assumption|].
  inversion Hp as [|? ? Hw Hws]; subst. cbn [fold_left].
  apply IH; [assumption|]. now apply normpath_step_valid.
Qed.

Lemma components_concat (comps : list string) :
  Forall (fun c => valid_name c = true) comps ->
  components (String.concat OsPath.sep comps) = comps.
Proof.
  induction comps as [|c r IH]; intros H; [reflexivity|].
  inversion H as [|? ? Hc Hr]; subst. cbn [String.concat].
  destruct r as [|c2 r'].
  - now apply components_name.
  - rewrite components_app_sep, (components_name _ Hc), (IH Hr).
    reflexivity.
Qed.

Lemma components_sep_cons (s : string) :
  components (OsPath.sep ++ s) = components s.
Proof.
  change (OsPath.sep ++ s) with (EmptyString ++ OsPath.sep ++ s).
  now rewrite components_app_sep.
Qed.

(** The normal form of an absolute path: one or two slashes, then valid
    names joined by single slashes. *)
Lemma normpath_abs (path : string) :
  OsPath.isabs path = true ->
  OsPath.isabs (OsPath.normpath path) = true
  /\ Forall (fun c => valid_name c = true)
       (components (OsPath.normpath path))
  /\ (OsPath.normpath path
      = OsPath.sep ++ String.concat OsPath.sep
                        (components (OsPath.normpath path))
      \/ OsPath.normpath path
         = OsPath.sep ++ OsPath.sep
           ++ String.concat OsPath.sep (components (OsPath.normpath path))).
Proof.
  intros Habs. unfold OsPath.normpath.
  destruct (String.eqb path EmptyString) eqn:E0.
  { apply String.eqb_eq in E0. subst. discriminate. }
  unfold OsPath.isabs in Habs. rewrite Habs.
  set (k := if Py.startswith path "//" && negb (Py.startswith path "///")
            then 2 else 1).
  assert (k <> 0) as Hk by (unfold k; destruct (_ && _); discriminate).
  set (comps := fold_left (OsPath.normpath_step k)
                  (Py.split OsPath.sep_char path) []).
  assert (Forall (fun c => valid_name c = true) comps) as Hv.
  { apply fold_normpath_valid;
      [assumption | apply split_pieces_no_sep | constructor]. }
  assert (OsPath.str_repeat OsPath.sep k ++ String.concat OsPath.sep comps
          = OsPath.sep ++ String.concat OsPath.sep comps
          \/ OsPath.str_repeat OsPath.sep k ++ String.concat OsPath.sep comps
             = OsPath.sep ++ OsPath.sep ++ String.concat OsPath.sep comps)
    as Hform.
  { unfold k. destruct (_ && _); [right | left]; reflexivity. }
  assert (components
            (OsPath.str_repeat OsPath.sep k ++ String.concat OsPath.sep comps)
          = comps) as Hc.
  { destruct Hform as [-> | ->]; rewrite ?components_sep_cons;
      now apply components_concat. }
  assert (Py.truthy
            (OsPath.str_repeat OsPath.sep k ++ String.concat OsPath.sep comps)
          = true) as Ht.
  { destruct Hform as [-> | ->]; reflexivity. }
  rewrite Ht, Hc. split; [|split; assumption].
  unfold OsPath.isabs.
  destruct Hform as [-> | ->]; exact (startswith_sep_cons "/" _).
Qed.

End Normpath.

(** ** What the project lookup returns *)




(** ** The path of an asset from the repository root *)

Section RelPath.

Lemma abs_path_concat (c : string) (r : list string) :
  abs_path (c :: r) = OsPath.sep ++ String.concat OsPath.sep (c :: r).
Proof.
  revert c. induction r as [|c2 r IH]; intros c.
  - cbn [abs_path String.concat]. now rewrite append_empty_r.
  - cbn [abs_path String.concat] in *. now rewrite IH.
Qed.

Lemma concat_abs_path (c : string) (r : list string) :
  String.concat OsPath.sep (c :: r) = c ++ abs_path r.
Proof.
  destruct r as [|c2 r]; cbn [String.concat].
  - cbn [abs_path]. now rewrite append_empty_r.
  - now rewrite abs_path_concat.
Qed.

Lemma valid_name_no_sep (c : string) :
  valid_name c = true -> Py.has_char OsPath.sep_char c = false.
Proof. intros H. now apply valid_name_parts in H. Qed.

Lemma valid_name_truthy (c : string) :
  valid_name c = true -> Py.truthy c = true.
Proof. intros H. now apply valid_name_parts in H. Qed.

Lemma components_abs_path (cs : list string) :
  Forall (fun c => valid_name c = true) cs ->
  components (abs_path cs) = cs.
Proof.
  intros H. destruct cs as [|c r]; [reflexivity|].
  rewrite abs_path_concat, components_sep_cons.
  now apply components_concat.
Qed.

Lemma split_abs_path (c : string) (r : list string) :
  Forall (fun c => valid_name c = true) (c :: r) ->
  Py.split OsPath.sep_char (c ++ abs_path r) = c :: r.
Proof.
  revert c. induction r as [|c2 r IH]; intros c H;
    inversion H as [|? ? Hc Hr]; subst.
  - cbn [abs_path]. rewrite append_empty_r.
    now apply split_no_sep, valid_name_no_sep.
  - cbn [abs_path]. unfold OsPath.sep. cbn [append].
    fold OsPath.sep_char. rewrite split_app_sep.
    rewrite (IH _ Hr), split_no_sep by now apply valid_name_no_sep.
    reflexivity.
Qed.

Lemma normpath_step_keeps (k : nat) (acc : list string) (c : string) :
  valid_name c = true ->
  OsPath.normpath_step k acc c = (acc ++ [c])%list.
Proof.
  intros H. unfold valid_name, special_name in H.
  apply andb_prop in H as [H _]. apply andb_prop in H as [Ht Hs].
  apply negb_true_iff, orb_false_elim in Hs as [H1 H2].
  unfold OsPath.normpath_step. rewrite H1, H2.
  destruct c; [discriminate|]. reflexivity.
Qed.

Lemma fold_normpath_keeps (k : nat) (cs acc : list string) :
  Forall (fun c => valid_name c = true) cs ->
  fold_left (OsPath.normpath_step k) cs acc = (acc ++ cs)%list.
Proof.
  revert acc. induction cs as [|c r IH]; intros acc H.
  - now rewrite app_nil_r.
  - inversion H as [|? ? Hc Hr]; subst. cbn [fold_left].
    rewrite normpath_step_keeps by assumption.
    rewrite IH by assumption. now rewrite <- app_assoc.
Qed.

(** A path made of valid names is its own normal form. *)
Lemma normpath_abs_path (c : string) (r : list string) :
  Forall (fun c => valid_name c = true) (c :: r) ->
  OsPath.normpath (abs_path (c :: r)) = abs_path (c :: r).
Proof.
  intros H. inversion H as [|? ? Hc Hr]; subst.
  unfold OsPath.normpath.
  assert (Py.split OsPath.sep_char (abs_path (c :: r))
          = EmptyString :: c :: r) as Hsplit.
  { cbn [abs_path]. unfold OsPath.sep.
    change (Py.split OsPath.sep_char
              (EmptyString ++ String OsPath.sep_char (c ++ abs_path r))
            = EmptyString :: c :: r).
    rewrite split_app_sep, split_abs_path by assumption. reflexivity. }
  rewrite Hsplit. cbn [fold_left].
  change (OsPath.normpath_step _ [] EmptyString) with (@nil string).
  rewrite fold_normpath_keeps by assumption.
  assert (Py.startswith (abs_path (c :: r)) "//" = false) as H2.
  { cbn [abs_path]. unfold OsPath.sep. cbn [append].
    pose proof (valid_name_no_sep _ Hc) as Hs.
    pose proof (valid_name_truthy _ Hc) as Ht.
    destruct c as [|a c']; [discriminate|].
    cbn [append]. unfold Py.startswith. cbn [prefix].
    destruct (ascii_dec "/" "/") as [_|Hn]; [|congruence].
    destruct (ascii_dec "/" a) as [<-|_]; [|reflexivity].
    cbn in Hs. discriminate. }
  rewrite H2. cbn [andb].
  assert (Py.startswith (abs_path (c :: r)) OsPath.sep = true) as H1.
  { cbn [abs_path]. exact (startswith_sep_cons "/" _). }
  rewrite H1.
  assert (String.eqb (abs_path (c :: r)) EmptyString = false) as ->.
  { reflexivity. }
  cbn [OsPath.str_repeat]. rewrite append_empty_r.
  rewrite normpath_step_keeps by assumption. cbn [app].
  rewrite <- abs_path_concat. reflexivity.
Qed.

Lemma common_len_app (l m : list string) :
  OsPath.common_len l (l ++ m) = List.length l.
Proof.
  induction l as [|a r IH]; [now destruct m|].
  cbn [OsPath.common_len app List.length]. now rewrite String.eqb_refl, IH.
Qed.

Lemma skipn_length_app (l m : list string) :
  skipn (List.length l) (l ++ m) = m.
Proof. induction l as [|a r IH]; [reflexivity | exact IH]. Qed.

Lemma join_all_abs_path (p : list string) :
  forall a,
    Py.truthy a = true -> Py.endswith a OsPath.sep = false ->
    Forall (fun c => valid_name c = true) p ->
    OsPath.join_all a p = a ++ abs_path p.
Proof.
  unfold OsPath.join_all.
  induction p as [|c r IH]; intros a Ha He Hp; cbn [fold_left abs_path].
  - now rewrite append_empty_r.
  - inversion Hp as [|? ? Hc Hr]; subst.
    rewrite join_plain by (try assumption; now apply valid_name_no_sep).
    rewrite IH; try assumption.
    + now rewrite !append_assoc.
    + now apply truthy_app_l.
    + rewrite <- append_assoc.
      apply endswith_app_no_sep;
        [now apply valid_name_truthy | now apply valid_name_no_sep].
Qed.

(** For an asset below the root, [relpath] gives the names that lead
    from the root to the asset, joined by slashes. *)
Lemma relpath_below (cwd r0 a0 : string) (rs rest : list string) :
  Forall (fun c => valid_name c = true) (r0 :: rs) ->
  Forall (fun c => valid_name c = true) (a0 :: rest) ->
  OsPath.relpath cwd (abs_path ((r0 :: rs) ++ a0 :: rest))
    (abs_path (r0 :: rs))
  = Some (String.concat OsPath.sep (a0 :: rest)).
Proof.
  intros Hr Ha.
  assert (Forall (fun c => valid_name c = true) ((r0 :: rs) ++ a0 :: rest))
    as Hall by (apply Forall_app; now split).
  unfold OsPath.relpath, OsPath.abspath.
  assert (forall c r, OsPath.isabs (abs_path (c :: r)) = true) as Habs.
  { intros c r. cbn [abs_path]. exact (startswith_sep_cons "/" _). }
  cbn [app] in *. rewrite !Habs.
  rewrite (normpath_abs_path Hr), (normpath_abs_path Hall).
  change (filter Py.truthy (Py.split OsPath.sep_char ?x))
    with (components x).
  rewrite (components_abs_path Hr), (components_abs_path Hall).
  change (r0 :: (rs ++ a0 :: rest)%list)
    with ((r0 :: rs) ++ a0 :: rest)%list.
  rewrite common_len_app, Nat.sub_diag, skipn_length_app.
  cbn [repeat app Py.truthy negb abs_path append OsPath.sep].
  inversion Ha as [|? ? Ha0 Hrest]; subst.
  rewrite join_all_abs_path; try assumption.
  - now rewrite concat_abs_path.
  - now apply valid_name_truthy.
  - change a0 with (EmptyString ++ a0).
    apply endswith_app_no_sep;
      [now apply valid_name_truthy | now apply valid_name_no_sep].
Qed.

End RelPath.

Lemma replace_char_absent (old new : ascii) (s : string) :
  Py.has_char old s = false -> Py.replace_char old new s = s.
Proof.
  induction s as [|c r IH]; [reflexivity|]. cbn [Py.has_char Py.replace_char].
  intros H. apply orb_false_elim in H as [-> Hr]. now rewrite IH.
Qed.

Lemma has_char_concat (c : ascii) (l : list string) :
  Py.has_char c OsPath.sep = false ->
  Forall (fun w => Py.has_char c w = false) l ->
  Py.has_char c (String.concat OsPath.sep l) = false.
Proof.
  intros Hsep. induction l as [|w r IH]; intros H; [reflexivity|].
  inversion H as [|? ? Hw Hr]; subst. cbn [String.concat].
  destruct r as [|w2 r']; [assumption|].
  rewrite !has_char_app, Hw, Hsep. cbn [orb]. now apply IH.
Qed.

(** ** Writing a file and removing it again *)

Section WriteUnlink.

(** What an update does to the directory that holds its target. *)
Lemma update_at_dir (f : string -> list node -> option (list node))
  (c : string) :
  forall (comps : list string) (n m : string) (cs cs' cs0 : list node),
    update (comps ++ [c]) f cs = Some cs' ->
    walk (Dir n cs) comps = Some (Dir m cs0) ->
    exists cs0',
      f c cs0 = Some cs0' /\ walk (Dir n cs') comps = Some (Dir m cs0').
Proof.
  induction comps as [|x r IH]; intros n m cs cs' cs0 Hu Hw.
  - cbn in Hw. inversion Hw; subst. cbn in Hu. exists cs'. now split.
  - cbn [walk] in Hw.
    destruct (find_child x cs) as [e|] eqn:Ef; [|discriminate].
    cbn [app] in Hu. destruct (r ++ [c])%list as [|y l] eqn:El.
    { now destruct r. }
    rewrite update_cons2 in Hu.
    apply replace_child_inv in Hu as (e0 & e' & Hfind & Hg & Hn).
    rewrite Ef in Hfind. inversion Hfind; subst e0.
    destruct e as [fn fd|n1 cs1]; [discriminate Hg|].
    destruct (update (y :: l) f cs1) as [cs1'|] eqn:Eu; [|discriminate Hg].
    cbn [option_map] in Hg. inversion Hg; subst e'.
    apply find_child_some in Ef as [_ Hname]. cbn [node_name] in Hname.
    destruct (IH n1 m cs1 cs1' cs0 Eu Hw) as (cs0' & Hf & Hw').
    exists cs0'. split; [exact Hf|]. cbn [walk]. now rewrite (Hn Hname).
Qed.

Lemma replace_child_twice (c : string) (g1 g2 : node -> option node) :
  forall (cs cs1 cs2 : list node),
    replace_child c g1 cs = Some cs1 ->
    replace_child c g2 cs1 = Some cs2 ->
    (forall e e1,
       find_child c cs = Some e -> g1 e = Some e1 ->
       node_name e1 = c /\ forall e2, g2 e1 = Some e2 -> e2 = e) ->
    cs2 = cs.
Proof.
  induction cs as [|a r IH]; intros cs1 cs2; cbn [replace_child];
    [discriminate|].
  unfold find_child. cbn [find].
  destruct (String.eqb (node_name a) c) eqn:Ea.
  - destruct (g1 a) as [e1|] eqn:Eg1; [|discriminate].
    cbn [option_map]. intros H1 H2 Hg. inversion H1; subst cs1.
    destruct (Hg a e1 eq_refl Eg1) as [Hn He2].
    cbn [replace_child] in H2. rewrite Hn, String.eqb_refl in H2.
    destruct (g2 e1) as [e2|] eqn:Eg2; [|discriminate].
    cbn [option_map] in H2. inversion H2. now rewrite (He2 e2 eq_refl).
  - destruct (replace_child c g1 r) as [r1|] eqn:Er1; [|discriminate].
    cbn [option_map]. intros H1 H2 Hg. inversion H1; subst cs1.
    cbn [replace_child] in H2. rewrite Ea in H2.
    destruct (replace_child c g2 r1) as [r2|] eqn:Er2; [|discriminate].
    cbn [option_map] in H2. inversion H2.
    now rewrite (IH r1 r2 eq_refl Er2 Hg).
Qed.

(** An update undone at the same path gives the tree back. *)
Lemma update_undo (f g : string -> list node -> option (list node))
  (c : string) :
  forall (comps : list string) (n m : string) (cs cs1 cs2 cs0 : list node),
    walk (Dir n cs) comps = Some (Dir m cs0) ->
    (forall x y, f c cs0 = Some x -> g c x = Some y -> y = cs0) ->
    update (comps ++ [c]) f cs = Some cs1 ->
    update (comps ++ [c]) g cs1 = Some cs2 ->
    cs2 = cs.
Proof.
  induction comps as [|x r IH]; intros n m cs cs1 cs2 cs0 Hw Hfg Hu1 Hu2.
  - cbn in Hw. inversion Hw; subst. cbn in Hu1, Hu2. eapply Hfg; eassumption.
  - cbn [walk] in Hw.
    destruct (find_child x cs) as [e|] eqn:Ef; [|discriminate].
    cbn [app] in Hu1, Hu2. destruct (r ++ [c])%list as [|y l] eqn:El.
    { now destruct r. }
    rewrite update_cons2 in Hu1, Hu2.
    eapply replace_child_twice; [exact Hu1 | exact Hu2|].
    intros e0 e1 Hfind Hg1. rewrite Ef in Hfind. inversion Hfind; subst e0.
    destruct e as [fn fd|n1 cs1']; [discriminate Hg1|].
    destruct (update (y :: l) f cs1') as [csA|] eqn:EA; [|discriminate Hg1].
    cbn [option_map] in Hg1. inversion Hg1; subst e1.
    apply find_child_some in Ef as [_ Hname]. cbn [node_name] in Hname.
    split; [exact Hname|]. intros e2 Hg2.
    destruct (update (y :: l) g csA) as [csB|] eqn:EB; [|discriminate Hg2].
    cbn [option_map] in Hg2. inversion Hg2.
    now rewrite (IH n1 m cs1' csA csB cs0 Hw Hfg EA EB).
Qed.

(** A file written into an empty directory can be unlinked, and the
    tree is then what it was before the write. *)
Lemma write_unlink_empty_dir (fs fs2 : FS.t) (dir new_name : string)
  (data : list byte) :
  scandir fs dir = Some [] -> valid_name new_name = true ->
  FS.write fs (OsPath.join dir new_name) data = Some fs2 ->
  FS.unlink fs2 (OsPath.join dir new_name) = Some fs.
Proof.
  intros Hs Hv. unfold FS.write, FS.unlink.
  rewrite (@components_join _ _ Hv).
  unfold scandir in Hs.
  destruct (resolve fs dir) as [[fn fd|n cs]|] eqn:Er; try discriminate.
  destruct cs; [|discriminate]. clear Hs.
  unfold resolve in Er. destruct (Py.truthy dir); [|discriminate].
  intros Hw.
  destruct (@update_at_dir _ _ _ _ _ _ _ _ Hw Er) as (cs0' & Hput & Hw2).
  assert (cs0' = [File new_name data]) as ->.
  { unfold put_file in Hput.
    apply valid_name_parts in Hv as (_ & Hsp & _). rewrite Hsp in Hput.
    cbn in Hput. now inversion Hput. }
  assert (remove_file new_name [File new_name data] = Some []) as Hrm.
  { unfold remove_file, find_child. cbn. now rewrite String.eqb_refl. }
  destruct (@update_below remove_file new_name _ _ _ _ _ _ Hw2 Hrm)
    as [fs3 Hu].
  assert (fs3 = fs) as Heq; [|now rewrite <- Heq].
  eapply update_undo; [exact Er | | exact Hw | exact Hu].
  intros x y Hx Hy. rewrite Hput in Hx. inversion Hx; subst x.
  rewrite Hrm in Hy. now inversion Hy.
Qed.

End WriteUnlink.

(** ** The run ends *)

Section MainEnds.

Lemma str_take_isabs (n : nat) (s : string) :
  OsPath.isabs s = true -> Py.truthy (Py.str_take n s) = true ->
  OsPath.isabs (Py.str_take n s) = true.
Proof.
  destruct s as [|a r]; [discriminate|].
  destruct n as [|n]; [discriminate|].
  unfold OsPath.isabs. cbn [Py.str_take]. now rewrite !startswith_sep_cons.
Qed.

Lemma find_git_root_ends (env : Env) (st st' : State) (e : error) :
  find_git_root env st = (Raise e, st') -> e <> Diverges.
Proof.
  unfold find_git_root, bind, ask, get_fs, ret, raise.
  destruct (find_git_root_loop _ (st_fs st) (getcwd env) EmptyString 1)
    as [[g|e']|] eqn:El.
  - destruct (negb (Py.truthy g)); intros H; inversion H; discriminate.
  - apply find_git_root_loop_raises in El. subst e'.
    intros H; inversion H; discriminate.
  - exfalso. revert El. apply find_git_root_loop_terminates. lia.
Qed.

Lemma find_git_root_isabs (env : Env) (st st' : State) (root : string) :
  OsPath.isabs (getcwd env) = true ->
  find_git_root env st = (Ok root, st') -> OsPath.isabs root = true.
Proof.
  intros Hcwd. unfold find_git_root, bind, ask, get_fs, ret, raise.
  destruct (find_git_root_loop _ (st_fs st) (getcwd env) EmptyString 1)
    as [[g|e']|] eqn:El; try discriminate.
  destruct (Py.truthy g) eqn:Eg; cbn [negb]; [|discriminate].
  intros H. inversion H; subst g.
  apply (@find_git_root_loop_holds (st_fs st) (getcwd env)) in El
    as [->|[[n ->] _]]; [discriminate | now apply str_take_isabs | |now left].
  exists (String.length (getcwd env)).
  clear. induction (getcwd env) as [|c r IH]; simpl; congruence.
Qed.

Lemma get_project_path_ends (start : string) (env : Env) (st st' : State)
  (e : error) :
  wf (st_fs st) = true -> OsPath.isabs start = true ->
  get_project_path start env st = (Raise e, st') -> e <> Diverges.
Proof.
  intros Hwf Habs.
  unfold get_project_path, bind, get_fs, lift_result, ret, raise.
  pose proof (@find_entry_in_dir_total (st_fs st) uproject_predicate start
                Hwf Habs) as Hd.
  pose proof (@find_entry_in_dir_up_total (st_fs st) uproject_predicate
                start) as Hu.
  destruct (find_entry_in_dir (st_fs st) start uproject_predicate)
    as [[found|]|e1].
  - destruct (Py.truthy found) eqn:Et; cbn [Py.truthy_opt negb];
      rewrite Et; cbn [negb].
    + rewrite Et. discriminate.
    + destruct (find_entry_in_dir_up (st_fs st) start uproject_predicate)
        as [[f2|]|e2]; [destruct (Py.truthy f2)| |];
        intros H; inversion H; congruence.
  - cbn [Py.truthy_opt negb].
    destruct (find_entry_in_dir_up (st_fs st) start uproject_predicate)
      as [[f2|]|e2]; [destruct (Py.truthy f2)| |];
      intros H; inversion H; congruence.
  - intros H; inversion H; congruence.
Qed.

Lemma main_ends (rel : string) (env : Env) (st st' : State) (e : error) :
  wf (st_fs st) = true -> OsPath.isabs (getcwd env) = true ->
  main rel env st = (Raise e, st') -> e <> Diverges.
Proof.
  intros Hwf Hcwd Hm. unfold main in Hm.
  apply bind_reader_inv in Hm as [(root & H1 & Hm)|(e1 & H1 & He & _)];
    [|inversion He; subst; eapply find_git_root_ends; eassumption
     |apply find_git_root_reader].
  apply bind_reader_inv in Hm as [(asset & H2 & Hm)|(e1 & H2 & He & _)];
    [| |apply get_valid_asset_path_reader].
  2:{ inversion He; subst. clear - H2.
      unfold get_valid_asset_path, bind, ask, get_fs, ret, raise in H2.
      destruct (negb (isfile _ _)); inversion H2; discriminate. }
  apply bind_reader_inv in Hm as [(project & H3 & Hm)|(e1 & H3 & He & _)];
    [| |apply get_project_path_reader].
  2:{ inversion He; subst.
      eapply (@get_project_path_ends root);
        [exact Hwf | eapply find_git_root_isabs; eassumption | exact H3]. }
  apply bind_reader_inv in Hm as [(ue & H4 & Hm)|(e1 & H4 & He & _)];
    [| |apply get_ue_bin_path_reader].
  2:{ inversion He; subst. clear - H4.
      unfold get_ue_bin_path, bind, ask, ret, raise in H4.
      destruct (environ env "UE_DIFF_BIN") as [p|];
        [destruct (Py.truthy p)|]; inversion H4; discriminate. }
  apply bind_reader_inv in Hm as [(file & H5 & Hm)|(e1 & H5 & He & _)];
    [| |apply os_path_relpath_reader].
  2:{ inversion He; subst. apply os_path_relpath_raises in H5.
      subst; discriminate. }
  apply bind_inv in Hm as [(rev & s1 & H6 & Hm)|(e1 & H6 & He)].
  2:{ inversion He; subst. rewrite git_find_last_revision_eq in H6.
      destruct (proc_text env root _) as [out|];
        [destruct (Py.truthy (Py.strip out))|];
        inversion H6; discriminate. }
  apply bind_inv in Hm as [(is_lfs & s2 & H7 & Hm)|(e1 & H7 & He)].
  2:{ inversion He; subst. apply git_is_lfs_raises in H7.
      unfold tool_error in H7. intuition (subst; discriminate). }
  destruct is_lfs.
  - apply diff_lfs_raises in Hm. unfold lfs_error in Hm.
    intuition (subst; discriminate).
  - apply diff_normal_raises in Hm. unfold tool_error in Hm.
    intuition (subst; discriminate).
Qed.

End MainEnds.

(** * The claims *)

(** ** Downward search *)

(** C1, as stated, fails: in [fs_two_branches] the search started at [/r]
    returns the match three levels down although another match lies two
    levels down, so the shallowest match is not always preferred. *)
Lemma find_entry_in_dir_deeper_match_first :
  find_entry_in_dir fs_two_branches "/r" uproject_predicate
    = Ok (Some "/r/b/c/deep.uproject")
  /\ matches_at 3 uproject_predicate "/r" two_branches
     = ["/r/b/c/deep.uproject"]
  /\ matches_at 2 uproject_predicate "/r" two_branches
     = ["/r/a/shallow.uproject"]
  /\ ~ shallowest_first.
Proof.
  assert (find_entry_in_dir fs_two_branches "/r" uproject_predicate
          = Ok (Some "/r/b/c/deep.uproject")) as Hfind
      by (vm_compute; reflexivity).
  repeat split; try (vm_compute; reflexivity).
  intros Hclaim.
  specialize (Hclaim fs_two_branches "/r" uproject_predicate "r"
                two_branches "/r/b/c/deep.uproject" "/r/a/shallow.uproject"
                3 2).
  assert (3 <= 2) as Habs; [|lia].
  apply Hclaim; try (vm_compute; reflexivity); try assumption;
    vm_compute; auto.
Qed.

(** C1, amended: on a well-formed tree the search ends and returns what
    the depth-first search returns that visits the last listed
    subdirectory first; the entry returned is the first match of its
    directory, and no directory between the start directory and that one
    has a match of its own. *)
Theorem find_entry_in_dir_depth_first :
  forall (fs : FS.t) (start : string) (p : predicate) (n : string)
         (cs : list node),
    wf fs = true -> OsPath.isabs start = true ->
    resolve fs start = Some (Dir n cs) ->
    find_entry_in_dir fs start p
      = Ok (search_depth_first p start (Dir n cs))
    /\ (forall found,
          find_entry_in_dir fs start p = Ok (Some found) ->
          found_under p start (Dir n cs) found).
Proof.
  intros fs start p n cs Hwf Habs Hr.
  assert (find_entry_in_dir fs start p
          = Ok (search_depth_first p start (Dir n cs))) as Heq.
  { unfold find_entry_in_dir, find_entry_in_dir_scan.
    destruct (@loop_depth_first fs p (search_fuel fs)
                [(start, Dir n cs)] []) as [log Hlog].
    - constructor; [|constructor]. repeat split; cbn [fst snd]; try assumption.
      exists n, cs. split; [reflexivity|]. eapply resolve_wf; eassumption.
    - unfold stack_size, search_fuel. cbn [map snd list_sum fold_right].
      unfold resolve in Hr. destruct (Py.truthy start); [|discriminate].
      apply walk_size in Hr. lia.
    - cbn [map fst] in Hlog. rewrite Hlog. cbn [fst search_stack].
      reflexivity. }
  split; [exact Heq|].
  intros found Hf. rewrite Heq in Hf. inversion Hf as [Hs].
  now apply search_depth_first_found.
Qed.

(** A run of C1 on the tree with two branches. *)
Lemma find_entry_in_dir_depth_first_witness :
  find_entry_in_dir fs_two_branches "/r" uproject_predicate
    = Ok (search_depth_first uproject_predicate "/r" (Dir "r" two_branches))
  /\ (forall found,
        find_entry_in_dir fs_two_branches "/r" uproject_predicate
          = Ok (Some found) ->
        found_under uproject_predicate "/r" (Dir "r" two_branches) found).
Proof.
  apply (find_entry_in_dir_depth_first fs_two_branches "/r"
           uproject_predicate); reflexivity.
Defined.

(** C9: on a well-formed tree the search ends, and every directory it
    scans and the entry it returns lie below the start directory along
    components none of which is [.git]; none of them is a [.git]
    directory or inside one. *)
Theorem find_entry_in_dir_never_enters_dot_git :
  forall (fs : FS.t) (start : string) (p : predicate),
    wf fs = true -> OsPath.isabs start = true ->
    find_entry_in_dir fs start p <> Raise Diverges
    /\ (forall dir,
          In dir (snd (find_entry_in_dir_scan fs start p)) ->
          below_avoiding_dot_git start dir /\ ~ inside_dot_git start dir)
    /\ (forall found,
          find_entry_in_dir fs start p = Ok (Some found) ->
          below_avoiding_dot_git start found /\ ~ inside_dot_git start found).
Proof.
  intros fs start p Hwf Habs.
  split; [now apply find_entry_in_dir_total|].
  assert (forall x, below_avoiding_dot_git start x -> ~ inside_dot_git start x)
    as Hnot.
  { intros x (names & Hn & Hg) (pre & post & Hi).
    rewrite Hn in Hi. apply app_inv_head in Hi. subst names.
    apply Hg, in_or_app. right. now left. }
  unfold find_entry_in_dir, find_entry_in_dir_scan.
  destruct (find_entry_in_dir_loop (search_fuel fs) fs p [start] None [])
    as [[res log]|] eqn:El; cbn [fst snd].
  - apply (@loop_avoids_dot_git fs p Hwf start) in El as [Hlog Hres].
    + rewrite Forall_forall in Hlog. split; intros x Hx; split; auto.
    + constructor; [|constructor]. split; [assumption | apply below_refl].
    + discriminate.
    + constructor.
  - split; [intros x []|discriminate].
Qed.

(** A run of C9 on a tree with a [.git] directory. *)
Lemma find_entry_in_dir_never_enters_dot_git_witness :
  find_entry_in_dir fs_dot_git_entries "/r" uproject_predicate
  <> Raise Diverges
  /\ (forall dir,
        In dir (snd (find_entry_in_dir_scan fs_dot_git_entries "/r"
                       uproject_predicate)) ->
        below_avoiding_dot_git "/r" dir /\ ~ inside_dot_git "/r" dir)
  /\ (forall found,
        find_entry_in_dir fs_dot_git_entries "/r" uproject_predicate
          = Ok (Some found) ->
        below_avoiding_dot_git "/r" found /\ ~ inside_dot_git "/r" found).
Proof.
  apply (find_entry_in_dir_never_enters_dot_git fs_dot_git_entries "/r"
           uproject_predicate); reflexivity.
Defined.

(** C10: the entry the search returns is listed by a scanned directory,
    satisfies the predicate and is not named [.git]; on a well-formed
    tree the last component of the returned path is that name, hence not
    [.git].  The entries named [.git] are dropped before the predicate is
    asked: predicates that differ on them only give the same result. *)
Theorem find_entry_in_dir_never_returns_dot_git :
  forall (fs : FS.t) (start : string) (p q : predicate),
    (forall found,
        find_entry_in_dir fs start p = Ok (Some found) ->
        exists dir it entry,
          scandir fs dir = Some it /\ In entry it /\ p entry = true /\
          name entry <> ".git" /\ found = OsPath.join dir (name entry) /\
          (wf fs = true ->
           OsPath.basename found = name entry /\
           OsPath.basename found <> ".git"))
    /\ ((forall e, name e <> ".git" -> p e = q e) ->
        find_entry_in_dir fs start p = find_entry_in_dir fs start q).
Proof.
  intros fs start p q. split.
  - unfold find_entry_in_dir, find_entry_in_dir_scan. intros found.
    destruct (find_entry_in_dir_loop (search_fuel fs) fs p [start] None [])
      as [[res log]|] eqn:El; cbn [fst]; [|discriminate].
    intros ->.
    apply loop_returns_listed_entry in El as [El|El]; [discriminate|].
    destruct El as (dir & it & entry & Hs & Hin & Hg & Hp & ->).
    exists dir, it, entry. repeat split; try assumption.
    + destruct (scandir_some _ _ Hs) as (n & cs & Hr & ->).
      apply in_map_iff in Hin as (c & <- & Hc). cbn [name dir_entry].
      apply basename_join, wf_node_valid.
      eapply wf_children_in; [|eassumption].
      eapply resolve_wf; eassumption.
    + destruct (scandir_some _ _ Hs) as (n & cs & Hr & ->).
      apply in_map_iff in Hin as (c & <- & Hc). cbn [name dir_entry] in *.
      rewrite basename_join; [assumption|].
      apply wf_node_valid. eapply wf_children_in; [|eassumption].
      eapply resolve_wf; eassumption.
  - intros Hpq. unfold find_entry_in_dir, find_entry_in_dir_scan.
    now rewrite (loop_predicate_ext fs p q Hpq).
Qed.

(** A run of C10 with a predicate that accepts the entries named [.git]
    and one that does not. *)
Lemma find_entry_in_dir_never_returns_dot_git_witness :
  find_entry_in_dir fs_dot_git_entries "/r"
    (fun e => String.eqb (name e) ".git" || uproject_predicate e)
  = Ok (Some "/r/sub/Game.uproject")
  /\ find_entry_in_dir fs_dot_git_entries "/r"
       (fun e => String.eqb (name e) ".git" || uproject_predicate e)
     = find_entry_in_dir fs_dot_git_entries "/r" uproject_predicate.
Proof.
  split; [reflexivity|].
  apply (find_entry_in_dir_never_returns_dot_git fs_dot_git_entries "/r"
           (fun e => String.eqb (name e) ".git" || uproject_predicate e)
           uproject_predicate).
  intros e He. apply String.eqb_neq in He. now rewrite He.
Defined.

(** ** The project descriptor *)

(** C3, as stated, fails: started from the hooks directory of [/r/.git],
    the run finds the repository root [/r]; no descriptor lies below it
    outside [.git], and [get_project_path] then searches upward from
    [/r], not from the working directory, and fails, although the upward
    search from the working directory finds a descriptor. *)
Lemma get_project_path_not_from_cwd :
  fst (find_git_root env_hooks st_hooks) = Ok "/r"
  /\ find_entry_in_dir fs_hooks "/r" uproject_predicate = Ok None
  /\ find_entry_in_dir_up fs_hooks (getcwd env_hooks) uproject_predicate
     = Ok (Some "/r/.git/hooks")
  /\ fst (get_project_path_from_cwd "/r" env_hooks st_hooks)
     = Ok "/r/.git/hooks"
  /\ fst (get_project_path "/r" env_hooks st_hooks) = Raise AnchorNotFound.
Proof. repeat split; vm_compute; reflexivity. Qed.

(** C3, amended: when the downward search from the start directory finds
    no descriptor, [get_project_path] searches upward from that same
    start directory (the repository root that [main] passes), with the
    same predicate; it fails with [AnchorNotFound] exactly when both
    searches find nothing.  The working directory plays no part, and
    the upward search always ends. *)
Theorem get_project_path_falls_back_from_start_dir :
  forall (start_dir : string) (env env' : Env) (st : State),
    let down := find_entry_in_dir (st_fs st) start_dir uproject_predicate in
    let up := find_entry_in_dir_up (st_fs st) start_dir uproject_predicate in
    (forall found,
        down = Ok (Some found) ->
        get_project_path start_dir env st = (Ok found, st))
    /\ (forall dir,
          down = Ok None -> up = Ok (Some dir) ->
          get_project_path start_dir env st = (Ok dir, st))
    /\ (fst (get_project_path start_dir env st) = Raise AnchorNotFound
        <-> down = Ok None /\ up = Ok None)
    /\ get_project_path start_dir env' st = get_project_path start_dir env st
    /\ up <> Raise Diverges.
Proof.
  intros start_dir env env' st down up.
  assert (forall en, get_project_path start_dir en st
          = (match down with
             | Ok (Some found) => Ok found
             | Ok None =>
                 match up with
                 | Ok (Some dir) => Ok dir
                 | Ok None => Raise AnchorNotFound
                 | Raise e => Raise e
                 end
             | Raise e => Raise e
             end, st)) as Heq.
  { intros en.
    unfold get_project_path, bind, get_fs, lift_result, ret, raise.
    fold down. fold up.
    destruct down as [[found|]|e] eqn:Hd; cbn.
    - apply find_entry_in_dir_truthy in Hd. rewrite Hd. cbn.
      now rewrite Hd.
    - destruct up as [[dir|]|e] eqn:Hu; cbn; try reflexivity.
      apply find_entry_in_dir_up_truthy in Hu. now rewrite Hu.
    - reflexivity. }
  repeat split.
  - intros found Hd. now rewrite Heq, Hd.
  - intros dir Hd Hu. now rewrite Heq, Hd, Hu.
  - rewrite Heq in H. cbn [fst] in H.
    destruct down as [[found|]|e] eqn:Hd; try discriminate; [reflexivity|].
    inversion H; subst e.
    apply find_entry_in_dir_raises in Hd as [Hd|Hd]; discriminate.
  - rewrite Heq in H. cbn [fst] in H.
    destruct down as [[found|]|e] eqn:Hd; try discriminate.
    + destruct up as [[dir|]|e] eqn:Hu; try discriminate; [reflexivity|].
      inversion H; subst e.
      apply find_entry_in_dir_up_raises in Hu as [Hu|Hu]; discriminate.
    + inversion H; subst e.
      apply find_entry_in_dir_raises in Hd as [Hd|Hd]; discriminate.
  - intros [Hd Hu]. now rewrite Heq, Hd, Hu.
  - now rewrite !Heq.
  - apply find_entry_in_dir_up_total.
Qed.

(** A run of C3 in the repository with the descriptor under [.git]. *)
Lemma get_project_path_falls_back_from_start_dir_witness :
  fst (get_project_path "/r" env_hooks st_hooks) = Raise AnchorNotFound.
Proof.
  apply (get_project_path_falls_back_from_start_dir "/r" env_hooks env_hooks
           st_hooks).
  split; reflexivity.
Defined.

(** ** Revision and storage mode *)

(** C5: given the listing that [git lfs ls-files] prints and the
    repository-relative path of the asset, [git_is_lfs] answers true
    exactly when that path equals, as a whole string, some line of the
    listing without its first thirteen characters; it only records the
    listing command. *)
Theorem git_is_lfs_exact_membership :
  forall (env : Env) (st : State) (git_root asset_path listing rel : string),
    proc_text env git_root ["git"; "lfs"; "ls-files"] = Some listing ->
    OsPath.relpath (getcwd env) asset_path git_root = Some rel ->
    exists is_lfs : bool,
      git_is_lfs git_root asset_path env st
      = (Ok is_lfs,
         mkState (st_fs st)
           (st_trace st ++ [Capture git_root ["git"; "lfs"; "ls-files"]]))
      /\ (is_lfs = true <->
          exists line,
            In line (Py.splitlines listing) /\
            Py.str_drop 13 line = Py.replace_char "\"%char "/"%char rel).
Proof.
  intros env st git_root asset_path listing rel Hl Hr.
  unfold git_is_lfs, get_git_relative_asset_path, os_path_relpath,
    run_cmd_capture, bind, ask, log, lift_option, ret.
  cbn. rewrite Hl. cbn. rewrite Hr. cbn.
  eexists. split; [reflexivity|].
  rewrite str_in_true, in_map_iff. split.
  - intros (line & He & Hin). eauto.
  - intros (line & Hin & He). eauto.
Qed.

(** A run of C5: [Content/Foo.uasset] is not tracked although
    [Content/Foo.uasset.bak] is. *)
Lemma git_is_lfs_exact_membership_witness :
  exists is_lfs : bool,
    git_is_lfs "/r" "/r/Content/Foo.uasset" (env_inline true) st_inline
    = (Ok is_lfs,
       mkState fs_inline [Capture "/r" ["git"; "lfs"; "ls-files"]])
    /\ (is_lfs = true <->
        exists line,
          In line (Py.splitlines lfs_listing) /\
          Py.str_drop 13 line
          = Py.replace_char "\"%char "/"%char "Content/Foo.uasset").
Proof.
  apply (git_is_lfs_exact_membership (env_inline true) st_inline "/r"
           "/r/Content/Foo.uasset" (listing := lfs_listing)
           (rel := "Content/Foo.uasset")); reflexivity.
Defined.

(** C7: [git_find_last_revision] strips the output of [git log] and
    raises [NoHistory] exactly when nothing is left, returning the
    stripped text otherwise.  When the anchors, the asset and the tool
    path are found and the log of the asset is blank, [main] ends with
    [NoHistory]; and whenever [main] ends with [NoHistory] the file
    system is as it was and the only thing done is the revision lookup:
    no listing, no temporary directory, no object lookup. *)
Theorem no_history_before_materialization :
  forall (env : Env) (st : State),
    (forall git_root file_path,
        (fst (git_find_last_revision git_root file_path env st)
         = Raise NoHistory
         <-> exists out,
               proc_text env git_root (git_log_cmd file_path) = Some out /\
               Py.strip out = EmptyString)
        /\ (forall out,
              proc_text env git_root (git_log_cmd file_path) = Some out ->
              Py.strip out <> EmptyString ->
              fst (git_find_last_revision git_root file_path env st)
              = Ok (Py.strip out)))
    /\ (forall relative_asset_path git_root asset_path project_path
               ue_bin_path file_path out,
          find_git_root env st = (Ok git_root, st) ->
          get_valid_asset_path relative_asset_path env st
          = (Ok asset_path, st) ->
          get_project_path git_root env st = (Ok project_path, st) ->
          get_ue_bin_path env st = (Ok ue_bin_path, st) ->
          OsPath.relpath (getcwd env) asset_path git_root = Some file_path ->
          proc_text env git_root (git_log_cmd file_path) = Some out ->
          Py.strip out = EmptyString ->
          main relative_asset_path env st
          = (Raise NoHistory,
             mkState (st_fs st)
               (st_trace st ++ [Capture git_root (git_log_cmd file_path)])))
    /\ (forall relative_asset_path,
          fst (main relative_asset_path env st) = Raise NoHistory ->
          st_fs (snd (main relative_asset_path env st)) = st_fs st /\
          exists git_root file_path,
            st_trace (snd (main relative_asset_path env st))
            = (st_trace st ++ [Capture git_root (git_log_cmd file_path)])%list).
Proof.
  intros env st. split; [|split].
  - intros git_root file_path.
    unfold git_find_last_revision, run_cmd_capture, bind, ask, log,
      lift_option, ret, raise, git_log_cmd.
    cbn. destruct (proc_text env git_root _) as [out|]; cbn.
    + destruct (Py.strip out) as [|c r] eqn:Es; cbn.
      * split.
        -- split; [intros _; eauto | reflexivity].
        -- intros out' H. inversion H; subst out'. rewrite Es. congruence.
      * split.
        -- split; [discriminate|].
           intros (out' & H & He). inversion H; subst out'. congruence.
        -- intros out' H _. inversion H; subst out'. now rewrite Es.
    + split.
      * split; [discriminate | intros (out' & H & _); discriminate].
      * discriminate.
  - intros rel git_root asset_path project_path ue file_path out
      Hroot Hasset Hproj Hue Hrel Hout Hstrip.
    unfold main.
    erewrite bind_ok by exact Hroot.
    erewrite bind_ok by exact Hasset.
    erewrite bind_ok by exact Hproj.
    erewrite bind_ok by exact Hue.
    erewrite bind_ok by (rewrite os_path_relpath_eq, Hrel; reflexivity).
    erewrite bind_raise; [reflexivity|].
    now rewrite git_find_last_revision_eq, Hout, Hstrip.
  - intros rel Hmain.
    destruct (main rel env st) as [r st'] eqn:Em. cbn [fst snd] in *.
    subst r. unfold main in Em.
    apply bind_reader_inv in Em as [(git_root & _ & Em)|(e & He & H & _)];
      [|inversion H; subst e; apply find_git_root_raises in He;
        unfold setup_error in He; intuition discriminate
       |apply find_git_root_reader].
    apply bind_reader_inv in Em as [(asset_path & _ & Em)|(e & He & H & _)];
      [|inversion H; subst e; apply get_valid_asset_path_raises in He;
        unfold setup_error in He; intuition discriminate
       |apply get_valid_asset_path_reader].
    apply bind_reader_inv in Em as [(project_path & _ & Em)|(e & He & H & _)];
      [|inversion H; subst e; apply get_project_path_raises in He;
        unfold setup_error in He; intuition discriminate
       |apply get_project_path_reader].
    apply bind_reader_inv in Em as [(ue & _ & Em)|(e & He & H & _)];
      [|inversion H; subst e; apply get_ue_bin_path_raises in He;
        unfold setup_error in He; intuition discriminate
       |apply get_ue_bin_path_reader].
    apply bind_reader_inv in Em as [(file_path & _ & Em)|(e & He & H & _)];
      [|inversion H; subst e; apply os_path_relpath_raises in He;
        discriminate
       |apply os_path_relpath_reader].
    apply bind_inv in Em as [(rev & st1 & _ & Em)|(e & He & _)].
    + exfalso.
      apply bind_inv in Em as [(is_lfs & st2 & _ & Em)|(e & He & H)].
      * destruct is_lfs.
        -- apply diff_lfs_raises in Em. unfold lfs_error in Em.
           intuition discriminate.
        -- apply diff_normal_raises in Em. unfold tool_error in Em.
           intuition discriminate.
      * inversion H; subst e. apply git_is_lfs_raises in He.
        unfold tool_error in He. intuition discriminate.
    + revert He.
      unfold git_find_last_revision, run_cmd_capture, bind, ask, log,
        lift_option, ret, raise. cbn.
      fold (git_log_cmd file_path).
      destruct (proc_text env git_root (git_log_cmd file_path)) as [out|];
        cbn; [destruct (negb (Py.truthy (Py.strip out)))|];
        intros H; inversion H; subst; cbn; eauto.
Qed.

(** A run of C7 in the repository whose asset was never committed. *)
Lemma no_history_before_materialization_witness :
  main "Content/Foo.uasset" env_no_history st_inline
  = (Raise NoHistory,
     mkState fs_inline [Capture "/r" (git_log_cmd "Content/Foo.uasset")])
  /\ st_fs (snd (main "Content/Foo.uasset" env_no_history st_inline))
     = fs_inline
  /\ exists git_root file_path,
       st_trace (snd (main "Content/Foo.uasset" env_no_history st_inline))
       = [Capture git_root (git_log_cmd file_path)].
Proof.
  destruct (no_history_before_materialization env_no_history st_inline)
    as (_ & Hblank & Hnone).
  split.
  - apply (Hblank "Content/Foo.uasset" "/r" "/r/Content/Foo.uasset"
             "/r/Game.uproject" "/ue/UnrealEditor-Cmd" "Content/Foo.uasset"
             LF); reflexivity.
  - apply (Hnone "Content/Foo.uasset"). vm_compute. reflexivity.
Defined.

(** ** The large-file strategy *)

(** C6: with the media directory and the object id read from the first
    matching lines of [git lfs env] and [git cat-file -p], the left-hand
    path joins the media directory, the first two characters of the id,
    the next two and the whole id.  When that path is no regular file,
    [diff_lfs] raises [ObjectNotFound] having only captured the two
    outputs; otherwise it launches the diff tool on that path and the
    asset.  Whenever [main] ends with [ObjectNotFound], no tool was
    launched and the file system is as it was. *)
Theorem diff_lfs_object_path :
  forall (env : Env) (st : State)
         (git_root asset_path revision ue_bin_path project_path : string)
         (rel env_out media_line oid_out oid_line : string)
         (ms os : list string),
    OsPath.relpath (getcwd env) asset_path git_root = Some rel ->
    proc_text env git_root ["git"; "lfs"; "env"] = Some env_out ->
    filter (Py.contains "LocalMediaDir=") (Py.splitlines env_out)
    = media_line :: ms ->
    proc_text env git_root
      ["git"; "cat-file"; "-p";
       revision ++ ":" ++ Py.replace_char "\"%char "/"%char rel]
    = Some oid_out ->
    filter (Py.contains "oid sha256:") (Py.splitlines oid_out)
    = oid_line :: os ->
    let media := Py.str_drop 14 media_line in
    let oid := Py.str_drop 11 oid_line in
    let left_asset_path :=
      OsPath.join_all media [Py.slice 0 2 oid; Py.slice 2 4 oid; oid] in
    let captures :=
      [Capture git_root ["git"; "lfs"; "env"];
       Capture git_root
         ["git"; "cat-file"; "-p";
          revision ++ ":" ++ Py.replace_char "\"%char "/"%char rel]] in
    (Py.truthy media = true -> Py.endswith media "/" = false ->
     Py.has_char "/"%char oid = false -> 4 <= String.length oid ->
     left_asset_path
     = media ++ "/" ++ Py.slice 0 2 oid ++ "/" ++ Py.slice 2 4 oid
       ++ "/" ++ oid)
    /\ (isfile (st_fs st) left_asset_path = false ->
        diff_lfs git_root asset_path revision ue_bin_path project_path env st
        = (Raise ObjectNotFound,
           mkState (st_fs st) (st_trace st ++ captures)))
    /\ (isfile (st_fs st) left_asset_path = true ->
        snd (diff_lfs git_root asset_path revision ue_bin_path project_path
               env st)
        = mkState (st_fs st)
            (st_trace st ++ captures ++
             [Run git_root
                [ue_bin_path; project_path; "-diff"; left_asset_path;
                 asset_path]]))
    /\ (forall relative_asset_path env0 st0,
          fst (main relative_asset_path env0 st0) = Raise ObjectNotFound ->
          quiet_from st0 (snd (main relative_asset_path env0 st0))).
Proof.
  intros env st git_root asset_path revision ue project rel env_out
    media_line oid_out oid_line ms os Hrel Henv Hmedia Hoid Hline
    media oid left captures.
  assert (diff_lfs git_root asset_path revision ue project env st
          = (fs <- get_fs ;;
             if negb (isfile fs left) then raise ObjectNotFound
             else run_cmd git_root
                    (create_diff_command_parts ue project left
                       (Some asset_path)))
              env (mkState (st_fs st) (st_trace st ++ captures)))
    as Heq.
  { unfold diff_lfs.
    erewrite bind_ok
      by (rewrite get_git_relative_asset_path_eq, Hrel; reflexivity).
    erewrite bind_ok by (rewrite run_cmd_capture_eq, Henv; reflexivity).
    rewrite Hmedia. cbn [map].
    erewrite bind_ok by (rewrite run_cmd_capture_eq, Hoid; reflexivity).
    rewrite Hline. cbn [map st_fs st_trace].
    unfold captures. now rewrite <- app_assoc. }
  split; [|split; [|split]].
  - intros Hm He Hs Hl. now apply fan_out_layout.
  - intros Hfile. rewrite Heq. unfold bind, get_fs, raise.
    cbn [st_fs]. now rewrite Hfile.
  - intros Hfile.
    assert (Py.truthy asset_path = true) as Hasset.
    { unfold OsPath.relpath in Hrel.
      now destruct (Py.truthy asset_path). }
    rewrite Heq. unfold bind, get_fs. cbn [st_fs]. rewrite Hfile.
    cbn [negb]. rewrite run_cmd_eq. cbn [snd st_fs st_trace].
    unfold create_diff_command_parts. rewrite Hasset.
    now rewrite <- app_assoc.
  - intros rel_asset env0 st0. apply stops_before_tool_main.
Qed.

(** A run of C6 in the large-file scenario with an empty cache. *)
Lemma diff_lfs_object_path_witness :
  OsPath.join_all "/lfs-cache"
    [Py.slice 0 2 bar_oid; Py.slice 2 4 bar_oid; bar_oid]
  = "/lfs-cache" ++ "/" ++ "de" ++ "/" ++ "ad" ++ "/" ++ bar_oid
  /\ diff_lfs "/r" "/r/Content/Bar.uasset" "abc1234" "/ue/UnrealEditor-Cmd"
       "/r/Game.uproject" env_lfs (st_lfs false)
     = (Raise ObjectNotFound,
        mkState (fs_lfs false)
          [Capture "/r" ["git"; "lfs"; "env"];
           Capture "/r"
             ["git"; "cat-file"; "-p"; "abc1234:Content/Bar.uasset"]]).
Proof.
  pose proof (diff_lfs_object_path env_lfs (st_lfs false) "/r"
                "/r/Content/Bar.uasset" "abc1234" "/ue/UnrealEditor-Cmd"
                "/r/Game.uproject" (rel := "Content/Bar.uasset")
                (env_out := "git-lfs/3.4.0" ++ LF ++
                            "LocalMediaDir=/lfs-cache" ++ LF ++
                            "TempDir=/r/.git/lfs/tmp" ++ LF)
                (media_line := "LocalMediaDir=/lfs-cache")
                (oid_out := "version https://git-lfs.github.com/spec/v1"
                            ++ LF ++ "oid sha256:" ++ bar_oid ++ LF ++
                            "size 1" ++ LF)
                (oid_line := "oid sha256:" ++ bar_oid)
                (ms := []) (os := [])
                eq_refl eq_refl eq_refl eq_refl eq_refl) as (H1 & H2 & _).
  split.
  - apply H1; [reflexivity | reflexivity | reflexivity | vm_compute; lia].
  - apply H2. reflexivity.
Defined.

(** ** The inline strategy *)

(** C8: when a fresh temporary directory can be made, [git show] answers
    and the revision holds no slash, the inline strategy creates the file
    [<base>_<revision><ext>] in that new, empty directory and writes the
    blob to it; reading the file back gives the blob. *)
Theorem inline_materialization_round_trip :
  forall (env : Env) (st : State)
         (git_root asset_path revision tmp_dir rel : string) (fs1 : FS.t)
         (blob : list byte),
    mkdtemp_try (tmp_candidates env) (st_fs st) = Ok (tmp_dir, fs1) ->
    OsPath.relpath (getcwd env) asset_path git_root = Some rel ->
    proc_blob env git_root
      ["git"; "show";
       revision ++ ":" ++ Py.replace_char "\"%char "/"%char rel]
    = Some blob ->
    Py.has_char "/"%char revision = false ->
    let name_parts := OsPath.splitext asset_path in
    let new_name :=
      OsPath.basename (fst name_parts) ++ "_" ++ revision ++ snd name_parts in
    let tmp_path := OsPath.join tmp_dir new_name in
    exists st1 st2,
      get_asset_temp_path asset_path revision env st = (Ok tmp_path, st1)
      /\ exists_ (st_fs st) tmp_dir = false
      /\ scandir (st_fs st1) tmp_dir = Some []
      /\ OsPath.basename tmp_path = new_name
      /\ git_download_asset_revision git_root asset_path revision tmp_path
           env st1 = (Ok tt, st2)
      /\ FS.read (st_fs st2) tmp_path = Some blob.
Proof.
  intros env st git_root asset_path revision tmp_dir rel fs1 blob
    Htmp Hrel Hblob Hrev name_parts new_name tmp_path.
  subst tmp_path.
  assert (valid_name new_name = true) as Hvalid
      by (now apply temp_name_valid).
  destruct (mkdtemp_try_ok _ _ Htmp) as (_ & Hfresh & Hmk).
  pose proof (mkdir_scandir _ _ Hmk) as Hempty.
  destruct (@write_into_empty_dir fs1 tmp_dir new_name blob Hempty Hvalid)
    as [fs2 Hw].
  exists (mkState fs1 (st_trace st ++ [Mkdtemp])).
  eexists. repeat split.
  - unfold get_asset_temp_path.
    erewrite bind_ok by (rewrite mkdtemp_eq, Htmp; reflexivity).
    reflexivity.
  - assumption.
  - assumption.
  - now apply basename_join.
  - unfold git_download_asset_revision.
    erewrite bind_ok
      by (rewrite get_git_relative_asset_path_eq, Hrel; reflexivity).
    erewrite bind_ok by (rewrite run_cmd_capture_blob_eq, Hblob; reflexivity).
    rewrite open_write_eq. cbn [st_fs st_trace]. rewrite Hw. reflexivity.
  - cbn [st_fs]. now apply write_read in Hw.
Qed.

(** A run of C8 in the inline scenario. *)
Lemma inline_materialization_round_trip_witness :
  exists st1 st2,
    get_asset_temp_path "/r/Content/Foo.uasset" "abc1234" (env_inline true)
      st_inline = (Ok "/tmp/tmpk3x9/Foo_abc1234.uasset", st1)
    /\ exists_ fs_inline "/tmp/tmpk3x9" = false
    /\ scandir (st_fs st1) "/tmp/tmpk3x9" = Some []
    /\ OsPath.basename "/tmp/tmpk3x9/Foo_abc1234.uasset"
       = "Foo_abc1234.uasset"
    /\ git_download_asset_revision "/r" "/r/Content/Foo.uasset" "abc1234"
         "/tmp/tmpk3x9/Foo_abc1234.uasset" (env_inline true) st1
       = (Ok tt, st2)
    /\ FS.read (st_fs st2) "/tmp/tmpk3x9/Foo_abc1234.uasset"
       = Some [x0a; x0b; x0c].
Proof.
  apply (inline_materialization_round_trip (env_inline true) st_inline "/r"
           "/r/Content/Foo.uasset" "abc1234" (tmp_dir := "/tmp/tmpk3x9")
           (rel := "Content/Foo.uasset")
           (fs1 := [Dir "r" [Dir ".git" [File "HEAD" []];
                             Dir "Content" [File "Foo.uasset" [x01; x02]];
                             File "Game.uproject" []];
                    Dir "tmp" [Dir "tmpk3x9" []]]));
    reflexivity.
Defined.

(** X3: the temporary directory outlives every inline run: once
    [tempfile.mkdtemp] has made it, it is still a directory when
    [diff_normal] ends, whatever happens in between. *)
Lemma diff_normal_keeps_temp_dir :
  forall (env : Env) (st : State)
         (git_root asset_path revision ue_bin_path project_path tmp_dir
          : string) (fs1 : FS.t),
    mkdtemp_try (tmp_candidates env) (st_fs st) = Ok (tmp_dir, fs1) ->
    isdir (st_fs (snd (diff_normal git_root asset_path revision ue_bin_path
                         project_path env st))) tmp_dir = true.
Proof.
  intros env st git_root asset_path revision ue project tmp_dir fs1 Htmp.
  destruct (mkdtemp_try_ok _ _ Htmp) as (_ & _ & Hmk).
  assert (isdir fs1 tmp_dir = true) as Hdir.
  { apply mkdir_scandir in Hmk. unfold scandir in Hmk. unfold isdir.
    destruct (resolve fs1 tmp_dir) as [[fn fd|n cs]|]; try discriminate.
    reflexivity. }
  unfold diff_normal, get_asset_temp_path.
  erewrite bind_ok
    by (erewrite bind_ok by (rewrite mkdtemp_eq, Htmp; reflexivity);
        reflexivity).
  unfold git_download_asset_revision.
  unfold bind at 1. unfold bind at 1.
  rewrite get_git_relative_asset_path_eq.
  destruct (OsPath.relpath (getcwd env) asset_path git_root) as [rel|];
    [|exact Hdir].
  unfold bind at 1. rewrite run_cmd_capture_blob_eq.
  destruct (proc_blob env git_root _) as [blob|]; [|exact Hdir].
  rewrite open_write_eq. cbn [st_fs st_trace].
  destruct (FS.write fs1 _ blob) as [fs2|] eqn:Ew; [|exact Hdir].
  pose proof (@write_keeps_isdir _ _ _ tmp_dir _ Ew Hdir) as Hdir2.
  unfold bind at 1. rewrite run_cmd_eq.
  destruct (proc_run env git_root _); [|exact Hdir2].
  rewrite os_unlink_eq. cbn [st_fs st_trace].
  destruct (FS.unlink fs2 _) as [fs3|] eqn:Eu; [|exact Hdir2].
  exact (@unlink_keeps_isdir _ _ _ tmp_dir Eu Hdir2).
Qed.

(** X4: when the diff tool fails after a successful materialisation,
    [diff_normal] ends with [ToolInvocationFailed] and the temporary
    file still holds the blob. *)
Lemma diff_normal_failure_keeps_temp_file :
  forall (env : Env) (st : State)
         (git_root asset_path revision ue_bin_path project_path tmp_dir rel
          : string) (fs1 : FS.t) (blob : list byte),
    mkdtemp_try (tmp_candidates env) (st_fs st) = Ok (tmp_dir, fs1) ->
    OsPath.relpath (getcwd env) asset_path git_root = Some rel ->
    proc_blob env git_root
      ["git"; "show";
       revision ++ ":" ++ Py.replace_char "\"%char "/"%char rel]
    = Some blob ->
    Py.has_char "/"%char revision = false ->
    let tmp_path :=
      OsPath.join tmp_dir
        (OsPath.basename (fst (OsPath.splitext asset_path)) ++ "_" ++
         revision ++ snd (OsPath.splitext asset_path)) in
    proc_run env git_root
      (create_diff_command_parts ue_bin_path project_path tmp_path
         (Some asset_path)) = false ->
    fst (diff_normal git_root asset_path revision ue_bin_path project_path
           env st) = Raise ToolInvocationFailed
    /\ FS.read
         (st_fs (snd (diff_normal git_root asset_path revision ue_bin_path
                        project_path env st))) tmp_path = Some blob.
Proof.
  intros env st git_root asset_path revision ue project tmp_dir rel fs1 blob
    Htmp Hrel Hblob Hrev tmp_path Hrun.
  destruct (mkdtemp_try_ok _ _ Htmp) as (_ & _ & Hmk).
  pose proof (mkdir_scandir _ _ Hmk) as Hempty.
  destruct (@write_into_empty_dir fs1 tmp_dir _ blob Hempty
              (@temp_name_valid asset_path revision Hrev)) as [fs2 Hw].
  fold tmp_path in Hw.
  unfold diff_normal, get_asset_temp_path.
  erewrite bind_ok
    by (erewrite bind_ok by (rewrite mkdtemp_eq, Htmp; reflexivity);
        reflexivity).
  fold tmp_path.
  erewrite bind_ok.
  2:{ unfold git_download_asset_revision.
      erewrite bind_ok
        by (rewrite get_git_relative_asset_path_eq, Hrel; reflexivity).
      erewrite bind_ok
        by (rewrite run_cmd_capture_blob_eq, Hblob; reflexivity).
      rewrite open_write_eq. cbn [st_fs st_trace]. rewrite Hw. reflexivity. }
  erewrite bind_raise by (rewrite run_cmd_eq, Hrun; reflexivity).
  cbn [fst snd st_fs]. split; [reflexivity|].
  now apply write_read in Hw.
Qed.

(** C2 fails on the code.  In the inline scenario, when the diff tool
    exits with an error the run ends with [ToolInvocationFailed] and both
    the temporary directory and the temporary file are still there; when
    the tool succeeds the file is removed but the temporary directory is
    still there. *)
Theorem diff_normal_leaves_temporaries :
  (fst (main "Content/Foo.uasset" (env_inline false) st_inline)
   = Raise ToolInvocationFailed
   /\ isdir (st_fs (snd (main "Content/Foo.uasset" (env_inline false)
                           st_inline))) "/tmp/tmpk3x9" = true
   /\ FS.read (st_fs (snd (main "Content/Foo.uasset" (env_inline false)
                             st_inline))) "/tmp/tmpk3x9/Foo_abc1234.uasset"
      = Some [x0a; x0b; x0c])
  /\ (fst (main "Content/Foo.uasset" (env_inline true) st_inline) = Ok tt
      /\ isdir (st_fs (snd (main "Content/Foo.uasset" (env_inline true)
                              st_inline))) "/tmp/tmpk3x9" = true
      /\ exists_ (st_fs (snd (main "Content/Foo.uasset" (env_inline true)
                                st_inline)))
           "/tmp/tmpk3x9/Foo_abc1234.uasset" = false).
Proof. repeat split; vm_compute; reflexivity. Qed.

(** ** Paths handed to git *)

(** C4 fails on the code.  For the asset [Content/Foo\Bar.uasset] the
    revision lookup receives the relative path as [os.path.relpath]
    gives it, backslash included, while the blob retrieval receives the
    path with the backslash replaced by a slash. *)
Theorem main_log_path_not_normalized :
  st_trace (snd (main "Content/Foo\Bar.uasset" env_backslash st_backslash))
  = [Capture "/r" (git_log_cmd "Content/Foo\Bar.uasset");
     Capture "/r" ["git"; "lfs"; "ls-files"];
     Mkdtemp;
     CaptureBlob "/r" ["git"; "show"; "abc1234:Content/Foo/Bar.uasset"];
     OpenWrite "/tmp/tmpk3x9/Foo\Bar_abc1234.uasset";
     Run "/r" ["/ue/UnrealEditor-Cmd"; "/r/Game.uproject"; "-diff";
               "/tmp/tmpk3x9/Foo\Bar_abc1234.uasset";
               "/r/Content/Foo\Bar.uasset"];
     Unlink "/tmp/tmpk3x9/Foo\Bar_abc1234.uasset"]
  /\ Py.replace_char "\"%char "/"%char "Content/Foo\Bar.uasset"
     = "Content/Foo/Bar.uasset"
  /\ "Content/Foo\Bar.uasset" <> "Content/Foo/Bar.uasset".
Proof. repeat split; try (vm_compute; reflexivity). discriminate. Qed.

(** * Further properties *)

(** X1: the large-file strategy never creates, writes or deletes a
    file: whatever its outcome, [diff_lfs] leaves the file system as it
    found it. *)
Theorem diff_lfs_keeps_file_system :
  forall (git_root asset_path revision ue_bin_path project_path : string)
         (env : Env) (st : State),
    st_fs (snd (diff_lfs git_root asset_path revision ue_bin_path
                  project_path env st)) = st_fs st.
Proof. intros. apply keeps_fs_diff_lfs. Qed.

(** X2: the repository root that [find_git_root] returns is a
    non-empty prefix of the working directory, and the directory it
    names lists an entry named [.git]. *)
Theorem find_git_root_is_ancestor :
  forall (env : Env) (st : State) (git_root : string),
    fst (find_git_root env st) = Ok git_root ->
    Py.truthy git_root = true /\
    holds_dot_git (st_fs st) (getcwd env) git_root.
Proof.
  intros env st git_root.
  unfold find_git_root, bind, ask, get_fs, ret, raise. cbn [fst snd].
  destruct (find_git_root_loop _ (st_fs st) (getcwd env) EmptyString 1)
    as [[g|e]|] eqn:El; cbn [fst]; try discriminate.
  destruct (Py.truthy g) eqn:Eg; cbn [negb fst]; [|discriminate].
  intros H. inversion H; subst g. split; [assumption|].
  apply (@find_git_root_loop_holds (st_fs st) (getcwd env)) in El
    as [->|Hh]; [discriminate | assumption | | now left].
  exists (String.length (getcwd env)).
  clear. induction (getcwd env) as [|c r IH]; simpl; congruence.
Qed.

(** A run of X2 from [/r/Content] in the inline scenario. *)
Lemma find_git_root_is_ancestor_witness :
  Py.truthy "/r" = true /\
  holds_dot_git fs_inline "/r/Content" "/r".
Proof.
  apply (@find_git_root_is_ancestor env_content st_inline "/r").
  reflexivity.
Defined.

(** A run of X3 in the inline scenario. *)
Lemma diff_normal_keeps_temp_dir_witness :
  isdir (st_fs (snd (diff_normal "/r" "/r/Content/Foo.uasset" "abc1234"
                       "/ue/UnrealEditor-Cmd" "/r/Game.uproject"
                       (env_inline true) st_inline))) "/tmp/tmpk3x9" = true.
Proof.
  apply (diff_normal_keeps_temp_dir (env_inline true) st_inline "/r"
           "/r/Content/Foo.uasset" "abc1234" "/ue/UnrealEditor-Cmd"
           "/r/Game.uproject" (tmp_dir := "/tmp/tmpk3x9")
           (fs1 := [Dir "r" [Dir ".git" [File "HEAD" []];
                             Dir "Content" [File "Foo.uasset" [x01; x02]];
                             File "Game.uproject" []];
                    Dir "tmp" [Dir "tmpk3x9" []]])).
  reflexivity.
Defined.

(** A run of X4 in the inline scenario with a failing diff tool. *)
Lemma diff_normal_failure_keeps_temp_file_witness :
  fst (diff_normal "/r" "/r/Content/Foo.uasset" "abc1234"
         "/ue/UnrealEditor-Cmd" "/r/Game.uproject" (env_inline false)
         st_inline) = Raise ToolInvocationFailed
  /\ FS.read
       (st_fs (snd (diff_normal "/r" "/r/Content/Foo.uasset" "abc1234"
                      "/ue/UnrealEditor-Cmd" "/r/Game.uproject"
                      (env_inline false) st_inline)))
       "/tmp/tmpk3x9/Foo_abc1234.uasset" = Some [x0a; x0b; x0c].
Proof.
  apply (@diff_normal_failure_keeps_temp_file (env_inline false) st_inline
           "/r" "/r/Content/Foo.uasset" "abc1234" "/ue/UnrealEditor-Cmd"
           "/r/Game.uproject" "/tmp/tmpk3x9" "Content/Foo.uasset"
           [Dir "r" [Dir ".git" [File "HEAD" []];
                     Dir "Content" [File "Foo.uasset" [x01; x02]];
                     File "Game.uproject" []];
            Dir "tmp" [Dir "tmpk3x9" []]]
           [x0a; x0b; x0c]); reflexivity.
Defined.

(** X5: for a one-character separator, [last_index] is the position of
    the last occurrence, as [str.rfind] gives it: -1 when the separator
    does not occur, and otherwise the length of what stands before the
    last occurrence, so that [input[0:last_index]] is the input without
    its last segment and the separator before it. *)
Theorem last_index_is_last_occurrence :
  forall (c : ascii) (input : string),
    last_index input (String c EmptyString) = Py.rfind c input
    /\ (Py.has_char c input = false ->
        last_index input (String c EmptyString) = (-1)%Z)
    /\ (forall a b,
          input = a ++ String c b -> Py.has_char c b = false ->
          last_index input (String c EmptyString)
          = Z.of_nat (String.length a)
          /\ Py.slice_to input (last_index input (String c EmptyString)) = a).
Proof.
  intros c input. split; [|split].
  - unfold Py.rfind.
    destruct (rfind_from_spec c input 0 (-1))
      as [[Hn ->]|(a & b & -> & Hb & ->)].
    + now apply last_index_absent.
    + rewrite last_index_last by assumption. lia.
  - apply last_index_absent.
  - intros a b -> Hb. rewrite last_index_last by assumption.
    split; [reflexivity | apply slice_to_length].
Qed.

(** X6: started from [head/c1/.../cn] (components without a separator;
    [head] is empty for an absolute path), the upward search lists
    [head/c1/.../cn], then [head/c1/.../c(n-1)], and so on, and returns
    the first of them, the nearest, that lists a matching entry; a
    directory that cannot be listed ends it with an OS error.  The walk
    stops when the last separator is at position 0: from an absolute path
    with non-empty components the root directory [/] itself is never
    listed, so a marker that lies directly in [/] is not found. *)
Theorem find_entry_in_dir_up_nearest_ancestor :
  forall (fs : FS.t) (p : predicate) (head : string) (cs : list string),
    no_sep head -> Forall no_sep cs ->
    find_entry_in_dir_up fs (head ++ abs_path cs) p
    = first_with_match fs p (ancestors head cs)
    /\ (head = EmptyString ->
        Forall (fun c => Py.truthy c = true) cs ->
        forall d, In d (ancestors head cs) -> d <> OsPath.sep).
Proof.
  intros fs p head cs Hh Hcs. split.
  - now apply find_entry_in_dir_up_ancestors.
  - intros -> Ht d. apply ancestors_from_not_root. now apply Forall_rev.
Qed.

(** A run of X6 from [/r/a/b]: the descriptor in [/r] is found, and with
    a predicate that only [/Top.uproject] satisfies nothing is found. *)
Lemma find_entry_in_dir_up_nearest_ancestor_witness :
  (no_sep EmptyString /\ Forall no_sep ["r"; "a"; "b"]) /\
  ancestors EmptyString ["r"; "a"; "b"] = ["/r/a/b"; "/r/a"; "/r"] /\
  find_entry_in_dir_up fs_nested "/r/a/b" uproject_predicate
  = Ok (Some "/r") /\
  find_entry_in_dir_up fs_nested "/r/a/b"
    (fun entry => String.eqb (name entry) "Top.uproject") = Ok None.
Proof.
  assert (no_sep EmptyString /\ Forall no_sep ["r"; "a"; "b"]) as H.
  { split; [reflexivity | repeat constructor]. }
  split; [exact H|]. split; [reflexivity|].
  destruct H as [H1 H2]. split.
  - exact (eq_trans
      (proj1 (@find_entry_in_dir_up_nearest_ancestor
                fs_nested uproject_predicate EmptyString
                ["r"; "a"; "b"] H1 H2))
      eq_refl).
  - reflexivity.
Defined.

(** X7: [find_git_root] is the upward search of [find_entry_in_dir_up]
    from the current working directory with the predicate "is named
    [.git]": it returns what that search returns, raises AnchorNotFound
    where that search finds nothing, fails where it fails, and leaves
    the state as it is. *)
Theorem find_git_root_is_upward_search :
  forall (env : Env) (st : State),
    find_git_root env st
    = (root_of_search
         (find_entry_in_dir_up (st_fs st) (getcwd env) is_dot_git), st).
Proof.
  intros env st.
  unfold find_git_root, find_entry_in_dir_up, bind, ask, get_fs, ret, raise.
  cbn [fst snd].
  rewrite (@find_git_root_loop_up (st_fs st) _ _ _ None)
    by (left; split; reflexivity).
  destruct (find_entry_in_dir_up_loop _ (st_fs st) is_dot_git (getcwd env)
              None 1) as [[[d|]|e]|] eqn:El;
    cbn [option_map root_string root_of_search Py.truthy negb];
    try reflexivity.
  apply (@up_loop_outcome (st_fs st) is_dot_git) in El.
  destruct El as [El|El]; [discriminate|]. now rewrite El.
Qed.


(** X9: a run of [main] never alters what exists when it starts.
    Whatever the outcome, every path that names a regular file still
    names a regular file with the same content, and every path that
    names a directory still names a directory: the only writes and the
    only unlink go to a path below the directory that [tempfile.mkdtemp]
    has just created, which did not exist before. *)
Theorem main_keeps_existing_files :
  forall (relative_asset_path : string) (env : Env) (st : State)
         (path : string),
    (forall data,
       FS.read (st_fs st) path = Some data ->
       FS.read (st_fs (snd (main relative_asset_path env st))) path
       = Some data)
    /\ (isdir (st_fs st) path = true ->
        isdir (st_fs (snd (main relative_asset_path env st))) path = true).
Proof.
  intros rel env st path. apply keeps_existing_main.
Qed.

(** X10: the name of the temporary file is the file name of the asset
    with [_<revision>] put in before its extension.  When
    [get_asset_temp_path] returns, its result is [join(tmp_dir, base ++
    "_" ++ revision ++ ext)], where [tmp_dir] is one of the names
    [tempfile] tries, did not exist before and is now an empty
    directory, [base ++ ext] is the base name of the asset path, and
    [ext] is empty or a dot followed by characters other than the dot. *)
Theorem get_asset_temp_path_name :
  forall (asset_path revision : string) (env : Env) (st st' : State)
         (tmp_path : string),
    get_asset_temp_path asset_path revision env st = (Ok tmp_path, st') ->
    exists tmp_dir base ext,
      In tmp_dir (tmp_candidates env)
      /\ exists_ (st_fs st) tmp_dir = false
      /\ scandir (st_fs st') tmp_dir = Some []
      /\ tmp_path = OsPath.join tmp_dir (base ++ "_" ++ revision ++ ext)
      /\ base ++ ext = OsPath.basename asset_path
      /\ (ext = EmptyString
          \/ exists e, ext = String "." e /\ Py.has_char "." e = false).
Proof.
  intros asset_path revision env st st' tmp_path.
  rewrite get_asset_temp_path_eq.
  destruct (mkdtemp_try (tmp_candidates env) (st_fs st)) as [[d fs1]|e]
    eqn:Em; [|discriminate].
  intros H. inversion H; subst. clear H.
  destruct (mkdtemp_try_ok _ _ Em) as (Hin & Hfresh & Hmk).
  exists d, (OsPath.basename (fst (OsPath.splitext asset_path))),
    (snd (OsPath.splitext asset_path)).
  repeat split; try assumption.
  - cbn [st_fs]. now apply mkdir_scandir in Hmk.
  - apply basename_splitext.
  - apply splitext_ext_shape.
Qed.

(** A run of X10 in the inline scenario: [Foo.uasset] at revision
    [abc1234] becomes [Foo_abc1234.uasset]. *)
Lemma get_asset_temp_path_name_witness :
  exists tmp_dir base ext,
    In tmp_dir (tmp_candidates (env_inline true))
    /\ exists_ (st_fs st_inline) tmp_dir = false
    /\ scandir
         (st_fs (snd (get_asset_temp_path "/r/Content/Foo.uasset" "abc1234"
                        (env_inline true) st_inline))) tmp_dir = Some []
    /\ "/tmp/tmpk3x9/Foo_abc1234.uasset"
       = OsPath.join tmp_dir (base ++ "_" ++ "abc1234" ++ ext)
    /\ base ++ ext = OsPath.basename "/r/Content/Foo.uasset"
    /\ (ext = EmptyString
        \/ exists e, ext = String "." e /\ Py.has_char "." e = false).
Proof.
  apply (@get_asset_temp_path_name "/r/Content/Foo.uasset" "abc1234"
           (env_inline true) st_inline).
  reflexivity.
Defined.

(** X11: the revision that [git_find_last_revision] returns is the
    output of [git log] without its leading and trailing whitespace: the
    output is whitespace, then the revision, then whitespace (the line
    end that [git log] prints), and the revision is not empty and neither
    begins nor ends with a whitespace character. *)
Theorem git_find_last_revision_trimmed :
  forall (env : Env) (st st' : State) (git_root file_path revision : string),
    git_find_last_revision git_root file_path env st = (Ok revision, st') ->
    exists out pre post,
      proc_text env git_root (git_log_cmd file_path) = Some out
      /\ out = pre ++ revision ++ post
      /\ all_space pre = true /\ all_space post = true
      /\ Py.truthy revision = true
      /\ starts_clean revision = true
      /\ starts_clean (Py.str_rev revision) = true.
Proof.
  intros env st st' git_root file_path revision.
  rewrite git_find_last_revision_eq.
  destruct (proc_text env git_root (git_log_cmd file_path)) as [out|];
    [|discriminate].
  destruct (Py.truthy (Py.strip out)) eqn:Et; [|discriminate].
  intros H. inversion H; subst. clear H.
  destruct (strip_split out) as (pre & post & Hs & Hpre & Hpost & Hc & Hr).
  exists out, pre, post. repeat split; assumption.
Qed.

(** A run of X11 in the inline scenario: [git log] prints [abc1234] and
    a line feed. *)
Lemma git_find_last_revision_trimmed_witness :
  exists out pre post,
    proc_text (env_inline true) "/r" (git_log_cmd "Content/Foo.uasset")
    = Some out
    /\ out = pre ++ "abc1234" ++ post
    /\ all_space pre = true /\ all_space post = true
    /\ Py.truthy "abc1234" = true
    /\ starts_clean "abc1234" = true
    /\ starts_clean (Py.str_rev "abc1234") = true.
Proof.
  apply (@git_find_last_revision_trimmed (env_inline true) st_inline
           (mkState fs_inline [Capture "/r" (git_log_cmd "Content/Foo.uasset")])
           "/r" "Content/Foo.uasset" "abc1234").
  reflexivity.
Defined.

(** X12: started in an absolute working directory, the asset path that
    [get_valid_asset_path] returns is absolute and normalised, whatever
    the argument looks like: it names a regular file, it begins with a
    slash, and it is one slash (or exactly two) followed by names joined
    by single slashes, none of which is empty, [.] or [..]. *)
Theorem get_valid_asset_path_normalized :
  forall (relative_asset_path : string) (env : Env) (st st' : State)
         (asset_path : string),
    OsPath.isabs (getcwd env) = true ->
    get_valid_asset_path relative_asset_path env st = (Ok asset_path, st') ->
    st' = st
    /\ isfile (st_fs st) asset_path = true
    /\ OsPath.isabs asset_path = true
    /\ Forall (fun c => valid_name c = true) (components asset_path)
    /\ (asset_path
        = OsPath.sep ++ String.concat OsPath.sep (components asset_path)
        \/ asset_path
           = OsPath.sep ++ OsPath.sep
             ++ String.concat OsPath.sep (components asset_path)).
Proof.
  intros rel env st st' asset Hcwd H.
  pose proof (get_valid_asset_path_isfile _ _ _ H) as Hfile.
  pose proof (get_valid_asset_path_reader rel env st) as Hr.
  rewrite H in Hr. cbn [snd] in Hr. split; [exact Hr|].
  split; [exact Hfile|].
  unfold get_valid_asset_path, bind, ask, get_fs, ret, raise in H.
  destruct (negb (isfile (st_fs st) _)); [discriminate|].
  inversion H as [[Ha Hs]]. clear H.
  unfold OsPath.abspath.
  rewrite (@isabs_join _ rel Hcwd).
  apply normpath_abs. now apply isabs_join.
Qed.

(** A run of X12 from [/r] with an argument that goes through [.] and
    [..]. *)
Lemma get_valid_asset_path_normalized_witness :
  mkState fs_inline [] = st_inline
  /\ isfile (st_fs st_inline) "/r/Content/Foo.uasset" = true
  /\ OsPath.isabs "/r/Content/Foo.uasset" = true
  /\ Forall (fun c => valid_name c = true)
       (components "/r/Content/Foo.uasset")
  /\ ("/r/Content/Foo.uasset"
      = OsPath.sep ++ String.concat OsPath.sep
                        (components "/r/Content/Foo.uasset")
      \/ "/r/Content/Foo.uasset"
         = OsPath.sep ++ OsPath.sep
           ++ String.concat OsPath.sep (components "/r/Content/Foo.uasset")).
Proof.
  apply (@get_valid_asset_path_normalized "./tmp/../Content//Foo.uasset"
           (env_inline true) st_inline (mkState fs_inline [])
           "/r/Content/Foo.uasset");
    reflexivity.
Defined.



(** X14: for a repository root [/r1/.../rm] and an asset
    [/r1/.../rm/a1/.../an] below it (valid names, at least one on each
    side), [os.path.relpath] gives [a1/.../an], whatever the working
    directory is; this is what [main] hands to [git log].
    [get_git_relative_asset_path] gives the same with every backslash
    replaced by a slash, which is the same string when no name holds a
    backslash. *)
Theorem git_relative_path_below_root :
  forall (env : Env) (st : State) (r0 a0 : string) (rs rest : list string),
    Forall (fun c => valid_name c = true) (r0 :: rs) ->
    Forall (fun c => valid_name c = true) (a0 :: rest) ->
    let git_root := abs_path (r0 :: rs) in
    let asset_path := abs_path ((r0 :: rs) ++ a0 :: rest) in
    let names := String.concat OsPath.sep (a0 :: rest) in
    os_path_relpath asset_path git_root env st = (Ok names, st)
    /\ get_git_relative_asset_path git_root asset_path env st
       = (Ok (Py.replace_char "\"%char "/"%char names), st)
    /\ (Forall (fun c => Py.has_char "\"%char c = false) (a0 :: rest) ->
        get_git_relative_asset_path git_root asset_path env st
        = (Ok names, st)).
Proof.
  intros env st r0 a0 rs rest Hr Ha git_root asset_path names.
  pose proof (@relpath_below (getcwd env) r0 a0 rs rest Hr Ha) as Hrel.
  fold git_root asset_path names in Hrel.
  split; [|split].
  - now rewrite os_path_relpath_eq, Hrel.
  - now rewrite get_git_relative_asset_path_eq, Hrel.
  - intros Hb. rewrite get_git_relative_asset_path_eq, Hrel.
    rewrite replace_char_absent; [reflexivity|].
    now apply has_char_concat.
Qed.

(** A run of X14: [/r/Content/Foo.uasset] in the repository [/r]. *)
Lemma git_relative_path_below_root_witness :
  (Forall (fun c => valid_name c = true) ["r"]
   /\ Forall (fun c => valid_name c = true) ["Content"; "Foo.uasset"])
  /\ os_path_relpath "/r/Content/Foo.uasset" "/r" env_content st_inline
     = (Ok "Content/Foo.uasset", st_inline)
  /\ get_git_relative_asset_path "/r" "/r/Content/Foo.uasset" env_content
       st_inline
     = (Ok "Content/Foo.uasset", st_inline).
Proof.
  assert (Forall (fun c => valid_name c = true) ["r"]
          /\ Forall (fun c => valid_name c = true) ["Content"; "Foo.uasset"])
    as H by (split; repeat constructor).
  split; [exact H|]. destruct H as [H1 H2].
  destruct (@git_relative_path_below_root env_content st_inline
              "r" "Content" [] ["Foo.uasset"] H1 H2) as (Ha & Hb & _).
  split; [exact Ha | exact Hb].
Defined.

(** X15: the net effect of a successful inline run.  When the temporary
    directory is created, [git show] answers, the revision holds no
    slash and the diff tool exits with success, [diff_normal] returns
    normally, its five steps happen in this order (mkdtemp, git show,
    write, diff tool on the file just written, unlink of that file), and
    the file system it leaves is exactly the one [tempfile.mkdtemp]
    made: the old one with one new, empty directory. *)
Theorem diff_normal_success_net_effect :
  forall (env : Env) (st : State)
         (git_root asset_path revision ue_bin_path project_path tmp_dir rel
          : string) (fs1 : FS.t) (blob : list byte),
    mkdtemp_try (tmp_candidates env) (st_fs st) = Ok (tmp_dir, fs1) ->
    OsPath.relpath (getcwd env) asset_path git_root = Some rel ->
    proc_blob env git_root
      ["git"; "show";
       revision ++ ":" ++ Py.replace_char "\"%char "/"%char rel]
    = Some blob ->
    Py.has_char "/"%char revision = false ->
    let tmp_path :=
      OsPath.join tmp_dir
        (OsPath.basename (fst (OsPath.splitext asset_path)) ++ "_" ++
         revision ++ snd (OsPath.splitext asset_path)) in
    let cmd_parts :=
      create_diff_command_parts ue_bin_path project_path tmp_path
        (Some asset_path) in
    proc_run env git_root cmd_parts = true ->
    diff_normal git_root asset_path revision ue_bin_path project_path env st
    = (Ok tt,
       mkState fs1
         (app (st_trace st)
            [Mkdtemp;
             CaptureBlob git_root
               ["git"; "show";
                revision ++ ":" ++ Py.replace_char "\"%char "/"%char rel];
             OpenWrite tmp_path;
             Run git_root cmd_parts;
             Unlink tmp_path]))
    /\ FS.mkdir (st_fs st) tmp_dir = Some fs1
    /\ scandir fs1 tmp_dir = Some [].
Proof.
  intros env st git_root asset_path revision ue project tmp_dir rel fs1 blob
    Htmp Hrel Hblob Hrev tmp_path cmd_parts Hrun.
  destruct (mkdtemp_try_ok _ _ Htmp) as (_ & _ & Hmk).
  pose proof (mkdir_scandir _ _ Hmk) as Hempty.
  pose proof (@temp_name_valid asset_path revision Hrev) as Hvalid.
  destruct (@write_into_empty_dir fs1 tmp_dir _ blob Hempty Hvalid)
    as [fs2 Hw].
  pose proof (@write_unlink_empty_dir fs1 fs2 tmp_dir _ blob Hempty Hvalid Hw)
    as Hu.
  fold tmp_path in Hw, Hu.
  split; [|split; assumption].
  unfold diff_normal, get_asset_temp_path.
  erewrite bind_ok
    by (erewrite bind_ok by (rewrite mkdtemp_eq, Htmp; reflexivity);
        reflexivity).
  fold tmp_path.
  erewrite bind_ok.
  2:{ unfold git_download_asset_revision.
      erewrite bind_ok
        by (rewrite get_git_relative_asset_path_eq, Hrel; reflexivity).
      erewrite bind_ok
        by (rewrite run_cmd_capture_blob_eq, Hblob; reflexivity).
      rewrite open_write_eq. cbn [st_fs st_trace]. rewrite Hw. reflexivity. }
  fold cmd_parts.
  erewrite bind_ok by (rewrite run_cmd_eq, Hrun; reflexivity).
  rewrite os_unlink_eq. cbn [st_fs st_trace]. rewrite Hu.
  now rewrite <- !app_assoc.
Qed.

(** A run of X15 in the inline scenario. *)
Lemma diff_normal_success_net_effect_witness :
  diff_normal "/r" "/r/Content/Foo.uasset" "abc1234" "/ue/UnrealEditor-Cmd"
    "/r/Game.uproject" (env_inline true) st_inline
  = (Ok tt,
     mkState
       [Dir "r" [Dir ".git" [File "HEAD" []];
                 Dir "Content" [File "Foo.uasset" [x01; x02]];
                 File "Game.uproject" []];
        Dir "tmp" [Dir "tmpk3x9" []]]
       [Mkdtemp;
        CaptureBlob "/r" ["git"; "show"; "abc1234:Content/Foo.uasset"];
        OpenWrite "/tmp/tmpk3x9/Foo_abc1234.uasset";
        Run "/r" ["/ue/UnrealEditor-Cmd"; "/r/Game.uproject"; "-diff";
                  "/tmp/tmpk3x9/Foo_abc1234.uasset";
                  "/r/Content/Foo.uasset"];
        Unlink "/tmp/tmpk3x9/Foo_abc1234.uasset"])
  /\ FS.mkdir fs_inline "/tmp/tmpk3x9"
     = Some [Dir "r" [Dir ".git" [File "HEAD" []];
                      Dir "Content" [File "Foo.uasset" [x01; x02]];
                      File "Game.uproject" []];
             Dir "tmp" [Dir "tmpk3x9" []]]
  /\ scandir [Dir "r" [Dir ".git" [File "HEAD" []];
                       Dir "Content" [File "Foo.uasset" [x01; x02]];
                       File "Game.uproject" []];
              Dir "tmp" [Dir "tmpk3x9" []]] "/tmp/tmpk3x9" = Some [].
Proof.
  apply (@diff_normal_success_net_effect (env_inline true) st_inline "/r"
           "/r/Content/Foo.uasset" "abc1234" "/ue/UnrealEditor-Cmd"
           "/r/Game.uproject" "/tmp/tmpk3x9" "Content/Foo.uasset"
           [Dir "r" [Dir ".git" [File "HEAD" []];
                     Dir "Content" [File "Foo.uasset" [x01; x02]];
                     File "Game.uproject" []];
            Dir "tmp" [Dir "tmpk3x9" []]] [x0a; x0b; x0c]);
    reflexivity.
Defined.

(** X16: [main] ends.  On a well-formed tree and started in an absolute
    working directory, neither the upward search for the repository
    root nor the two searches for the project descriptor run without
    end: the run returns normally or raises one of the exceptions of
    the script or of the operating system. *)
Theorem main_finishes :
  forall (relative_asset_path : string) (env : Env) (st : State),
    wf (st_fs st) = true -> OsPath.isabs (getcwd env) = true ->
    finished (fst (main relative_asset_path env st)) = true.
Proof.
  intros rel env st Hwf Hcwd.
  destruct (main rel env st) as [[u|e] st'] eqn:Em; [reflexivity|].
  pose proof (@main_ends rel env st st' e Hwf Hcwd Em) as He.
  cbn [fst]. destruct e; try reflexivity. congruence.
Qed.

(** A run of X16 in the inline scenario with a failing tool. *)
Lemma main_finishes_witness :
  finished (fst (main "Content/Foo.uasset" (env_inline false) st_inline))
  = true.
Proof.
  apply (@main_finishes "Content/Foo.uasset" (env_inline false) st_inline);
    reflexivity.
Defined.
